(** * ComputeHorde validator: a shallow embedding of the job driver, the chain
    oracle with its prefetch cache, the receipt transfer command and the
    output uploader, with the properties the specification states about them. *)

From Stdlib Require Import ZArith QArith Lia List String Sorted.
From stdpp Require Import base option list gmap strings pretty.

Local Open Scope Z_scope.

(** ** Python values shared by the components *)

(** The exception classes the embedded code raises or lets through. *)
Inductive exception :=
| KeyError (key : string)
| TypeError
| IndexError
| AssertionError
| DoesNotExist
| MultipleObjectsReturned
| TransferIsDisabled
| OutputUploadFailed (description : string)
| TimeoutError
| SuperTensorTimeout
| ConcurrencyError
| UnknownBlock
| ArchiveSubtensorNotConfigured
| CannotGetCurrentBlock
| PrecachingSuperTensorCacheMiss (message : string)
| OtherError (name : string).

(** Result of a call: a returned value, a raised exception, or a loop that is
    still running when its budget of steps is used up. *)
Inductive outcome (A : Type) :=
| Return (a : A)
| Raise (e : exception)
| Running.
Arguments Return {A} a.
Arguments Raise {A} e.
Arguments Running {A}.

(** Calls that read and change a state [S] and may raise. *)
Definition ST (S A : Type) : Type := S -> outcome A * S.
Definition ret {S A} (a : A) : ST S A := fun s => (Return a, s).
Definition raise {S A} (e : exception) : ST S A := fun s => (Raise e, s).
Definition bind {S A B} (m : ST S A) (k : A -> ST S B) : ST S B :=
  fun s => match m s with
           | (Return a, s') => k a s'
           | (Raise e, s') => (Raise e, s')
           | (Running, s') => (Running, s')
           end.
Notation "x <- m ;; k" := (bind m (fun x => k))
  (at level 100, m at next level, right associativity).
Notation "m ;;; k" := (bind m (fun _ => k))
  (at level 100, right associativity).

(** Values a dynamic configuration key can hold, with Python's truth test. *)
Inductive config_value :=
| CBool (b : bool)
| CInt (z : Z)
| CStr (s : string)
| CNone.

Definition truthy (v : config_value) : bool :=
  match v with
  | CBool b => b
  | CInt z => negb (z =? 0)
  | CStr s => negb (String.eqb s EmptyString)
  | CNone => false
  end.

(** [range(a, b)] on Python integers. *)
Definition py_range (a b : Z) : list Z := seqZ a (b - a).

(** ** management/commands/transfer_receipts.py *)
Module TransferReceipts.

(** What the command observes of its surroundings.  The [n]-th interaction
    with the outside (a configuration read, a clock read) sees the value at
    index [n]; [gather_schedule] picks which of the two gathered tasks runs
    its next iteration. *)
Record environment := {
  dynamic_config : nat -> gmap string config_value;
  now : nat -> Z;                 (* timezone.now(), microseconds *)
  monotonic_ms : nat -> Z;        (* time.monotonic(), milliseconds *)
  gather_schedule : nat -> bool
}.

Inductive event :=
| EvGetConfig (key : string) (value : option config_value)
| EvTransfer (pages : list Z) (request_timeout_ms : Z) (semaphore : Z)
| EvAsyncSleep (seconds : Z)
| EvBlockingSleep (ms : Z).

Record state := { ticks : nat; trace : list event }.

Definition emit (e : event) (s : state) : state :=
  {| ticks := ticks s; trace := trace s ++ [e] |}.
Definition tick (s : state) : state :=
  {| ticks := S (ticks s); trace := trace s |}.

Definition M (A : Type) : Type := ST state A.

Definition ENABLED_KEY : string := "DYNAMIC_RECEIPT_TRANSFER_ENABLED".
Definition INTERVAL_KEY : string := "DYNAMIC_RECEIPT_TRANSFER_INTERVAL".
Definition timedelta_hours (h : Z) : Z := h * 3600 * 1000000.

Section Command.
(** [N_ACTIVE_PAGES] and [LocalFilesystemPagedReceiptStore.current_page_at]
    are imported from compute_horde.receipts.store.local. *)
Variable N_ACTIVE_PAGES : Z.
Variable current_page_at : Z -> Z.
Variable env : environment.

(** [aget_config]: the value of a dynamic configuration key; an absent key
    raises KeyError. *)
Definition aget_config (key : string) : M config_value :=
  fun s =>
    let v := dynamic_config env (ticks s) !! key in
    let s' := emit (EvGetConfig key v) (tick s) in
    match v with
    | Some x => (Return x, s')
    | None => (Raise (KeyError key), s')
    end.

Definition timezone_now : M Z :=
  fun s => (Return (now env (ticks s)), tick s).
Definition time_monotonic : M Z :=
  fun s => (Return (monotonic_ms env (ticks s)), tick s).
Definition current_page : M Z :=
  t <- timezone_now ;; ret (current_page_at t).
Definition asyncio_sleep (seconds : Z) : M unit :=
  fun s => (Return tt, emit (EvAsyncSleep seconds) s).
Definition time_sleep (ms : Z) : M unit :=
  fun s => (Return tt, emit (EvBlockingSleep ms) s).
(** [ReceiptsTransfer.transfer]: failures of single miners are collected
    in its result, so the call itself returns. *)
Definition transfer (pages : list Z) (request_timeout_ms semaphore : Z) : M unit :=
  fun s => (Return tt, emit (EvTransfer pages request_timeout_ms semaphore) s).

Definition _throw_if_disabled : M unit :=
  fun s =>
    match aget_config ENABLED_KEY s with
    | (Return v, s') =>
        if truthy v then (Return tt, s') else (Raise TransferIsDisabled, s')
    | (Raise (KeyError _), s') => (Raise TransferIsDisabled, s')
    | (Raise e, s') => (Raise e, s')
    | (Running, s') => (Running, s')
    end.

(** One round of the [for] loop of [catch_up]. *)
Definition catch_up_iteration (page : Z) (semaphore : Z) : M unit :=
  _throw_if_disabled ;;;
  _ <- time_monotonic ;;
  transfer [page] 3000 semaphore ;;;
  _ <- time_monotonic ;;
  ret tt.

Fixpoint catch_up (pages : list Z) (semaphore : Z) : M unit :=
  match pages with
  | [] => ret tt
  | page :: rest => catch_up_iteration page semaphore ;;; catch_up rest semaphore
  end.

Definition interval_ms (v : config_value) : M Z :=
  match v with
  | CInt z => ret (z * 1000)
  | CBool b => ret (if b then 1000 else 0)
  | _ => fun s => (Raise TypeError, s)
  end.

(** One round of the [while True] loop of [keep_up]. *)
Definition keep_up_iteration (semaphore : Z) : M unit :=
  _throw_if_disabled ;;;
  interval <- aget_config INTERVAL_KEY ;;
  start_time <- time_monotonic ;;
  page <- current_page ;;
  transfer (rev (py_range (page - N_ACTIVE_PAGES + 1) (page + 1))) 1000 semaphore ;;;
  end_time <- time_monotonic ;;
  limit <- interval_ms interval ;;
  if end_time - start_time <? limit
  then time_sleep (limit - (end_time - start_time))
  else ret tt.

Fixpoint keep_up (fuel : nat) (semaphore : Z) : M unit :=
  match fuel with
  | O => fun s => (Running, s)
  | S fuel' => keep_up_iteration semaphore ;;; keep_up fuel' semaphore
  end.

Definition run_once (cutoff : Z) : M unit :=
  let catchup_cutoff_page := current_page_at cutoff in
  page <- current_page ;;
  catch_up (rev (py_range catchup_cutoff_page (page + 1))) 50.

(** [asyncio.gather] of the cold-page [catch_up] (semaphore 10) and
    [keep_up] (semaphore 50): the two tasks take turns, one loop round at
    a time, in the order [gather_schedule] gives; the first exception of
    either ends the gather for the coroutine awaiting it, which is all
    that is followed here ([TransferDaemon] below follows the task that
    the gather leaves running as well).  [keep_up] never returns, so
    neither does the gather. *)
Fixpoint gather_catch_up_keep_up (fuel : nat) (cold : list Z) : M unit :=
  match fuel with
  | O => fun s => (Running, s)
  | S fuel' =>
      fun s =>
        match gather_schedule env (ticks s), cold with
        | true, page :: rest =>
            (catch_up_iteration page 10 ;;; gather_catch_up_keep_up fuel' rest) (tick s)
        | _, _ =>
            (keep_up_iteration 50 ;;; gather_catch_up_keep_up fuel' cold) (tick s)
        end
  end.

Definition run_in_loop (fuel : nat) (cutoff : Z) : M unit :=
  let catchup_cutoff_page := current_page_at cutoff in
  page <- current_page ;;
  catch_up (rev (py_range (page - N_ACTIVE_PAGES + 1) (page + 1))) 50 ;;;
  gather_catch_up_keep_up fuel
    (rev (py_range catchup_cutoff_page (page - N_ACTIVE_PAGES + 1))).

(** The [while True] of [handle] in daemon mode. *)
Fixpoint daemon_loop (fuel : nat) (cutoff : Z) : M unit :=
  match fuel with
  | O => fun s => (Running, s)
  | S fuel' =>
      fun s =>
        match run_in_loop fuel' cutoff s with
        | (Raise TransferIsDisabled, s') =>
            (asyncio_sleep 60 ;;; daemon_loop fuel' cutoff) s'
        | (Return _, s') => daemon_loop fuel' cutoff s'
        | other => other
        end
  end.

Definition handle (fuel : nat) (daemon : bool) : M unit :=
  t <- timezone_now ;;
  let cutoff := t - timedelta_hours 5 in
  if daemon then daemon_loop fuel cutoff else run_once cutoff.

End Command.

Definition initial_state : state := {| ticks := O; trace := [] |}.

(** *** Reading a trace *)

(** The kill switch as a consultation returned it: on when the key is set
    to a true value. *)
Definition flag_on (v : option config_value) : bool :=
  match v with
  | Some x => truthy x
  | None => false
  end.

(** The page transfers of a trace, in order: pages, timeout, semaphore. *)
Fixpoint transfers (tr : list event) : list (list Z * Z * Z) :=
  match tr with
  | [] => []
  | EvTransfer pages t sem :: rest => (pages, t, sem) :: transfers rest
  | _ :: rest => transfers rest
  end.

End TransferReceipts.

(** ** The daemon of transfer_receipts.py on the event loop *)

(** [asyncio.gather] wraps the cold-page [catch_up] and [keep_up] in tasks
    of their own.  When one of them raises, the exception goes to the
    awaiting [run_in_loop], and the other task is not cancelled: it stays
    on the event loop and goes on beside [handle].  Here the coroutine of
    [handle] and every such task are followed one turn at a time. *)
Module TransferDaemon.
Import TransferReceipts.

(** A coroutine running as a task, by what it has left to do: [catch_up]
    by the pages still ahead of it, [keep_up] as it is for ever. *)
Inductive task :=
| CatchUp (pages : list Z) (semaphore : Z)
| KeepUp (semaphore : Z).

(** Where the coroutine of [handle] stands. *)
Inductive position :=
| Starting                            (* about to call run_in_loop *)
| Sweeping (active cold : list Z)     (* in the awaited catch_up over the active pages *)
| Gathering (catch_up_task : option task) (keep_up_task : task)
                                      (* awaiting the gather; None once catch_up returned *)
| Caught (e : exception)              (* the gather has raised, handle has yet to run *)
| Sleeping                            (* in asyncio.sleep(60) *)
| Ended (e : exception).

Record daemon := {
  shared : state;                     (* the clock, the configuration reads, the trace *)
  cutoff : Z;
  standing : position;
  left_running : list task            (* tasks of gathers that have raised *)
}.

(** Whose turn it is on the event loop. *)
Inductive turn :=
| Handle
| GatheredCatchUp
| GatheredKeepUp
| LeftRunning (i : nat).

Definition at_position (p : position) (s : state) (d : daemon) : daemon :=
  {| shared := s; cutoff := cutoff d; standing := p; left_running := left_running d |}.

Definition leave_running (t : option task) (d : daemon) : daemon :=
  {| shared := shared d; cutoff := cutoff d; standing := standing d;
     left_running := left_running d ++ match t with Some t => [t] | None => [] end |}.

Definition with_left_running (s : state) (l : list task) (d : daemon) : daemon :=
  {| shared := s; cutoff := cutoff d; standing := standing d; left_running := l |}.

Section Loop.
Variable N_ACTIVE_PAGES : Z.
Variable current_page_at : Z -> Z.
Variable env : environment.

(** One loop round of a task; the task as it stands afterwards, None
    when it has returned. *)
Definition task_round (t : task) : M (option task) :=
  match t with
  | CatchUp [] _ => ret None
  | CatchUp (page :: rest) semaphore =>
      catch_up_iteration env page semaphore ;;;
      ret (match rest with
           | [] => None
           | _ => Some (CatchUp rest semaphore)
           end)
  | KeepUp semaphore =>
      keep_up_iteration N_ACTIVE_PAGES current_page_at env semaphore ;;;
      ret (Some (KeepUp semaphore))
  end.

(** [handle] up to its [while True]. *)
Definition start (s : state) : daemon :=
  {| shared := tick s;
     cutoff := now env (ticks s) - timedelta_hours 5;
     standing := Starting;
     left_running := [] |}.

(** The [except TransferIsDisabled] of [handle]: any other exception
    ends the command. *)
Definition handle_raised (e : exception) (s : state) (d : daemon) : daemon :=
  match e with
  | TransferIsDisabled => at_position Sleeping (emit (EvAsyncSleep 60) s) d
  | _ => at_position (Ended e) s d
  end.

Definition take_turn (t : turn) (d : daemon) : daemon :=
  match standing d with
  | Ended _ => d                      (* the event loop is closed *)
  | here =>
      match t, here with
      | Handle, Starting =>
          (* run_in_loop, up to its first await *)
          let page := current_page_at (now env (ticks (shared d))) in
          at_position
            (Sweeping (rev (py_range (page - N_ACTIVE_PAGES + 1) (page + 1)))
                      (rev (py_range (current_page_at (cutoff d))
                                     (page - N_ACTIVE_PAGES + 1))))
            (tick (shared d)) d
      | Handle, Sweeping (page :: rest) cold =>
          match catch_up_iteration env page 50 (shared d) with
          | (Return _, s') => at_position (Sweeping rest cold) s' d
          | (Raise e, s') => handle_raised e s' d
          | (Running, s') => at_position here s' d
          end
      | Handle, Sweeping [] cold =>
          at_position (Gathering (Some (CatchUp cold 10)) (KeepUp 50)) (shared d) d
      | Handle, Caught e => handle_raised e (shared d) d
      | Handle, Sleeping => at_position Starting (shared d) d
      | GatheredCatchUp, Gathering (Some c) k =>
          match task_round c (shared d) with
          | (Return c', s') => at_position (Gathering c' k) s' d
          | (Raise e, s') => leave_running (Some k) (at_position (Caught e) s' d)
          | (Running, s') => at_position here s' d
          end
      | GatheredKeepUp, Gathering c k =>
          match task_round k (shared d) with
          | (Return (Some k'), s') => at_position (Gathering c k') s' d
          | (Raise e, s') => leave_running c (at_position (Caught e) s' d)
          | (_, s') => at_position here s' d
          end
      | LeftRunning i, _ =>
          match left_running d !! i with
          | Some task =>
              match task_round task (shared d) with
              | (Return (Some task'), s') =>
                  with_left_running s' (<[i := task']> (left_running d)) d
              | (_, s') =>
                  (* returned, or raised an exception nobody retrieves *)
                  with_left_running s' (delete i (left_running d)) d
              end
          | None => d
          end
      | _, _ => d
      end
  end.

Definition run (turns : list turn) (d : daemon) : daemon :=
  fold_left (fun d t => take_turn t d) turns d.

End Loop.

(** What a stretch of the run added to the trace. *)
Definition added (before after : daemon) : list event :=
  drop (length (trace (shared before))) (trace (shared after)).

End TransferDaemon.

(** *** More ways to read a transfer trace *)
Module TransferReading.
Import TransferReceipts.

(** The pages of the catch-up transfers of a trace, in order: catch-up
    asks with a 3-second timeout, keep-up with a 1-second one. *)
Definition catch_up_pages (tr : list event) : list Z :=
  concat ((fun x : list Z * Z * Z => if snd (fst x) =? 3000 then fst (fst x) else [])
            <$> transfers tr).

(** How many of the first rounds of a catch-up over [n] pages, begun at
    tick [t], find the kill switch on; a round that transfers takes three
    ticks. *)
Fixpoint rounds_enabled (env : environment) (t : nat) (n : nat) : nat :=
  match n with
  | O => O
  | S n' =>
      if flag_on (dynamic_config env t !! ENABLED_KEY)
      then S (rounds_enabled env (3 + t) n')
      else O
  end.

End TransferReading.

(** ** transfer_receipts.py: the metrics pushed after a transfer *)
Module TransferMetrics.

(** The class of an exception: errors are grouped by the class object and
    labelled by its [__name__]. *)
Record exception_class := { class_module : string; class_name : string }.

Definition class_eqb (a b : exception_class) : bool :=
  String.eqb (class_module a) (class_module b) && String.eqb (class_name a) (class_name b).

(** [TransferResult], with each collected error taken as its class. *)
Record TransferResult := {
  n_receipts : Z;
  n_successful_transfers : Z;
  transfer_errors : list exception_class;
  line_errors : list exception_class
}.

(** The counters [_push_common_metrics] writes; a labelled counter holds
    one value per label it has been asked for. *)
Record metrics := {
  m_receipts : Z;
  m_successful_transfers : Z;
  m_line_errors : gmap string Z;
  m_transfer_errors : gmap string Z
}.

(** [d[k] += 1] on a [defaultdict(int)], which keeps its keys in the order
    they were first seen. *)
Fixpoint defaultdict_incr (k : exception_class) (d : list (exception_class * Z))
    : list (exception_class * Z) :=
  match d with
  | [] => [(k, 1)]
  | (k', c) :: rest =>
      if class_eqb k' k then (k', c + 1) :: rest else (k', c) :: defaultdict_incr k rest
  end.

Definition count_by_class (errors : list exception_class) : list (exception_class * Z) :=
  fold_left (fun d e => defaultdict_incr e d) errors [].

(** [Counter.inc]: a negative amount raises ValueError. *)
Definition counter_inc (amount : Z) (value : Z) : outcome Z :=
  if amount <? 0 then Raise (OtherError "ValueError") else Return (value + amount).

(** [counter.labels(exc_type=label).inc(amount)]; a label not asked for
    before starts at 0. *)
Definition labels_inc (label : string) (amount : Z) (counter : gmap string Z)
    : outcome (gmap string Z) :=
  match counter_inc amount (default 0 (counter !! label)) with
  | Return v => Return (<[label := v]> counter)
  | Raise e => Raise e
  | Running => Running
  end.

Fixpoint push_counts (counts : list (exception_class * Z)) (counter : gmap string Z)
    : outcome (gmap string Z) :=
  match counts with
  | [] => Return counter
  | (exc_type, exc_count) :: rest =>
      match labels_inc (class_name exc_type) exc_count counter with
      | Return counter' => push_counts rest counter'
      | other => other
      end
  end.

Definition _push_common_metrics (result : TransferResult) : ST metrics unit :=
  fun m =>
    match push_counts (count_by_class (line_errors result)) (m_line_errors m) with
    | Return line =>
        let m1 := {| m_receipts := m_receipts m;
                     m_successful_transfers := m_successful_transfers m;
                     m_line_errors := line; m_transfer_errors := m_transfer_errors m |} in
        match push_counts (count_by_class (transfer_errors result)) (m_transfer_errors m) with
        | Return transfer =>
            let m2 := {| m_receipts := m_receipts m;
                         m_successful_transfers := m_successful_transfers m;
                         m_line_errors := line; m_transfer_errors := transfer |} in
            match counter_inc (n_receipts result) (m_receipts m) with
            | Return receipts =>
                let m3 := {| m_receipts := receipts;
                             m_successful_transfers := m_successful_transfers m;
                             m_line_errors := line; m_transfer_errors := transfer |} in
                match counter_inc (n_successful_transfers result)
                        (m_successful_transfers m) with
                | Return successful =>
                    (Return tt,
                     {| m_receipts := receipts; m_successful_transfers := successful;
                        m_line_errors := line; m_transfer_errors := transfer |})
                | Raise e => (Raise e, m3)
                | Running => (Running, m3)
                end
            | Raise e => (Raise e, m2)
            | Running => (Running, m2)
            end
        | Raise e => (Raise e, m1)
        | Running => (Running, m1)
        end
    | Raise e => (Raise e, m)
    | Running => (Running, m)
    end.

(** The errors of a list whose class carries a given name. *)
Definition named (label : string) (errors : list exception_class) : list exception_class :=
  List.filter (fun e => String.eqb (class_name e) label) errors.

(** The counts of a dictionary that go to a given label. *)
Definition total_for (label : string) (counts : list (exception_class * Z)) : Z :=
  fold_right (fun kc acc => if String.eqb (class_name (fst kc)) label then snd kc + acc else acc)
    0 counts.

Definition value_of (label : string) (counter : gmap string Z) : Z :=
  default 0 (counter !! label).

End TransferMetrics.

(** ** compute_horde_core/output_upload/_uploader.py *)
Module Uploader.

Definition OUTPUT_UPLOAD_TIMEOUT_SECONDS : Z := 300.
Definition MAX_NUMBER_OF_FILES : Z := 1000.
Definition MAX_CONCURRENT_UPLOADS : Z := 3.
Definition DEFAULT_MAX_SIZE_BYTES : Z := 2147483648.

(** A request as it reaches the HTTP client; the body is the zip, given by
    the archive names it holds. *)
Record http_request := {
  http_method : string;
  http_url : string;
  http_file : list string;
  http_data : gmap string string;
  http_headers : gmap string string;
  http_timeout : Z
}.

(** The network: requests made so far, seconds slept between retries. *)
Record net := { requests : list http_request; slept : list Z }.

Definition send (r : http_request) (n : net) : net :=
  {| requests := requests n ++ [r]; slept := slept n |}.
Definition sleep (d : Z) (n : net) : net :=
  {| requests := requests n; slept := slept n ++ [d] |}.

Section WithSurroundings.
(** [zip_size entries]: the size of the zip file written from [entries],
    as [fp.tell()] reports it.  [http_ok n]: whether the request made
    after [n] earlier ones gets a success status. *)
Variable zip_size : list string -> Z.
Variable http_ok : nat -> bool.

(** The [retry] decorator, here around a call that takes no arguments. *)
Fixpoint retry_from (rounds : nat) (i : Z) (max_retries : Z) (delay backoff_factor : Z)
    (func : ST net unit) : ST net unit :=
  match rounds with
  | O => ret tt
  | S rounds' =>
      fun n =>
        match func n with
        | (Raise (OutputUploadFailed d), n') =>
            if i =? max_retries - 1
            then (Raise (OutputUploadFailed d), n')
            else retry_from rounds' (i + 1) max_retries (delay * backoff_factor)
                   backoff_factor func (sleep delay n')
        | other => other
        end
  end.

Definition retry (max_retries initial_delay backoff_factor : Z)
    (func : ST net unit) : ST net unit :=
  retry_from (Z.to_nat max_retries) 0 max_retries initial_delay backoff_factor func.

(** [client.post] / [client.put] followed by [raise_for_status]; an
    [httpx.HTTPError] becomes OutputUploadFailed. *)
Definition http_call (r : http_request) : ST net unit :=
  fun n =>
    if http_ok (length (requests n))
    then (Return tt, send r n)
    else (Raise (OutputUploadFailed "Uploading output failed with http error"), send r n).

Definition upload_post (fp : list string) (file_name : string) (file_size : Z)
    (url : string) (content_type : string)
    (form_fields headers : option (gmap string string)) : ST net unit :=
  retry 3 1 2
    (http_call
       {| http_method := "POST"; http_url := url; http_file := fp;
          http_data := default ∅ form_fields ∪ {[ "Content-Type" := content_type ]};
          http_headers := default ∅ headers ∪ {[ "Content-Length" := pretty file_size ]};
          http_timeout := OUTPUT_UPLOAD_TIMEOUT_SECONDS |}).

Definition upload_put (fp : list string) (file_size : Z) (url : string)
    (headers : option (gmap string string)) : ST net unit :=
  retry 3 1 2
    (http_call
       {| http_method := "PUT"; http_url := url; http_file := fp;
          http_data := ∅;
          http_headers := default ∅ headers ∪ {[ "Content-Length" := pretty file_size ]};
          http_timeout := OUTPUT_UPLOAD_TIMEOUT_SECONDS |}).

(** [zipped_directory]: [directory] is given by the relative paths of
    [directory.glob("**/*")]; the value yielded is the size and the zip
    file, the latter given by the entries written to it. *)
Definition zipped_directory (directory : list string) (exclude : option (list string))
    (max_size_bytes : Z) : outcome (Z * list string) :=
  let files := directory in
  let exclude_set : gset string :=
    match exclude with
    | Some (x :: l) => list_to_set (x :: l)
    | _ => ∅
    end in
  let filtered_files := filter (fun file => file ∉ exclude_set) files in
  if MAX_NUMBER_OF_FILES <? Z.of_nat (length filtered_files)
  then Raise (OutputUploadFailed "Attempting to upload too many files")
  else
    let file_size := zip_size filtered_files in
    if max_size_bytes <? file_size
    then Raise (OutputUploadFailed "Attempting to upload too large file")
    else Return (file_size, filtered_files).

(** [with zipped_directory(...) as (file_size, fp): body]. *)
Definition with_zipped_directory {S : Type} (directory : list string)
    (exclude : option (list string)) (max_size_bytes : Z)
    (body : Z * list string -> ST S unit) : ST S unit :=
  fun s =>
    match zipped_directory directory exclude max_size_bytes with
    | Return yielded => body yielded s
    | Raise e => (Raise e, s)
    | Running => (Running, s)
    end.

(** [ZipAndHTTPPostOutputUploader.upload]; [max_size_bytes] is the
    attribute the constructor sets to 2147483648. *)
Definition zip_and_post_upload (max_size_bytes : Z) (url : string)
    (form_fields : option (gmap string string)) (directory : list string) : ST net unit :=
  with_zipped_directory directory None max_size_bytes
    (fun '(file_size, fp) =>
       upload_post fp "output.zip" file_size url "application/zip" form_fields None).

(** [ZipAndHTTPPutOutputUploader.upload]. *)
Definition zip_and_put_upload (max_size_bytes : Z) (url : string)
    (directory : list string) : ST net unit :=
  with_zipped_directory directory None max_size_bytes
    (fun '(file_size, fp) => upload_put fp file_size url None).

End WithSurroundings.

(** The paths of [directory] left once [exclude] is taken out. *)
Definition kept (directory : list string) (exclude : option (list string)) : list string :=
  filter (fun file => file ∉ default [] exclude) directory.

End Uploader.

(** ** _uploader.py: MultiUploadOutputUploader *)
Module MultiUploader.
Import Uploader.

Inductive OutputUploadType :=
| single_file_post
| single_file_put
| zip_and_http_post
| zip_and_http_put
| multi_upload.

(** One entry of [MultiUpload.uploads]. *)
Record SingleFileUpload := {
  output_upload_type : OutputUploadType;
  relative_path : string;
  url : string;
  form_fields : option (gmap string string);
  signed_headers : option (gmap string string)
}.

(** [MultiUpload.system_output], by the class of the object. *)
Inductive SystemOutput :=
| ZipAndHttpPostUpload (url : string) (form_fields : option (gmap string string))
| ZipAndHttpPutUpload (url : string)
| OtherUpload (output_upload_type : string).

Record MultiUpload := {
  uploads : list SingleFileUpload;
  system_output : option SystemOutput
}.

Section WithSurroundings.
(** Besides the surroundings of the zip uploaders, what the file system
    says of [directory / relative_path]: [path_exists] is its
    [.exists()], [path_name] its [.name] and [st_size] the size of the
    file.  [pathlib] normalises the joined path, so a relative path
    need not be written as the listing of the directory writes it. *)
Variable zip_size : list string -> Z.
Variable http_ok : nat -> bool.
Variable path_exists : string -> bool.
Variable path_name : string -> string.
Variable st_size : string -> Z.

Definition _single_post_upload_task (upload : SingleFileUpload) : ST net unit :=
  upload_post http_ok [relative_path upload] (path_name (relative_path upload))
    (st_size (relative_path upload)) (url upload) "application/octet-stream"
    (form_fields upload) (signed_headers upload).

Definition _single_put_upload_task (upload : SingleFileUpload) : ST net unit :=
  upload_put http_ok [relative_path upload] (st_size (relative_path upload))
    (url upload) (signed_headers upload).

Definition _output_post_upload_task (directory : list string)
    (single_file_uploads : list string) (max_size_bytes : Z)
    (url : string) (form_fields : option (gmap string string)) : ST net unit :=
  with_zipped_directory zip_size directory (Some single_file_uploads) max_size_bytes
    (fun '(file_size, fp) =>
       upload_post http_ok fp "output.zip" file_size url "application/zip" form_fields None).

Definition _output_put_upload_task (directory : list string)
    (single_file_uploads : list string) (max_size_bytes : Z) (url : string)
    : ST net unit :=
  with_zipped_directory zip_size directory (Some single_file_uploads) max_size_bytes
    (fun '(file_size, fp) => upload_put http_ok fp file_size url None).

(** The task [upload] makes for an entry it accepts. *)
Definition task_of (u : SingleFileUpload) : ST net unit :=
  match output_upload_type u with
  | single_file_post => _single_post_upload_task u
  | _ => _single_put_upload_task u
  end.

(** The [for] loop of [upload]: the tasks made for the single files and
    the relative paths, as written, that are handed to the zip as its
    exclusion list; or the exception that ends the loop. *)
Fixpoint single_file_tasks (l : list SingleFileUpload)
    : outcome (list (ST net unit) * list string) :=
  match l with
  | [] => Return ([], [])
  | upload :: rest =>
      if path_exists (relative_path upload)
      then
        match output_upload_type upload with
        | single_file_post =>
            match single_file_tasks rest with
            | Return (tasks, paths) =>
                Return (_single_post_upload_task upload :: tasks,
                        relative_path upload :: paths)
            | other => other
            end
        | single_file_put =>
            match single_file_tasks rest with
            | Return (tasks, paths) =>
                Return (_single_put_upload_task upload :: tasks,
                        relative_path upload :: paths)
            | other => other
            end
        | _ => Raise (OutputUploadFailed "Unsupported upload type")
        end
      else Raise (OutputUploadFailed ("File not found: " +:+ relative_path upload))
  end.

(** [asyncio.gather] over the tasks, taken in the interleaving in which the
    tasks run one after the other; a task that raises does not stop the
    later ones, and the first exception raised is the one that leaves
    the gather. *)
Fixpoint gather (tasks : list (ST net unit)) : ST net unit :=
  match tasks with
  | [] => ret tt
  | task :: rest =>
      fun n =>
        match task n with
        | (Return _, n') => gather rest n'
        | (failure, n') => (failure, snd (gather rest n'))
        end
  end.

Definition upload (max_size_bytes : Z) (upload_output : MultiUpload)
    (directory : list string) : ST net unit :=
  fun n =>
    match single_file_tasks (uploads upload_output) with
    | Return (tasks, single_file_uploads) =>
        match system_output upload_output with
        | None => gather tasks n
        | Some (ZipAndHttpPostUpload url form_fields) =>
            gather (tasks ++ [_output_post_upload_task directory single_file_uploads
                                max_size_bytes url form_fields]) n
        | Some (ZipAndHttpPutUpload url) =>
            gather (tasks ++ [_output_put_upload_task directory single_file_uploads
                                max_size_bytes url]) n
        | Some (OtherUpload t) =>
            (Raise (OutputUploadFailed
                      ("Unsupported system output upload type: " +:+ t)), n)
        end
    | Raise e => (Raise e, n)
    | Running => (Running, n)
    end.

End WithSurroundings.

(** A list of single-file uploads that [upload] accepts: every file
    exists and is to be posted or put. *)
Definition acceptable (path_exists : string -> bool) (l : list SingleFileUpload) : Prop :=
  Forall (fun u => path_exists (relative_path u) = true
                   /\ (output_upload_type u = single_file_post
                       \/ output_upload_type u = single_file_put)) l.



End MultiUploader.

(** ** allowance/utils/supertensor.py *)
Module Supertensor.

(** *** Chain data *)

(** [turbobt.Neuron], the fields the validator reads; stakes are floats,
    taken here as the rationals they stand for. *)
Record Neuron := {
  uid : nat;
  hotkey : string;
  coldkey : string;
  stake : Q;
  axon_ip : option string
}.

Record ValidatorModel := {
  validator_uid : nat;
  validator_hotkey : string;
  effective_stake : Q
}.

(** [turbobt.subnet.SubnetState] is a dictionary; the key "total_stake"
    may be absent and its entries may be None. *)
Record SubnetState := { total_stake : option (list (option Q)) }.

(** [MetagraphData], from allowance/types. *)
Record MetagraphData := {
  block : Z;
  block_hash : string;
  metagraph_total_stake : list (option Q);
  uids : list nat;
  hotkeys : list string;
  serving_hotkeys : list string
}.

(** An awaited chain call: how long it takes and how it ends. *)
Record coroutine (A : Type) := { duration_ms : Z; completes : outcome A }.
Arguments duration_ms {A} c.
Arguments completes {A} c.

Inductive chain_request :=
| ReqNeurons (archive : bool) (block_number : Z)
| ReqBlockTimestamp (archive : bool) (block_number : Z)
| ReqBlockHash (archive : bool) (block_number : Z)
| ReqSubnetState (archive : bool) (block_number : Z)
| ReqShieldedNeurons
| ReqCurrentBlock.

(** The chain as the oracle meets it.  The first argument of each field is
    the number of requests made before this one. *)
Record Chain := {
  archive_network : bool;
  chain_neurons : nat -> bool -> Z -> coroutine (list Neuron);
  chain_block_timestamp : nat -> bool -> Z -> coroutine Z;
  chain_block_hash : nat -> bool -> Z -> coroutine string;
  chain_subnet_state : nat -> bool -> Z -> coroutine SubnetState;
  chain_shielded_neurons : nat -> coroutine (list Neuron);
  chain_head : nat -> outcome Z
}.

(** *** Objects *)

Inductive TaskType :=
| NEURONS | BLOCK_TIMESTAMP | BLOCK_HASH | SUBNET_STATE | VALIDATORS | THE_END.

Record InMemoryCache := {
  _neuron_cache : gmap Z (list Neuron);
  _block_timestamp_cache : gmap Z Z;
  _block_hash_cache : gmap Z string;
  _subnet_state_cache : gmap Z SubnetState;
  _validators_cache : gmap Z (list ValidatorModel)
}.

Definition empty_cache : InMemoryCache :=
  {| _neuron_cache := ∅; _block_timestamp_cache := ∅; _block_hash_cache := ∅;
     _subnet_state_cache := ∅; _validators_cache := ∅ |}.

(** The attributes of a (Precaching)SuperTensor, the wall clock and the
    record of what was asked of the chain. *)
Record state := {
  clock_ms : Z;
  slept_ms : list Z;
  chain_log : list chain_request;
  _neuron_list_cache : list (Z * list Neuron);
  cache : InMemoryCache;
  throw_on_cache_miss : bool;
  highest_block_requested : option Z;
  highest_block_submitted : option Z;
  task_queue : list (TaskType * Z);
  closing : bool
}.

Definition M (A : Type) : Type := ST state A.

Definition initial_state (throw : bool) : state :=
  {| clock_ms := 0; slept_ms := []; chain_log := []; _neuron_list_cache := [];
     cache := empty_cache; throw_on_cache_miss := throw;
     highest_block_requested := None; highest_block_submitted := None;
     task_queue := []; closing := false |}.

Definition advance (d : Z) (s : state) : state :=
  {| clock_ms := clock_ms s + d; slept_ms := slept_ms s; chain_log := chain_log s;
     _neuron_list_cache := _neuron_list_cache s; cache := cache s;
     throw_on_cache_miss := throw_on_cache_miss s;
     highest_block_requested := highest_block_requested s;
     highest_block_submitted := highest_block_submitted s;
     task_queue := task_queue s; closing := closing s |}.

Definition time_sleep (d : Z) (s : state) : state :=
  {| clock_ms := clock_ms s + d; slept_ms := slept_ms s ++ [d]; chain_log := chain_log s;
     _neuron_list_cache := _neuron_list_cache s; cache := cache s;
     throw_on_cache_miss := throw_on_cache_miss s;
     highest_block_requested := highest_block_requested s;
     highest_block_submitted := highest_block_submitted s;
     task_queue := task_queue s; closing := closing s |}.

Definition log_request (r : chain_request) (s : state) : state :=
  {| clock_ms := clock_ms s; slept_ms := slept_ms s; chain_log := chain_log s ++ [r];
     _neuron_list_cache := _neuron_list_cache s; cache := cache s;
     throw_on_cache_miss := throw_on_cache_miss s;
     highest_block_requested := highest_block_requested s;
     highest_block_submitted := highest_block_submitted s;
     task_queue := task_queue s; closing := closing s |}.

Definition set_neuron_list_cache (c : list (Z * list Neuron)) (s : state) : state :=
  {| clock_ms := clock_ms s; slept_ms := slept_ms s; chain_log := chain_log s;
     _neuron_list_cache := c; cache := cache s;
     throw_on_cache_miss := throw_on_cache_miss s;
     highest_block_requested := highest_block_requested s;
     highest_block_submitted := highest_block_submitted s;
     task_queue := task_queue s; closing := closing s |}.

Definition set_cache (c : InMemoryCache) (s : state) : state :=
  {| clock_ms := clock_ms s; slept_ms := slept_ms s; chain_log := chain_log s;
     _neuron_list_cache := _neuron_list_cache s; cache := c;
     throw_on_cache_miss := throw_on_cache_miss s;
     highest_block_requested := highest_block_requested s;
     highest_block_submitted := highest_block_submitted s;
     task_queue := task_queue s; closing := closing s |}.

Definition set_highest (requested submitted : option Z) (s : state) : state :=
  {| clock_ms := clock_ms s; slept_ms := slept_ms s; chain_log := chain_log s;
     _neuron_list_cache := _neuron_list_cache s; cache := cache s;
     throw_on_cache_miss := throw_on_cache_miss s;
     highest_block_requested := requested;
     highest_block_submitted := submitted;
     task_queue := task_queue s; closing := closing s |}.

Definition put_tasks (tasks : list (TaskType * Z)) (s : state) : state :=
  {| clock_ms := clock_ms s; slept_ms := slept_ms s; chain_log := chain_log s;
     _neuron_list_cache := _neuron_list_cache s; cache := cache s;
     throw_on_cache_miss := throw_on_cache_miss s;
     highest_block_requested := highest_block_requested s;
     highest_block_submitted := highest_block_submitted s;
     task_queue := task_queue s ++ tasks; closing := closing s |}.

(** *** Timeout and retry *)

(** [DEFAULT_TIMEOUT = 30.0] seconds. *)
Definition DEFAULT_TIMEOUT_MS : Z := 30000.

(** [make_sync]: run the coroutine under [asyncio.wait_for] with the
    default timeout; a TimeoutError, from the wait or from within, leaves
    as SuperTensorTimeout.  [request] names the call in the log and
    [call n] is what the chain does when [n] requests came before. *)
Definition make_sync {A} (request : chain_request) (call : nat -> coroutine A) : M A :=
  fun s =>
    let c := call (length (chain_log s)) in
    let s1 := log_request request s in
    if DEFAULT_TIMEOUT_MS <? duration_ms c
    then (Raise SuperTensorTimeout, advance DEFAULT_TIMEOUT_MS s1)
    else
      let s2 := advance (Z.max 0 (duration_ms c)) s1 in
      match completes c with
      | Raise TimeoutError => (Raise SuperTensorTimeout, s2)
      | Raise SuperTensorTimeout => (Raise SuperTensorTimeout, s2)
      | r => (r, s2)
      end.

(** [archive_fallback]: the call goes to the lite node; on UnknownBlock it
    is made again on the archive node, if one is configured. *)
Definition archive_fallback {A} (chain : Chain) (func : bool -> M A) : M A :=
  fun s =>
    match func false s with
    | (Raise UnknownBlock, s') =>
        if archive_network chain
        then func true s'
        else (Raise ArchiveSubtensorNotConfigured, s')
    | other => other
    end.

(** The pieces of the tenacity policy, times in milliseconds. *)
Definition retry_if_exception_type_SuperTensorTimeout (e : exception) : bool :=
  match e with
  | SuperTensorTimeout => true
  | _ => false
  end.
Definition stop_after_attempt (max_attempt_number attempt_number : Z) : bool :=
  max_attempt_number <=? attempt_number.
Definition wait_exponential (multiplier min_wait max_wait attempt_number : Z) : Z :=
  Z.max (Z.max 0 min_wait) (Z.min (multiplier * 2 ^ (attempt_number - 1)) max_wait).

(** What tenacity keeps count of during one decorated call. *)
Record retry_statistics := { attempt_number : Z; idle_for : list Z }.

(** The loop of a call decorated with [RETRY_ON_TIMEOUT]: retry only
    SuperTensorTimeout, stop after attempt 3 and re-raise, wait
    [wait_exponential(multiplier=0.1, min=0.1, max=0.8)] in between. *)
Fixpoint retrying {A} (fuel : nat) (attempt : Z) (waits : list Z) (f : M A) (s : state)
    : outcome A * state * retry_statistics :=
  match fuel with
  | O => (Running, s, {| attempt_number := attempt; idle_for := waits |})
  | S fuel' =>
      match f s with
      | (Raise e, s') =>
          if retry_if_exception_type_SuperTensorTimeout e
          then
            if stop_after_attempt 3 attempt
            then (Raise e, s', {| attempt_number := attempt; idle_for := waits |})
            else
              let w := wait_exponential 100 100 800 attempt in
              retrying fuel' (attempt + 1) (waits ++ [w]) f (time_sleep w s')
          else (Raise e, s', {| attempt_number := attempt; idle_for := waits |})
      | (r, s') => (r, s', {| attempt_number := attempt; idle_for := waits |})
      end
  end.

Definition RETRY_ON_TIMEOUT_statistics {A} (f : M A) (s : state)
    : outcome A * state * retry_statistics :=
  retrying 3 1 [] f s.

Definition RETRY_ON_TIMEOUT {A} (f : M A) : M A :=
  fun s => fst (RETRY_ON_TIMEOUT_statistics f s).

Definition LITE_BLOCK_LOOKBACK : Z := 200.
Definition N_THREADS : Z := 10.
Definition CACHE_AHEAD : Z := 10.

(** Subscription [l[i]] of a Python list by a non-negative index. *)
Definition py_getitem {A} (l : list A) (i : nat) : outcome A :=
  match l !! i with
  | Some x => Return x
  | None => Raise IndexError
  end.

(** A list comprehension whose element expression may raise. *)
Fixpoint comprehension {A B} (f : A -> outcome B) (l : list A) : outcome (list B) :=
  match l with
  | [] => Return []
  | x :: rest =>
      match f x with
      | Return y =>
          match comprehension f rest with
          | Return ys => Return (y :: ys)
          | Raise e => Raise e
          | Running => Running
          end
      | Raise e => Raise e
      | Running => Running
      end
  end.

(** *** class SuperTensor *)
Module SuperTensor.
Section WithChain.
Variable chain : Chain.

Definition _real_list_neurons (block_number : Z) : M (list Neuron) :=
  archive_fallback chain
    (fun archive => make_sync (ReqNeurons archive block_number)
                      (fun n => chain_neurons chain n archive block_number)).

(** The deque of the last 15 neuron lists; [dict(deque)] keeps the
    last pair of a block, and an empty list counts as no hit. *)
Definition deque_get (block_number : Z) (d : list (Z * list Neuron)) : option (list Neuron) :=
  snd <$> last (List.filter (fun p => fst p =? block_number) d).
Definition deque_append (x : Z * list Neuron) (d : list (Z * list Neuron))
    : list (Z * list Neuron) :=
  let d' := d ++ [x] in
  if (15 <? length d')%nat then tail d' else d'.

Definition _list_neurons (block_number : Z) : M (list Neuron) :=
  fun s =>
    match deque_get block_number (_neuron_list_cache s) with
    | Some (n :: hit) => (Return (n :: hit), s)
    | _ =>
        (result <- _real_list_neurons block_number ;;
         fun s' =>
           (Return result,
            set_neuron_list_cache
              (deque_append (block_number, result) (_neuron_list_cache s')) s')) s
    end.

Definition list_neurons (block_number : Z) : M (list Neuron) :=
  RETRY_ON_TIMEOUT (_list_neurons block_number).

Definition _get_block_timestamp (block_num : Z) : M Z :=
  archive_fallback chain
    (fun archive => make_sync (ReqBlockTimestamp archive block_num)
                      (fun n => chain_block_timestamp chain n archive block_num)).

Definition get_block_timestamp (block_number : Z) : M Z :=
  RETRY_ON_TIMEOUT (_get_block_timestamp block_number).

Definition _get_subnet_state (block_number : Z) : M SubnetState :=
  archive_fallback chain
    (fun archive => make_sync (ReqSubnetState archive block_number)
                      (fun n => chain_subnet_state chain n archive block_number)).

Definition get_subnet_state (block_number : Z) : M SubnetState :=
  RETRY_ON_TIMEOUT (_get_subnet_state block_number).

Definition _get_block_hash (block_number : Z) : M string :=
  archive_fallback chain
    (fun archive => make_sync (ReqBlockHash archive block_number)
                      (fun n => chain_block_hash chain n archive block_number)).

Definition get_block_hash (block_number : Z) : M string :=
  RETRY_ON_TIMEOUT (_get_block_hash block_number).


(** [get_current_block]: five blocks behind the head the block cache
    reports. *)
Definition get_current_block : M Z :=
  fun s =>
    let s' := log_request ReqCurrentBlock s in
    match chain_head chain (length (chain_log s)) with
    | Return current_block => (Return (current_block - 5), s')
    | Raise ConcurrencyError => (Raise CannotGetCurrentBlock, s')
    | other => (other, s')
    end.

(** The stake the subnet state holds for a neuron, as the list
    comprehension of [list_validators] computes it. *)
Definition effective_stake_of (total_stake : list (option Q)) (n : Neuron)
    : outcome Q :=
  if (uid n <? length total_stake)%nat
  then
    match py_getitem total_stake (uid n) with
    | Return None => Return 0%Q
    | Return (Some _) =>
        match py_getitem total_stake (uid n) with
        | Return (Some x) => Return x
        | Return None => Raise TypeError
        | Raise e => Raise e
        | Running => Running
        end
    | Raise e => Raise e
    | Running => Running
    end
  else Return 0%Q.

(** [list_validators] and the two methods below call their reads on
    [self]; a subclass that overrides a read is called back here. *)
Definition list_validators_on
    (self_list_neurons : Z -> M (list Neuron))
    (self_get_subnet_state : Z -> M SubnetState)
    (block_number : Z) : M (list ValidatorModel) :=
  neurons <- self_list_neurons block_number ;;
  subnet_state <- self_get_subnet_state block_number ;;
  let validators := List.filter (fun n => Qle_bool 1000 (stake n)) neurons in
  let total_stake := default [] (total_stake subnet_state) in
  fun s =>
    (comprehension
       (fun n =>
          match effective_stake_of total_stake n with
          | Return e =>
              Return {| validator_uid := uid n; validator_hotkey := hotkey n;
                        effective_stake := e |}
          | Raise e => Raise e
          | Running => Running
          end)
       validators, s).

Definition list_validators : Z -> M (list ValidatorModel) :=
  list_validators_on list_neurons get_subnet_state.

Definition serving (n : Neuron) : bool :=
  match axon_ip n with
  | Some ip => negb (String.eqb ip "0.0.0.0")
  | None => false
  end.

Definition _build_metagraph_data_on
    (self_get_block_hash : Z -> M string)
    (self_list_neurons : Z -> M (list Neuron))
    (self_get_subnet_state : Z -> M SubnetState)
    (block_number : Z) : M MetagraphData :=
  block_hash <- self_get_block_hash block_number ;;
  turbobt_neurons <- self_list_neurons block_number ;;
  subnet_state <- self_get_subnet_state block_number ;;
  ret {| block := block_number;
         block_hash := block_hash;
         metagraph_total_stake := default [] (total_stake subnet_state);
         uids := uid <$> turbobt_neurons;
         hotkeys := hotkey <$> turbobt_neurons;
         serving_hotkeys := hotkey <$> List.filter serving turbobt_neurons |}.

Definition get_metagraph_on
    (self_get_block_hash : Z -> M string)
    (self_list_neurons : Z -> M (list Neuron))
    (self_get_subnet_state : Z -> M SubnetState)
    (block_number : option Z) : M MetagraphData :=
  RETRY_ON_TIMEOUT
    (block_number <- match block_number with
                     | None => get_current_block
                     | Some b => ret b
                     end ;;
     _build_metagraph_data_on self_get_block_hash self_list_neurons
       self_get_subnet_state block_number).

Definition get_metagraph : option Z -> M MetagraphData :=
  get_metagraph_on get_block_hash list_neurons get_subnet_state.

End WithChain.
End SuperTensor.

(** *** class InMemoryCache *)
Module Cache.
Definition put_neurons (block_number : Z) (neurons : list Neuron) (c : InMemoryCache) :=
  {| _neuron_cache := <[block_number := neurons]> (_neuron_cache c);
     _block_timestamp_cache := _block_timestamp_cache c;
     _block_hash_cache := _block_hash_cache c;
     _subnet_state_cache := _subnet_state_cache c;
     _validators_cache := _validators_cache c |}.
Definition put_block_timestamp (block_number : Z) (timestamp : Z) (c : InMemoryCache) :=
  {| _neuron_cache := _neuron_cache c;
     _block_timestamp_cache := <[block_number := timestamp]> (_block_timestamp_cache c);
     _block_hash_cache := _block_hash_cache c;
     _subnet_state_cache := _subnet_state_cache c;
     _validators_cache := _validators_cache c |}.
Definition put_block_hash (block_number : Z) (block_hash : string) (c : InMemoryCache) :=
  {| _neuron_cache := _neuron_cache c;
     _block_timestamp_cache := _block_timestamp_cache c;
     _block_hash_cache := <[block_number := block_hash]> (_block_hash_cache c);
     _subnet_state_cache := _subnet_state_cache c;
     _validators_cache := _validators_cache c |}.
Definition put_subnet_state (block_number : Z) (st : SubnetState) (c : InMemoryCache) :=
  {| _neuron_cache := _neuron_cache c;
     _block_timestamp_cache := _block_timestamp_cache c;
     _block_hash_cache := _block_hash_cache c;
     _subnet_state_cache := <[block_number := st]> (_subnet_state_cache c);
     _validators_cache := _validators_cache c |}.
Definition put_validators (block_number : Z) (validators : list ValidatorModel)
    (c : InMemoryCache) :=
  {| _neuron_cache := _neuron_cache c;
     _block_timestamp_cache := _block_timestamp_cache c;
     _block_hash_cache := _block_hash_cache c;
     _subnet_state_cache := _subnet_state_cache c;
     _validators_cache := <[block_number := validators]> (_validators_cache c) |}.
Definition get_neurons (block_number : Z) (c : InMemoryCache) :=
  _neuron_cache c !! block_number.
Definition get_block_timestamp (block_number : Z) (c : InMemoryCache) :=
  _block_timestamp_cache c !! block_number.
Definition get_block_hash (block_number : Z) (c : InMemoryCache) :=
  _block_hash_cache c !! block_number.
Definition get_subnet_state (block_number : Z) (c : InMemoryCache) :=
  _subnet_state_cache c !! block_number.
Definition get_validators (block_number : Z) (c : InMemoryCache) :=
  _validators_cache c !! block_number.
End Cache.

(** *** class PrecachingSuperTensor *)
Module PrecachingSuperTensor.
Section WithChain.
Variable chain : Chain.

Definition set_starting_block (block_number : Z) : M unit :=
  fun s =>
    let requested := Z.max (default 0 (highest_block_requested s)) block_number in
    let submitted :=
      match highest_block_submitted s with
      | None => Some (block_number - 1)
      | Some h => Some h
      end in
    (Return tt, set_highest (Some requested) submitted s).

Definition cache_put (f : InMemoryCache -> InMemoryCache) : M unit :=
  fun s => (Return tt, set_cache (f (cache s)) s).

Definition cache_miss (text : string) (block_number : Z) : exception :=
  PrecachingSuperTensorCacheMiss ("Cache miss for block " +:+ pretty block_number +:+ text).

Definition _list_neurons (block_number : Z) : M (list Neuron) :=
  set_starting_block block_number ;;;
  fun s =>
    match Cache.get_neurons block_number (cache s) with
    | Some neurons => (Return neurons, s)
    | None =>
        if throw_on_cache_miss s
        then (Raise (cache_miss EmptyString block_number), s)
        else
          (neurons <- SuperTensor._list_neurons chain block_number ;;
           cache_put (Cache.put_neurons block_number neurons) ;;;
           ret neurons) s
    end.

(** [list_neurons] is inherited; its [self._list_neurons] is the
    method above. *)
Definition list_neurons (block_number : Z) : M (list Neuron) :=
  RETRY_ON_TIMEOUT (_list_neurons block_number).

Definition get_block_timestamp (block_number : Z) : M Z :=
  RETRY_ON_TIMEOUT
    (set_starting_block block_number ;;;
     fun s =>
       match Cache.get_block_timestamp block_number (cache s) with
       | Some timestamp => (Return timestamp, s)
       | None =>
           if throw_on_cache_miss s
           then (Raise (cache_miss EmptyString block_number), s)
           else SuperTensor._get_block_timestamp chain block_number s
       end).

Definition get_block_hash (block_number : Z) : M string :=
  RETRY_ON_TIMEOUT
    (set_starting_block block_number ;;;
     fun s =>
       match Cache.get_block_hash block_number (cache s) with
       | Some block_hash => (Return block_hash, s)
       | None =>
           if throw_on_cache_miss s
           then (Raise (cache_miss EmptyString block_number), s)
           else
             (block_hash <- SuperTensor.get_block_hash chain block_number ;;
              cache_put (Cache.put_block_hash block_number block_hash) ;;;
              ret block_hash) s
       end).

Definition get_subnet_state (block_number : Z) : M SubnetState :=
  RETRY_ON_TIMEOUT
    (set_starting_block block_number ;;;
     fun s =>
       match Cache.get_subnet_state block_number (cache s) with
       | Some st => (Return st, s)
       | None =>
           if throw_on_cache_miss s
           then (Raise (cache_miss " (subnet state)" block_number), s)
           else
             (st <- SuperTensor._get_subnet_state chain block_number ;;
              cache_put (Cache.put_subnet_state block_number st) ;;;
              ret st) s
       end).

Definition list_validators (block_number : Z) : M (list ValidatorModel) :=
  set_starting_block block_number ;;;
  fun s =>
    match Cache.get_validators block_number (cache s) with
    | Some validators => (Return validators, s)
    | None =>
        if throw_on_cache_miss s
        then (Raise (cache_miss EmptyString block_number), s)
        else
          (validators <- SuperTensor.list_validators_on list_neurons get_subnet_state
                           block_number ;;
           cache_put (Cache.put_validators block_number validators) ;;;
           ret validators) s
    end.

Definition get_metagraph : option Z -> M MetagraphData :=
  SuperTensor.get_metagraph_on chain get_block_hash list_neurons get_subnet_state.

(** What one pass through the [while True] of [produce_thread] did. *)
Inductive produced :=
| Quit
| Slept (ms : Z)
| Submitted (block_to_submit : Z).

Definition tasks_for (block_to_submit : Z) : list (TaskType * Z) :=
  [(NEURONS, block_to_submit); (BLOCK_TIMESTAMP, block_to_submit);
   (BLOCK_HASH, block_to_submit); (SUBNET_STATE, block_to_submit);
   (VALIDATORS, block_to_submit)].

Definition produce_iteration : state -> produced * state :=
  fun s =>
    if closing s then (Quit, s)
    else
      match SuperTensor.get_current_block chain s with
      | (Return current_block, s1) =>
          match highest_block_requested s1, highest_block_submitted s1 with
          | Some requested, Some submitted =>
              if CACHE_AHEAD <=? submitted - requested
              then (Slept 100, time_sleep 100 s1)
              else if current_block <=? submitted
              then (Slept 100, time_sleep 100 s1)
              else
                let block_to_submit := submitted + 1 in
                (Submitted block_to_submit,
                 set_highest (highest_block_requested s1) (Some block_to_submit)
                   (put_tasks (tasks_for block_to_submit) s1))
          | _, _ => (Slept 100, time_sleep 100 s1)
          end
      | (_, s1) => (Slept 1000, time_sleep 1000 s1)
      end.

(** The producer thread among the consumer's reads: a run is a sequence
    of passes of the producer and of calls that set the starting
    block. *)
Inductive step :=
| Produce
| Request (block_number : Z).

Definition run_step (st : step) (s : state) : state :=
  match st with
  | Produce => snd (produce_iteration s)
  | Request b => snd (set_starting_block b s)
  end.

Definition run (steps : list step) (s : state) : state :=
  fold_left (fun s st => run_step st s) steps s.

End WithChain.
End PrecachingSuperTensor.

(** *** Reading the results *)

(** The entry of [total_stake] at an index, 0.0 when the index is outside
    the list or the entry is None. *)
Definition stake_at (total_stake : list (option Q)) (i : nat) : Q :=
  match total_stake !! i with
  | Some (Some x) => x
  | _ => 0%Q
  end.

Definition validator_of (total_stake : list (option Q)) (n : Neuron) : ValidatorModel :=
  {| validator_uid := uid n; validator_hotkey := hotkey n;
     effective_stake := stake_at total_stake (uid n) |}.

End Supertensor.

(** *** Reading the state of the prefetch cache *)
Module SupertensorReading.
Import Supertensor.

(** The producer is at most [CACHE_AHEAD] blocks ahead of the highest
    block requested, and so is every task in the queue; before the first
    request nothing is set and nothing is queued. *)
Definition within_cache_ahead (s : state) : Prop :=
  match highest_block_requested s, highest_block_submitted s with
  | None, None => task_queue s = []
  | Some requested, Some submitted =>
      submitted - requested <= CACHE_AHEAD
      /\ Forall (fun task => snd task <= requested + CACHE_AHEAD) (task_queue s)
  | _, _ => False
  end.

(** The five reads of a block that go through the prefetch cache, each
    with its result forgotten. *)
Inductive read_kind := ReadNeurons | ReadTimestamp | ReadHash | ReadSubnetState | ReadValidators.

Definition read (chain : Chain) (kind : read_kind) (block_number : Z) : M unit :=
  match kind with
  | ReadNeurons => _ <- PrecachingSuperTensor.list_neurons chain block_number ;; ret tt
  | ReadTimestamp => _ <- PrecachingSuperTensor.get_block_timestamp chain block_number ;; ret tt
  | ReadHash => _ <- PrecachingSuperTensor.get_block_hash chain block_number ;; ret tt
  | ReadSubnetState => _ <- PrecachingSuperTensor.get_subnet_state chain block_number ;; ret tt
  | ReadValidators => _ <- PrecachingSuperTensor.list_validators chain block_number ;; ret tt
  end.

Definition cached (kind : read_kind) (block_number : Z) (c : InMemoryCache) : bool :=
  match kind with
  | ReadNeurons => bool_decide (is_Some (Cache.get_neurons block_number c))
  | ReadTimestamp => bool_decide (is_Some (Cache.get_block_timestamp block_number c))
  | ReadHash => bool_decide (is_Some (Cache.get_block_hash block_number c))
  | ReadSubnetState => bool_decide (is_Some (Cache.get_subnet_state block_number c))
  | ReadValidators => bool_decide (is_Some (Cache.get_validators block_number c))
  end.

(** What one attempt of a read adds to the record of chain requests: the
    request to the lite node, followed by the same request to the archive
    node when there is one. *)
Definition attempt_log (archive_configured : bool) (req : bool -> chain_request)
    (added : list chain_request) : Prop :=
  added = [req false] \/ (archive_configured = true /\ added = [req false; req true]).

(** The state three attempts of [f] leave when each one raises
    SuperTensorTimeout: tenacity waits 0.1 s and then 0.2 s in between. *)
Definition after_three_attempts {A} (f : M A) (s : state) : state :=
  snd (f (time_sleep 200 (snd (f (time_sleep 100 (snd (f s))))))).

(** A chain call that takes longer than the timeout, as [make_sync]
    leaves it. *)
Definition timed_out (request : chain_request) (s : state) : state :=
  advance DEFAULT_TIMEOUT_MS (log_request request s).

(** Successive calls of [SuperTensor.list_neurons], whatever they return. *)
Definition list_neurons_each (chain : Chain) (blocks : list Z) (s : state) : state :=
  fold_left (fun s b => snd (SuperTensor.list_neurons chain b s)) blocks s.

(** Every value of the first cache is in the second, unchanged. *)
Definition cache_extends (c c' : InMemoryCache) : Prop :=
  _neuron_cache c ⊆ _neuron_cache c'
  /\ _block_timestamp_cache c ⊆ _block_timestamp_cache c'
  /\ _block_hash_cache c ⊆ _block_hash_cache c'
  /\ _subnet_state_cache c ⊆ _subnet_state_cache c'
  /\ _validators_cache c ⊆ _validators_cache c'.

(** The second state has every cached value of the first, and the same
    cached validators. *)
Definition cache_grows (s s' : state) : Prop :=
  cache_extends (cache s) (cache s')
  /\ _validators_cache (cache s') = _validators_cache (cache s).

(** *** PrecachingSuperTensor.worker *)

Definition set_task_queue (q : list (TaskType * Z)) (s : state) : state :=
  {| clock_ms := clock_ms s; slept_ms := slept_ms s; chain_log := chain_log s;
     _neuron_list_cache := _neuron_list_cache s; cache := cache s;
     throw_on_cache_miss := throw_on_cache_miss s;
     highest_block_requested := highest_block_requested s;
     highest_block_submitted := highest_block_submitted s;
     task_queue := q; closing := closing s |}.

Definition set_closing (b : bool) (s : state) : state :=
  {| clock_ms := clock_ms s; slept_ms := slept_ms s; chain_log := chain_log s;
     _neuron_list_cache := _neuron_list_cache s; cache := cache s;
     throw_on_cache_miss := throw_on_cache_miss s;
     highest_block_requested := highest_block_requested s;
     highest_block_submitted := highest_block_submitted s;
     task_queue := task_queue s; closing := b |}.

(** [PrecachingSuperTensor.close], up to the closing of the connections:
    the flag is raised and, with workers enabled, one THE_END task per
    worker thread is queued. *)
Definition close (enable_workers : bool) : M unit :=
  fun s =>
    let s1 := set_closing true s in
    (Return tt,
     if enable_workers
     then put_tasks (repeat (THE_END, 0) (Z.to_nat N_THREADS)) s1
     else s1).

(** A worker reads the chain through a SuperTensor of its own, which has
    its own deque of neuron lists: the call runs with that deque in place
    and the deque of the PrecachingSuperTensor is put back afterwards. *)
Definition on_super_tensor {A} (deque : list (Z * list Neuron)) (m : M A)
    : state -> outcome A * list (Z * list Neuron) * state :=
  fun s =>
    let own := _neuron_list_cache s in
    let '(r, s') := m (set_neuron_list_cache deque s) in
    (r, _neuron_list_cache s', set_neuron_list_cache own s').

(** What one pass through the inner [while True] of [worker] did. *)
Inductive worked :=
| WorkerQuit
| WorkerWaits
| Skipped (task : TaskType) (block_number : Z)
| Finished (task : TaskType) (block_number : Z)
| Failed (task : TaskType) (block_number : Z) (e : exception).

Section Worker.
Variable chain : Chain.

(** [self.cache.put_x(block_number, super_tensor.x(block_number))] and
    the handlers around the inner loop: ArchiveSubtensorNotConfigured
    is passed over, any other exception is logged and followed by one
    second of sleep; in both cases the SuperTensor is closed and the
    outer loop builds a new one.  A read that is still running leaves the
    worker waiting. *)
Definition fetch_and_put {A} (task : TaskType) (block_number : Z)
    (deque : list (Z * list Neuron)) (fetch : M A)
    (put : A -> InMemoryCache -> InMemoryCache)
    : state -> worked * list (Z * list Neuron) * state :=
  fun s =>
    match on_super_tensor deque fetch s with
    | (Return v, deque', s') =>
        (Finished task block_number, deque', set_cache (put v (cache s')) s')
    | (Raise ArchiveSubtensorNotConfigured, _, s') =>
        (Failed task block_number ArchiveSubtensorNotConfigured, [], s')
    | (Raise e, _, s') => (Failed task block_number e, [], time_sleep 1000 s')
    | (Running, deque', s') => (WorkerWaits, deque', s')
    end.

Definition worker_iteration (deque : list (Z * list Neuron))
    : state -> worked * list (Z * list Neuron) * state :=
  fun s =>
    if closing s then (WorkerQuit, deque, s)
    else
      match task_queue s with
      | [] => (WorkerWaits, deque, s)
      | (task, block_number) :: rest =>
          let s1 := set_task_queue rest s in
          match task with
          | THE_END => (WorkerQuit, deque, s1)
          | NEURONS =>
              match Cache.get_neurons block_number (cache s1) with
              | Some _ => (Skipped task block_number, deque, s1)
              | None =>
                  fetch_and_put task block_number deque
                    (SuperTensor.list_neurons chain block_number)
                    (Cache.put_neurons block_number) s1
              end
          | BLOCK_TIMESTAMP =>
              match Cache.get_block_timestamp block_number (cache s1) with
              | Some _ => (Skipped task block_number, deque, s1)
              | None =>
                  fetch_and_put task block_number deque
                    (SuperTensor.get_block_timestamp chain block_number)
                    (Cache.put_block_timestamp block_number) s1
              end
          | BLOCK_HASH =>
              match Cache.get_block_hash block_number (cache s1) with
              | Some _ => (Skipped task block_number, deque, s1)
              | None =>
                  fetch_and_put task block_number deque
                    (SuperTensor.get_block_hash chain block_number)
                    (Cache.put_block_hash block_number) s1
              end
          | SUBNET_STATE =>
              match Cache.get_subnet_state block_number (cache s1) with
              | Some _ => (Skipped task block_number, deque, s1)
              | None =>
                  fetch_and_put task block_number deque
                    (SuperTensor.get_subnet_state chain block_number)
                    (Cache.put_subnet_state block_number) s1
              end
          | VALIDATORS =>
              match Cache.get_validators block_number (cache s1) with
              | Some _ => (Skipped task block_number, deque, s1)
              | None =>
                  fetch_and_put task block_number deque
                    (SuperTensor.list_validators chain block_number)
                    (Cache.put_validators block_number) s1
              end
          end
      end.

(** The threads of a PrecachingSuperTensor with workers, one pass or one
    call at a time: the producer, the workers (each with the deque of
    its SuperTensor) and the consumer that reads through the cache. *)
Record pool := {
  shared : state;
  super_tensors : gmap nat (list (Z * list Neuron))
}.

Inductive turn :=
| ProducerTurn
| WorkerTurn (ind : nat)
| ConsumerTurn (kind : read_kind) (block_number : Z).

Definition take_turn (t : turn) (p : pool) : option worked * pool :=
  match t with
  | ProducerTurn =>
      (None, {| shared := snd (PrecachingSuperTensor.produce_iteration chain (shared p));
                super_tensors := super_tensors p |})
  | WorkerTurn ind =>
      let '(w, deque, s) :=
        worker_iteration (default [] (super_tensors p !! ind)) (shared p) in
      (Some w, {| shared := s; super_tensors := <[ind := deque]> (super_tensors p) |})
  | ConsumerTurn kind block_number =>
      (None, {| shared := snd (read chain kind block_number (shared p));
                super_tensors := super_tensors p |})
  end.

Fixpoint take_turns (turns : list turn) (p : pool) : list worked * pool :=
  match turns with
  | [] => ([], p)
  | t :: rest =>
      let '(w, p1) := take_turn t p in
      let '(ws, p2) := take_turns rest p1 in
      (match w with Some w => w :: ws | None => ws end, p2)
  end.

End Worker.

Definition is_consumer_turn (t : turn) : bool :=
  match t with
  | ConsumerTurn _ _ => true
  | _ => false
  end.

(** The read that a task prefetches. *)
Definition read_of (task : TaskType) : option read_kind :=
  match task with
  | NEURONS => Some ReadNeurons
  | BLOCK_TIMESTAMP => Some ReadTimestamp
  | BLOCK_HASH => Some ReadHash
  | SUBNET_STATE => Some ReadSubnetState
  | VALIDATORS => Some ReadValidators
  | THE_END => None
  end.

End SupertensorReading.

(** ** validator/job_excuses *)
Module JobExcuses.

(** A JobStarted receipt as a miner attaches it to a decline. *)
Record Receipt := {
  receipt_job_uuid : string;
  receipt_miner_hotkey : string;
  receipt_validator_hotkey : string;
  receipt_timestamp : Z;
  receipt_executor_class : string;
  receipt_is_organic : bool
}.

(** What the excuse policy reads from the validator's stores: the stake of
    each validator hotkey in the latest metagraph and the online executor
    count each miner declared per executor class. *)
Record stores := {
  validator_stake : string -> Q;
  online_executor_count : string -> string -> Z
}.

(** Modelled from the spec: [filter_valid_excuse_receipts] of
    validator/job_excuses is not among the sources embedded here.  Section 4.4
    keeps the receipts issued by validators with stake at or above the
    configured floor, with a timestamp at or before the check time, of
    the same executor class, non-synthetic and of the same miner. *)
Definition filter_valid_excuse_receipts (db : stores)
    (receipts_to_check : list Receipt) (check_time : Z) (declined_job_uuid : string)
    (declined_job_executor_class : string) (declined_job_is_synthetic : bool)
    (minimum_validator_stake_for_excuse : Q) (miner_hotkey : string) : list Receipt :=
  List.filter
    (fun r =>
       Qle_bool minimum_validator_stake_for_excuse
         (validator_stake db (receipt_validator_hotkey r))
       && (receipt_timestamp r <=? check_time)
       && String.eqb (receipt_executor_class r) declined_job_executor_class
       && receipt_is_organic r
       && String.eqb (receipt_miner_hotkey r) miner_hotkey)
    receipts_to_check.

(** Modelled from the spec: [get_expected_miner_executor_count] of
    validator/job_excuses is not among the sources embedded here.  Section 4.4
    compares the excuses with the online count the miner declared for the
    class. *)
Definition get_expected_miner_executor_count (db : stores) (check_time : Z)
    (miner_hotkey : string) (executor_class : string) : Z :=
  online_executor_count db miner_hotkey executor_class.

End JobExcuses.

(** ** organic_jobs/miner_driver.py *)
Module MinerDriver.
Import JobExcuses.

(** Modelled from the spec: [FailureReason] is declared in
    compute_horde.miner_client.organic, not among the sources embedded here.
    Section 4.5 lists the reasons; they are the ones the driver tells
    apart before its closing [assert_never]. *)
Inductive FailureReason :=
| MINER_CONNECTION_FAILED
| INITIAL_RESPONSE_TIMED_OUT
| JOB_DECLINED
| EXECUTOR_READINESS_RESPONSE_TIMED_OUT
| STREAMING_JOB_READY_TIMED_OUT
| EXECUTOR_FAILED
| FINAL_RESPONSE_TIMED_OUT
| JOB_FAILED.

(** Modelled from the spec: [V0DeclineJobRequest.Reason] is declared in
    compute_horde.protocol_messages; section 6 gives it as BUSY or another
    reason, and the driver tells BUSY from the rest. *)
Inductive DeclineReason :=
| BUSY
| OtherDeclineReason (name : string).

(** [V0JobFailedRequest.ErrorType], with the one member the driver's
    [match] names before [assert_never]. *)
Inductive ErrorType := HUGGINGFACE_DOWNLOAD.

(** The miner's message an OrganicJobError carries. *)
Inductive MinerMessage :=
| V0DeclineJobRequest (reason : DeclineReason) (receipts : option (list Receipt))
| V0JobFailedRequest (docker_process_stdout docker_process_stderr : string)
    (error_type : option ErrorType) (error_detail : option string)
| OtherMessage (message_type : string).

(** [exc_text] is [str(exc)] and [received_text] is [exc.received_str()]. *)
Record OrganicJobError := {
  reason : FailureReason;
  received : option MinerMessage;
  exc_text : string;
  received_text : string
}.

(** How [run_organic_job] went: the accept messages it passed to
    [notify_job_accepted] on the way, and its end. *)
Inductive run_ending :=
| Finished (stdout stderr : string) (artifacts : gmap string string)
| Failed (exc : OrganicJobError)
| Crashed (e : exception).

Record run_behaviour := { accepted_messages : list string; ending : run_ending }.

(** [OrganicJob.Status], the values the driver assigns and the one a job
    is created with. *)
Inductive Status := PENDING | COMPLETED | FAILED | EXCUSED.

Record OrganicJob := {
  job_uuid : string;
  miner_hotkey : string;
  executor_class : string;
  on_trusted_miner : bool;
  status : Status;
  comment : string;
  stdout : string;
  stderr : string;
  artifacts : gmap string string;
  error_type : option ErrorType;
  error_detail : option string
}.

Inductive JobStatusType :=
| received_ | accepted | executor_ready | volumes_ready | rejected | failed | completed.

Record MinerResponse := {
  response_job_uuid : string;
  message_type : option string;
  docker_process_stdout : string;
  docker_process_stderr : string;
  response_artifacts : gmap string string
}.

Record JobStatusMetadata := { metadata_comment : string; miner_response : MinerResponse }.

Record JobStatusUpdate := {
  uuid : string;
  update_status : JobStatusType;
  metadata : JobStatusMetadata
}.

Inductive EventType := MINER_ORGANIC_JOB_SUCCESS | MINER_ORGANIC_JOB_FAILURE.

Inductive EventSubType :=
| SUCCESS | MINER_CONNECTION_ERROR | JOB_NOT_STARTED | JOB_EXCUSED | JOB_REJECTED
| JOB_EXECUTION_TIMEOUT | FAILURE | ERROR_DOWNLOADING_FROM_HUGGINGFACE.

Record SystemEvent := {
  event_type : EventType;
  subtype : EventSubType;
  long_description : string;
  data : gmap string string
}.

Record MinerClient := { miner_name : string; my_hotkey : string }.

(** What the driver reads and never writes: the dynamic configuration, the
    JobStartedReceipt rows (job uuid, timestamp) and the stores of the
    excuse policy. *)
Record database := {
  config : gmap string config_value;
  started_receipts : list (string * Z);
  excuse_stores : stores
}.

(** What the driver changes: the job object, its saved row, the system
    events and the status updates sent through [notify_callback]. *)
Record world := {
  job : OrganicJob;
  saved_job : option OrganicJob;
  system_events : list SystemEvent;
  status_updates : list JobStatusUpdate
}.

Definition status_update_from_job (j : OrganicJob) (st : JobStatusType)
    (message_type : option string) : JobStatusUpdate :=
  {| uuid := job_uuid j;
     update_status := st;
     metadata :=
       {| metadata_comment := comment j;
          miner_response :=
            {| response_job_uuid := job_uuid j;
               message_type := message_type;
               docker_process_stdout := stdout j;
               docker_process_stderr := stderr j;
               response_artifacts := artifacts j |} |} |}.

Definition set_job (j : OrganicJob) (w : world) : world :=
  {| job := j; saved_job := saved_job w; system_events := system_events w;
     status_updates := status_updates w |}.

Definition with_status (st : Status) (c : string) (j : OrganicJob) : OrganicJob :=
  {| job_uuid := job_uuid j; miner_hotkey := miner_hotkey j;
     executor_class := executor_class j; on_trusted_miner := on_trusted_miner j;
     status := st; comment := c;
     stdout := stdout j; stderr := stderr j; artifacts := artifacts j;
     error_type := error_type j; error_detail := error_detail j |}.

Definition with_output (out err : string) (arts : gmap string string) (j : OrganicJob)
    : OrganicJob :=
  {| job_uuid := job_uuid j; miner_hotkey := miner_hotkey j;
     executor_class := executor_class j; on_trusted_miner := on_trusted_miner j;
     status := status j; comment := comment j;
     stdout := out; stderr := err; artifacts := arts;
     error_type := error_type j; error_detail := error_detail j |}.

Definition with_failure (out err : string) (et : option ErrorType) (ed : option string)
    (j : OrganicJob) : OrganicJob :=
  {| job_uuid := job_uuid j; miner_hotkey := miner_hotkey j;
     executor_class := executor_class j; on_trusted_miner := on_trusted_miner j;
     status := status j; comment := comment j;
     stdout := out; stderr := err; artifacts := artifacts j;
     error_type := et; error_detail := ed |}.

Definition asave : ST world unit :=
  fun w => (Return tt,
            {| job := job w; saved_job := Some (job w); system_events := system_events w;
               status_updates := status_updates w |}).

Definition notify_callback (u : JobStatusUpdate) : ST world unit :=
  fun w => (Return tt,
            {| job := job w; saved_job := saved_job w; system_events := system_events w;
               status_updates := status_updates w ++ [u] |}).

Definition acreate_system_event (e : SystemEvent) : ST world unit :=
  fun w => (Return tt,
            {| job := job w; saved_job := saved_job w;
               system_events := system_events w ++ [e];
               status_updates := status_updates w |}).

Definition DISABLE_TRUSTED_KEY : string := "DYNAMIC_DISABLE_TRUSTED_ORGANIC_JOB_EVENTS".
Definition MINIMUM_STAKE_KEY : string := "DYNAMIC_MINIMUM_VALIDATOR_STAKE_FOR_EXCUSE".

Section Driver.
(** [py_repr] is Python's [repr] of a string, used by the [{stdout=}]
    fields of the closing comment. *)
Variable py_repr : string -> string.
Variable db : database.

Definition aget_config {S : Type} (key : string) : ST S config_value :=
  fun s =>
    match config db !! key with
    | Some v => (Return v, s)
    | None => (Raise (KeyError key), s)
    end.

(** [JobStartedReceipt.objects.aget(job_uuid=...)], of which the driver
    reads the timestamp. *)
Definition aget_job_started_receipt {S : Type} (job_uuid : string) : ST S Z :=
  fun s =>
    match List.filter (fun row => String.eqb (fst row) job_uuid) (started_receipts db) with
    | [row] => (Return (snd row), s)
    | [] => (Raise DoesNotExist, s)
    | _ => (Raise MultipleObjectsReturned, s)
    end.

(** A configuration value where a number is expected. *)
Definition as_number {S : Type} (v : config_value) : ST S Q :=
  match v with
  | CInt z => ret (inject_Z z)
  | CBool b => ret (if b then 1%Q else 0%Q)
  | _ => raise TypeError
  end.

(** [save_job_execution_event] with the data the driver binds to it. *)
Definition save_job_execution_event (data : gmap string string) (subtype : EventSubType)
    (long_description : string) (success : bool) : ST world unit :=
  acreate_system_event
    {| event_type := if success then MINER_ORGANIC_JOB_SUCCESS
                     else MINER_ORGANIC_JOB_FAILURE;
       subtype := subtype; long_description := long_description; data := data |}.

(** The lines every branch ends with: status and comment on the job,
    save, event, status update. *)
Definition conclude (save_event : EventSubType -> string -> bool -> ST world unit)
    (st : Status) (comment : string) (subtype : EventSubType) (success : bool)
    (update : JobStatusType) (message_type : option string) : ST world unit :=
  (fun w => (Return tt, set_job (with_status st comment (job w)) w)) ;;;
  asave ;;;
  save_event subtype comment success ;;;
  fun w => notify_callback (status_update_from_job (job w) update message_type) w.

(** The first lines of [drive_organic_job]: events of jobs on the
    trusted miner are dropped when the configuration says so. *)
Definition events_ignored (j : OrganicJob) : ST world bool :=
  if on_trusted_miner j
  then v <- aget_config DISABLE_TRUSTED_KEY ;; ret (truthy v)
  else ret false.

Definition save_event_for (ignored : bool) (miner_client : MinerClient) (j : OrganicJob)
    : EventSubType -> string -> bool -> ST world unit :=
  if ignored
  then fun _ _ _ => ret tt
  else save_job_execution_event
         {[ "job_uuid" := job_uuid j; "miner_hotkey" := my_hotkey miner_client ]}.

(** [run_organic_job] at work: each accept it receives goes to
    [notify_job_accepted], which sends an "accepted" update. *)
Definition notify_accepts (run_organic_job : run_behaviour) : ST world unit :=
  fun w =>
    (Return tt,
     fold_left
       (fun w' msg =>
          snd (notify_callback (status_update_from_job (job w') accepted (Some msg)) w'))
       (accepted_messages run_organic_job) w).

(** The body of the [try] after [run_organic_job] returned. *)
Definition on_finished (save_event : EventSubType -> string -> bool -> ST world unit)
    (miner_client : MinerClient) (stdout stderr : string)
    (artifacts : gmap string string) : ST world bool :=
  let comment :=
    "Miner " +:+ miner_name miner_client +:+ " finished: stdout="
    +:+ py_repr stdout +:+ " stderr=" +:+ py_repr stderr in
  (fun w => (Return tt, set_job (with_output stdout stderr artifacts (job w)) w)) ;;;
  conclude save_event COMPLETED comment SUCCESS true completed
    (Some "V0JobFinishedRequest") ;;;
  ret true.

(** The [except OrganicJobError] clause. *)
Definition on_organic_job_error
    (save_event : EventSubType -> string -> bool -> ST world unit)
    (miner_client : MinerClient)
    (total_job_timeout initial_response_timeout executor_ready_timeout : Z)
    (exc : OrganicJobError) : ST world bool :=
  (fun w =>
     let name := miner_name miner_client in
     let uuid := job_uuid (job w) in
     match reason exc, received exc with
     | MINER_CONNECTION_FAILED, _ =>
         conclude save_event FAILED ("Miner connection error: " +:+ exc_text exc)
           MINER_CONNECTION_ERROR false failed None w
     | INITIAL_RESPONSE_TIMED_OUT, _ =>
         conclude save_event FAILED
           ("Miner " +:+ name +:+ " timed out waiting for initial response "
            +:+ uuid +:+ " after " +:+ pretty initial_response_timeout +:+ " seconds")
           JOB_NOT_STARTED false failed None w
     | JOB_DECLINED, Some (V0DeclineJobRequest BUSY receipts) =>
         (job_request_time <- aget_job_started_receipt uuid ;;
          floor_value <- aget_config MINIMUM_STAKE_KEY ;;
          floor <- as_number floor_value ;;
          let valid_excuses :=
            filter_valid_excuse_receipts (excuse_stores db) (default [] receipts)
              job_request_time uuid (executor_class (job w)) false floor
              (miner_hotkey (job w)) in
          let expected_executor_count :=
            get_expected_miner_executor_count (excuse_stores db) job_request_time
              (miner_hotkey (job w)) (executor_class (job w)) in
          if expected_executor_count <=? Z.of_nat (length valid_excuses)
          then
            conclude save_event EXCUSED
              ("Miner properly excused job " +:+ name +:+ ": " +:+ received_text exc)
              JOB_EXCUSED false rejected None
          else
            conclude save_event FAILED
              ("Miner failed to excuse job " +:+ name +:+ ": " +:+ received_text exc)
              JOB_REJECTED false rejected None) w
     | JOB_DECLINED, _ =>
         conclude save_event FAILED
           ("Miner declined job " +:+ name +:+ ": " +:+ received_text exc)
           JOB_REJECTED false rejected None w
     | EXECUTOR_READINESS_RESPONSE_TIMED_OUT, _ =>
         conclude save_event FAILED
           ("Miner " +:+ name +:+ " timed out while preparing executor for job "
            +:+ uuid +:+ " after " +:+ pretty executor_ready_timeout +:+ " seconds")
           JOB_NOT_STARTED false failed None w
     | STREAMING_JOB_READY_TIMED_OUT, _ =>
         conclude save_event FAILED
           ("Streaming job " +:+ uuid +:+ " not ready after "
            +:+ pretty executor_ready_timeout +:+ " seconds")
           JOB_NOT_STARTED false failed None w
     | EXECUTOR_FAILED, _ =>
         conclude save_event FAILED
           ("Miner " +:+ name +:+ " failed to start executor: " +:+ received_text exc)
           JOB_REJECTED false failed None w
     | FINAL_RESPONSE_TIMED_OUT, _ =>
         conclude save_event FAILED
           ("Miner " +:+ name +:+ " timed out after "
            +:+ pretty total_job_timeout +:+ " seconds")
           JOB_EXECUTION_TIMEOUT false failed None w
     | JOB_FAILED, msg =>
         let comment := "Miner " +:+ name +:+ " failed: " +:+ received_text exc in
         match msg with
         | Some (V0JobFailedRequest out err et ed) =>
             ((fun w1 => (Return tt, set_job (with_failure out err et ed (job w1)) w1)) ;;;
              conclude save_event FAILED comment
                (match et with
                 | None => FAILURE
                 | Some HUGGINGFACE_DOWNLOAD => ERROR_DOWNLOADING_FROM_HUGGINGFACE
                 end)
                false failed (Some "V0JobFailedRequest")) w
         | _ =>
             conclude save_event FAILED comment FAILURE false failed
               (Some "V0JobFailedRequest") w
         end
     end) ;;;
  ret false.

Definition drive_organic_job (miner_client : MinerClient)
    (total_job_timeout initial_response_timeout executor_ready_timeout : Z)
    (run_organic_job : run_behaviour) : ST world bool :=
  fun w0 =>
    (ignored <- events_ignored (job w0) ;;
     let save_event := save_event_for ignored miner_client (job w0) in
     notify_accepts run_organic_job ;;;
     match ending run_organic_job with
     | Finished stdout stderr artifacts =>
         on_finished save_event miner_client stdout stderr artifacts
     | Failed exc =>
         on_organic_job_error save_event miner_client total_job_timeout
           initial_response_timeout executor_ready_timeout exc
     | Crashed e => raise e
     end) w0.

End Driver.

(** *** Reading the updates *)

Definition terminal (st : JobStatusType) : bool :=
  match st with
  | completed | failed | rejected => true
  | _ => false
  end.

Definition status_eqb (a b : JobStatusType) : bool :=
  match a, b with
  | received_, received_ | accepted, accepted | executor_ready, executor_ready
  | volumes_ready, volumes_ready | rejected, rejected | failed, failed
  | completed, completed => true
  | _, _ => false
  end.

(** The updates of a given status among those sent. *)
Definition updates_with (st : JobStatusType) (l : list JobStatusUpdate) : list JobStatusUpdate :=
  List.filter (fun u => status_eqb (update_status u) st) l.

Definition terminal_updates (l : list JobStatusUpdate) : list JobStatusUpdate :=
  List.filter (fun u => terminal (update_status u)) l.

(** The system events a branch leaves, none when events are ignored. *)
Definition events_of (miner_client : MinerClient) (ignored : bool) (j : OrganicJob)
    (subtype : EventSubType) (long_description : string) (success : bool)
    : list SystemEvent :=
  if ignored then []
  else [ {| event_type := if success then MINER_ORGANIC_JOB_SUCCESS
                          else MINER_ORGANIC_JOB_FAILURE;
            subtype := subtype; long_description := long_description;
            data := {[ "job_uuid" := job_uuid j;
                       "miner_hotkey" := my_hotkey miner_client ]} |} ].

(** The reads of the BUSY branch and of the event switch find what they
    look for: the job's one JobStartedReceipt, a number under the stake
    floor key, and, for a job on the trusted miner, the switch key. *)
Definition answers (db : database) (j : OrganicJob) : Prop :=
  (exists t, List.filter (fun row => String.eqb (fst row) (job_uuid j)) (started_receipts db)
             = [(job_uuid j, t)])
  /\ (exists z, config db !! MINIMUM_STAKE_KEY = Some (CInt z))
  /\ (on_trusted_miner j = true -> is_Some (config db !! DISABLE_TRUSTED_KEY)).

End MinerDriver.

(** ** Concrete inputs used by the examples below *)
Module Fixtures.
Import TransferReceipts.

(** A surrounding whose configuration never changes; one-hour pages, the
    clock standing at ten hours. *)
Definition env_of (cfg : gmap string config_value) : environment :=
  {| dynamic_config := fun _ => cfg;
     now := fun _ => timedelta_hours 10;
     monotonic_ms := fun n => Z.of_nat n;
     gather_schedule := Nat.even |}.

Definition hour_page (t : Z) : Z := t / timedelta_hours 1.

Definition cfg_enabled : gmap string config_value :=
  {[ ENABLED_KEY := CBool true; INTERVAL_KEY := CInt 5 ]}.
Definition cfg_disabled : gmap string config_value :=
  {[ ENABLED_KEY := CBool false; INTERVAL_KEY := CInt 5 ]}.
Definition cfg_missing : gmap string config_value :=
  {[ INTERVAL_KEY := CInt 5 ]}.

(** The kill switch off at first, on from the fourth interaction. *)
Definition env_switched_on : environment :=
  {| dynamic_config := fun n => if (n <? 3)%nat then cfg_disabled else cfg_enabled;
     now := fun _ => timedelta_hours 10;
     monotonic_ms := fun n => Z.of_nat n;
     gather_schedule := Nat.even |}.

(** The kill switch on at first, off from the ninth interaction: in once
    mode, from the consultation before the third page. *)
Definition env_switched_off : environment :=
  {| dynamic_config := fun n => if (n <? 8)%nat then cfg_enabled else cfg_disabled;
     now := fun _ => timedelta_hours 10;
     monotonic_ms := fun n => Z.of_nat n;
     gather_schedule := Nat.even |}.

(** The kill switch on, but for the one consultation made at the ninth
    interaction: switched off and on again within a keep-up interval. *)
Definition env_switched_off_briefly : environment :=
  {| dynamic_config := fun n => if (n =? 8)%nat then cfg_disabled else cfg_enabled;
     now := fun _ => timedelta_hours 10;
     monotonic_ms := fun n => Z.of_nat n;
     gather_schedule := Nat.even |}.

(** A directory of 1001 entries, and a zip as large as the number of
    entries times a megabyte. *)
Definition crowded_directory : list string := (fun i : nat => pretty i) <$> seq 0 1001.
Definition megabyte_each (entries : list string) : Z :=
  Z.of_nat (length entries) * 1048576.
Definition always_ok (n : nat) : bool := true.
Definition three_gigabytes (entries : list string) : Z := 3221225472.

Import MultiUploader.

(** A job output of two files, of which the report is uploaded on its own
    and the rest goes into the system zip. *)
Definition report_upload : SingleFileUpload :=
  {| output_upload_type := single_file_post; relative_path := "report.txt";
     url := "https://s3/report"; form_fields := None; signed_headers := None |}.

Definition demo_multi_upload : MultiUpload :=
  {| uploads := [report_upload];
     system_output := Some (ZipAndHttpPostUpload "https://s3/zip" None) |}.

(** A file system in which a relative path exists when the listing has it
    as written, and one in which a leading "./" is allowed as well. *)
Definition in_listing (listing : list string) (path : string) : bool :=
  bool_decide (path ∈ listing).
Definition dot_slash (listing : list string) (path : string) : bool :=
  bool_decide (path ∈ listing)
  || bool_decide (path ∈ (fun name => "./" +:+ name) <$> listing).

Definition dot_slash_report_upload : SingleFileUpload :=
  {| output_upload_type := single_file_post; relative_path := "./report.txt";
     url := "https://s3/report"; form_fields := None; signed_headers := None |}.

Definition ten_bytes (path : string) : Z := 10.
Definition same_name (path : string) : string := path.

(** The switch on and no transfer interval configured. *)
Definition cfg_no_interval : gmap string config_value :=
  {[ ENABLED_KEY := CBool true ]}.

Import Supertensor.

(** A chain that answers every call in 20 ms; the head stands at 1005. *)
Definition quick {A : Type} (a : A) : coroutine A :=
  {| duration_ms := 20; completes := Return a |}.

Definition demo_neurons : list Neuron :=
  [ {| uid := 0; hotkey := "alice"; coldkey := "ca"; stake := 2000; axon_ip := None |};
    {| uid := 7; hotkey := "bob"; coldkey := "cb"; stake := 1500; axon_ip := Some "10.0.0.2" |};
    {| uid := 1; hotkey := "carol"; coldkey := "cc"; stake := 10; axon_ip := Some "0.0.0.0" |} ].

Definition demo_subnet_state : SubnetState :=
  {| total_stake := Some [Some 5%Q; None] |}.

Definition demo_chain : Chain :=
  {| archive_network := false;
     chain_neurons := fun _ _ _ => quick demo_neurons;
     chain_block_timestamp := fun _ _ b => quick (1700000000 + 12 * b);
     chain_block_hash := fun _ _ b => quick ("0x" +:+ pretty b);
     chain_subnet_state := fun _ _ _ => quick demo_subnet_state;
     chain_shielded_neurons := fun _ => quick demo_neurons;
     chain_head := fun _ => Return 1005 |}.

(** The same chain, except that a block hash takes 45 s to come. *)
Definition slow_hash_chain : Chain :=
  {| archive_network := false;
     chain_neurons := fun _ _ _ => quick demo_neurons;
     chain_block_timestamp := fun _ _ b => quick (1700000000 + 12 * b);
     chain_block_hash := fun _ _ _ => {| duration_ms := 45000; completes := Return "late" |};
     chain_subnet_state := fun _ _ _ => quick demo_subnet_state;
     chain_shielded_neurons := fun _ => quick demo_neurons;
     chain_head := fun _ => Return 1005 |}.



(** A lite node that has pruned the blocks below 800, with no archive node
    to fall back on. *)
Definition pruned_chain : Chain :=
  {| archive_network := false;
     chain_neurons := fun _ _ _ => quick demo_neurons;
     chain_block_timestamp := fun _ _ b => quick (1700000000 + 12 * b);
     chain_block_hash := fun _ _ b =>
       if b <? 800 then {| duration_ms := 20; completes := Raise UnknownBlock |}
       else quick ("0x" +:+ pretty b);
     chain_subnet_state := fun _ _ _ => quick demo_subnet_state;
     chain_shielded_neurons := fun _ => quick demo_neurons;
     chain_head := fun _ => Return 1005 |}.

(** A chain on which every answer takes 45 s to come. *)
Definition stalled {A : Type} (a : A) : coroutine A :=
  {| duration_ms := 45000; completes := Return a |}.

Definition stalled_chain : Chain :=
  {| archive_network := false;
     chain_neurons := fun _ _ _ => stalled demo_neurons;
     chain_block_timestamp := fun _ _ b => stalled (1700000000 + 12 * b);
     chain_block_hash := fun _ _ b => stalled ("0x" +:+ pretty b);
     chain_subnet_state := fun _ _ _ => stalled demo_subnet_state;
     chain_shielded_neurons := fun _ => stalled demo_neurons;
     chain_head := fun _ => Return 1005 |}.

Import JobExcuses MinerDriver.

(** A job declined as BUSY by a miner with two online executors, and the
    two receipts it offers as excuse; "v1" holds enough stake, "v2" does
    not. *)
Definition demo_stores : stores :=
  {| validator_stake := fun hotkey => if String.eqb hotkey "v1" then 5000%Q else 10%Q;
     online_executor_count := fun _ _ => 2 |}.

Definition demo_db : database :=
  {| config := {[ MINIMUM_STAKE_KEY := CInt 1000 ]};
     started_receipts := [("job-1", 500); ("job-0", 100)];
     excuse_stores := demo_stores |}.

Definition demo_job : OrganicJob :=
  {| job_uuid := "job-1"; miner_hotkey := "miner-1"; executor_class := "always_on";
     on_trusted_miner := false; status := PENDING; comment := EmptyString;
     stdout := EmptyString; stderr := EmptyString; artifacts := ∅;
     error_type := None; error_detail := None |}.

Definition demo_world : world :=
  {| job := demo_job; saved_job := None; system_events := []; status_updates := [] |}.

Definition demo_client : MinerClient := {| miner_name := "miner-1@host"; my_hotkey := "me" |}.

Definition excuse (uuid validator : string) (t : Z) : Receipt :=
  {| receipt_job_uuid := uuid; receipt_miner_hotkey := "miner-1";
     receipt_validator_hotkey := validator; receipt_timestamp := t;
     receipt_executor_class := "always_on"; receipt_is_organic := true |}.

Definition busy_decline (receipts : list Receipt) : run_behaviour :=
  {| accepted_messages := [];
     ending := Failed {| reason := JOB_DECLINED;
                         received := Some (V0DeclineJobRequest BUSY (Some receipts));
                         exc_text := "declined"; received_text := "busy" |} |}.

Definition quoted (s : string) : string := "'" +:+ s +:+ "'".

(** The same database with no JobStartedReceipt in it. *)
Definition db_without_receipt : database :=
  {| config := {[ MINIMUM_STAKE_KEY := CInt 1000 ]};
     started_receipts := [];
     excuse_stores := demo_stores |}.

(** A run cut short by a cancellation, after the miner accepted. *)
Definition cancelled_run : run_behaviour :=
  {| accepted_messages := ["V0AcceptJobRequest"];
     ending := Crashed (OtherError "CancelledError") |}.

Definition finished_run : run_behaviour :=
  {| accepted_messages := ["V0AcceptJobRequest"]; ending := Finished "out" "err" ∅ |}.

End Fixtures.

(** * Properties *)

(** ** Receipt transfer *)
Section TransferFacts.
Import TransferReceipts.

Lemma py_range_elem (a b p : Z) : p ∈ py_range a b <-> a <= p < b.
Proof. unfold py_range. rewrite elem_of_seqZ. lia. Qed.

Lemma py_range_rev_decreasing (a b : Z) : StronglySorted Z.gt (rev (py_range a b)).
Proof.
  unfold py_range, seqZ. generalize (Z.to_nat (b - a)) as n. intros n.
  induction n as [|n IH]; [constructor|].
  rewrite seq_S, fmap_app, rev_app_distr. simpl. constructor; [exact IH|].
  apply Forall_forall. intros x Hx. 
  apply list_elem_of_In in Hx. rewrite <- in_rev in Hx. apply list_elem_of_In in Hx.
  apply list_elem_of_fmap in Hx as (i & -> & Hi).
  apply list_elem_of_In, in_seq in Hi. lia.
Qed.

Lemma transfers_app (a b : list event) : transfers (a ++ b) = transfers a ++ transfers b.
Proof.
  induction a as [|e a IH]; [reflexivity|].
  destruct e; simpl; rewrite IH; reflexivity.
Qed.

Variable N_ACTIVE_PAGES : Z.
Variable current_page_at : Z -> Z.
Variable env : environment.

(** What one consultation of the kill switch does. *)
Lemma throw_if_disabled_cases (s : state) :
  let v := dynamic_config env (ticks s) !! ENABLED_KEY in
  _throw_if_disabled env s =
    (if flag_on v then Return tt else Raise TransferIsDisabled,
     {| ticks := S (ticks s); trace := trace s ++ [EvGetConfig ENABLED_KEY v] |}).
Proof.
  unfold _throw_if_disabled, aget_config, emit, tick. simpl.
  destruct (dynamic_config env (ticks s) !! ENABLED_KEY) as [v|]; simpl; [|reflexivity].
  destruct (truthy v); reflexivity.
Qed.

Lemma catch_up_iteration_cases (page sem : Z) (s : state) :
  let v := dynamic_config env (ticks s) !! ENABLED_KEY in
  catch_up_iteration env page sem s =
    if flag_on v
    then (Return tt,
          {| ticks := S (S (S (ticks s)));
             trace := trace s ++ [EvGetConfig ENABLED_KEY v; EvTransfer [page] 3000 sem] |})
    else (Raise TransferIsDisabled,
          {| ticks := S (ticks s); trace := trace s ++ [EvGetConfig ENABLED_KEY v] |}).
Proof.
  unfold catch_up_iteration, bind. rewrite throw_if_disabled_cases. simpl.
  destruct (flag_on _); [|reflexivity].
  unfold time_monotonic, transfer, emit, tick, ret. simpl.
  rewrite <- app_assoc. reflexivity.
Qed.

Lemma catch_up_enabled (pages : list Z) (sem : Z) (s : state) :
  (forall n, flag_on (dynamic_config env n !! ENABLED_KEY) = true) ->
  fst (catch_up env pages sem s) = Return tt /\
  transfers (trace (snd (catch_up env pages sem s)))
    = transfers (trace s) ++ map (fun p => ([p], 3000, sem)) pages.
Proof.
  intros Hon. revert s. induction pages as [|page rest IH]; intros s; simpl.
  - rewrite app_nil_r. auto.
  - unfold bind. rewrite catch_up_iteration_cases, Hon.
    destruct (IH {| ticks := S (S (S (ticks s)));
                    trace := trace s ++
                      [EvGetConfig ENABLED_KEY (dynamic_config env (ticks s) !! ENABLED_KEY);
                       EvTransfer [page] 3000 sem] |}) as [Hr Ht].
    split; [exact Hr|]. rewrite Ht. simpl. rewrite transfers_app. simpl.
    rewrite <- app_assoc. reflexivity.
Qed.

(** A catch-up whose first [i] rounds find the kill switch on and whose
    next round, if there is one, finds it off or missing. *)
Lemma catch_up_until_disabled (pages : list Z) (sem : Z) (s : state) (i : nat) :
  (i <= length pages)%nat ->
  (forall j, (j < i)%nat ->
             flag_on (dynamic_config env (ticks s + 3 * j) !! ENABLED_KEY) = true) ->
  ((i < length pages)%nat ->
   flag_on (dynamic_config env (ticks s + 3 * i) !! ENABLED_KEY) = false) ->
  fst (catch_up env pages sem s)
  = (if (i =? length pages)%nat then Return tt else Raise TransferIsDisabled)
  /\ transfers (trace (snd (catch_up env pages sem s)))
     = transfers (trace s) ++ map (fun p => ([p], 3000, sem)) (firstn i pages).
Proof.
  revert s i. induction pages as [|page rest IH]; intros s i Hi Hon Hoff.
  - simpl in Hi. assert (i = 0)%nat as -> by lia. simpl. rewrite app_nil_r. auto.
  - simpl. unfold bind. rewrite catch_up_iteration_cases.
    destruct i as [|i'].
    + rewrite Nat.mul_0_r, Nat.add_0_r in Hoff. rewrite Hoff by (simpl; lia). simpl.
      rewrite transfers_app. simpl. rewrite !app_nil_r. auto.
    + pose proof (Hon 0%nat ltac:(lia)) as H0.
      rewrite Nat.mul_0_r, Nat.add_0_r in H0. rewrite H0.
      match goal with
      | |- context [catch_up env rest sem ?s1] =>
          destruct (IH s1 i') as [Hr Ht]
      end.
      * simpl in Hi. lia.
      * intros j Hj. cbn [ticks].
        replace (S (S (S (ticks s))) + 3 * j)%nat with (ticks s + 3 * S j)%nat by lia.
        apply Hon. lia.
      * intros Hlt. cbn [ticks].
        replace (S (S (S (ticks s))) + 3 * i')%nat with (ticks s + 3 * S i')%nat by lia.
        apply Hoff. simpl. lia.
      * split.
        -- rewrite Hr. simpl.
           destruct (Nat.eqb_spec i' (length rest)); reflexivity.
        -- rewrite Ht. simpl. rewrite transfers_app. simpl.
           rewrite <- app_assoc. reflexivity.
Qed.

(** C8, as the code has it: in once mode the pages are those from the
    cutoff page (that of five hours before the start) to the current
    page, both included, newest first.  As long as the kill switch is
    found on before each page, the command returns having transferred
    exactly these pages, in this order, one page per transfer call
    (timeout 3 s, semaphore 50).  When the switch is found off or missing
    before a page, having been found on before the pages ahead of it, the
    command raises TransferIsDisabled having transferred the pages ahead
    of it only: that page and the older ones are not transferred. *)
Theorem run_once_transfers_every_page_newest_first (fuel : nat) (s : state) :
  let cutoff_page := current_page_at (now env (ticks s) - timedelta_hours 5) in
  let current := current_page_at (now env (S (ticks s))) in
  let pages := rev (py_range cutoff_page (current + 1)) in
  let before_page (i : nat) := dynamic_config env (2 + ticks s + 3 * i) !! ENABLED_KEY in
  let run := handle N_ACTIVE_PAGES current_page_at env fuel false s in
  (forall p, p ∈ pages <-> cutoff_page <= p <= current)
  /\ StronglySorted Z.gt pages
  /\ ((forall i, (i < length pages)%nat -> flag_on (before_page i) = true) ->
      fst run = Return tt
      /\ transfers (trace (snd run))
         = transfers (trace s) ++ map (fun p => ([p], 3000, 50)) pages)
  /\ (forall i,
         (i < length pages)%nat ->
         (forall j, (j < i)%nat -> flag_on (before_page j) = true) ->
         flag_on (before_page i) = false ->
         fst run = Raise TransferIsDisabled
         /\ transfers (trace (snd run))
            = transfers (trace s) ++ map (fun p => ([p], 3000, 50)) (firstn i pages)).
Proof.
  intros cutoff_page current pages before_page run.
  assert (Hrun : run = catch_up env pages 50 (tick (tick s))).
  { unfold run, handle, run_once, current_page, timezone_now, bind, ret. reflexivity. }
  split; [|split; [|split]].
  - intros p. unfold pages. rewrite list_elem_of_In, <- in_rev, <- list_elem_of_In.
    rewrite py_range_elem. lia.
  - apply py_range_rev_decreasing.
  - intros Hon. rewrite Hrun.
    destruct (catch_up_until_disabled pages 50 (tick (tick s)) (length pages))
      as [Hr Ht]; [lia|intros j Hj; apply Hon; exact Hj|lia|].
    rewrite Nat.eqb_refl in Hr. rewrite firstn_all in Ht. auto.
  - intros i Hi Hon Hoff. rewrite Hrun.
    destruct (catch_up_until_disabled pages 50 (tick (tick s)) i)
      as [Hr Ht]; [lia|exact Hon|intros _; exact Hoff|].
    destruct (Nat.eqb_spec i (length pages)); [lia|]. auto.
Qed.

End TransferFacts.

Section TransferExamples.
Import TransferReceipts Fixtures.

Lemma run_once_transfers_every_page_newest_first_witness :
  (fst (handle 2 hour_page (env_of cfg_enabled) 0 false initial_state) = Return tt /\
   transfers (trace (snd (handle 2 hour_page (env_of cfg_enabled) 0 false initial_state)))
   = [([10], 3000, 50); ([9], 3000, 50); ([8], 3000, 50);
      ([7], 3000, 50); ([6], 3000, 50); ([5], 3000, 50)])
  /\ (fst (handle 2 hour_page env_switched_off 0 false initial_state)
      = Raise TransferIsDisabled /\
      transfers (trace (snd (handle 2 hour_page env_switched_off 0 false initial_state)))
      = [([10], 3000, 50); ([9], 3000, 50)]).
Proof.
  split.
  - destruct (run_once_transfers_every_page_newest_first 2 hour_page (env_of cfg_enabled)
                0%nat initial_state) as (_ & _ & Hall & _).
    destruct Hall as [Hr Ht]; [intros i Hi; vm_compute; reflexivity|].
    split; [exact Hr|]. rewrite Ht. vm_compute. reflexivity.
  - destruct (run_once_transfers_every_page_newest_first 2 hour_page env_switched_off
                0%nat initial_state) as (_ & _ & _ & Hcut).
    destruct (Hcut 2%nat) as [Hr Ht].
    + vm_compute. lia.
    + intros j Hj. destruct j as [|[|j]]; [reflexivity|reflexivity|lia].
    + reflexivity.
    + split; [exact Hr|]. rewrite Ht. vm_compute. reflexivity.
Defined.

(** C8 as stated fails when the kill switch is off: the command raises
    TransferIsDisabled before the first page and transfers nothing. *)
Lemma run_once_disabled_counterexample :
  fst (handle 2 hour_page (env_of cfg_disabled) 0 false initial_state)
    = Raise TransferIsDisabled /\
  transfers (trace (snd (handle 2 hour_page (env_of cfg_disabled) 0 false initial_state)))
    <> map (fun p => ([p], 3000, 50)) (rev (py_range 5 (10 + 1))).
Proof. split; [vm_compute; reflexivity|]. vm_compute. discriminate. Qed.

(** C10: when the DYNAMIC_RECEIPT_TRANSFER_ENABLED key is absent from the
    dynamic configuration (its lookup raises KeyError), the enabled check
    raises TransferIsDisabled, exactly as it does when the key is set to
    false. *)
Theorem throw_if_disabled_missing_key (env_missing env_false : environment) (s : state) :
  dynamic_config env_missing (ticks s) !! ENABLED_KEY = None ->
  dynamic_config env_false (ticks s) !! ENABLED_KEY = Some (CBool false) ->
  fst (aget_config env_missing ENABLED_KEY s) = Raise (KeyError ENABLED_KEY) /\
  fst (_throw_if_disabled env_missing s) = Raise TransferIsDisabled /\
  fst (_throw_if_disabled env_false s) = fst (_throw_if_disabled env_missing s).
Proof.
  intros Hm Hf. rewrite !throw_if_disabled_cases. unfold aget_config.
  rewrite Hm, Hf. simpl. auto.
Qed.

Lemma throw_if_disabled_missing_key_witness :
  fst (_throw_if_disabled (env_of cfg_missing) initial_state) = Raise TransferIsDisabled.
Proof.
  apply (throw_if_disabled_missing_key (env_of cfg_missing) (env_of cfg_disabled)
           initial_state); vm_compute; reflexivity.
Defined.

(** The daemon meeting the switch off, then on: the read and the minute
    of sleep, then the two active pages one by one, each after a read. *)
Example daemon_waits_for_the_switch :
  trace (snd (handle 2 hour_page env_switched_on 1 true initial_state))
  = [EvGetConfig ENABLED_KEY (Some (CBool false)); EvAsyncSleep 60]
  /\ firstn 6 (trace (snd (handle 2 hour_page env_switched_on 2 true initial_state)))
    = [EvGetConfig ENABLED_KEY (Some (CBool false)); EvAsyncSleep 60;
       EvGetConfig ENABLED_KEY (Some (CBool true)); EvTransfer [10] 3000 50;
       EvGetConfig ENABLED_KEY (Some (CBool true)); EvTransfer [9] 3000 50].
Proof. split; vm_compute; reflexivity. Qed.

End TransferExamples.

(** ** Receipt transfer: what else the command does *)
Section TransferMore.
Import TransferReceipts TransferReading.
Variable N_ACTIVE_PAGES : Z.
Variable current_page_at : Z -> Z.
Variable env : environment.

(** X1: [catch_up] transfers the pages in the order given, one per call,
    up to the first round that finds the kill switch off; it returns when
    every round found it on and raises TransferIsDisabled otherwise, and
    no page from that round on is transferred.  Over an empty list it
    returns without reading the configuration. *)
Theorem catch_up_stops_at_first_disabled_round (pages : list Z) (sem : Z) (s : state) :
  let k := rounds_enabled env (ticks s) (length pages) in
  transfers (trace (snd (catch_up env pages sem s)))
  = transfers (trace s) ++ map (fun p => ([p], 3000, sem)) (firstn k pages)
  /\ (k = length pages -> fst (catch_up env pages sem s) = Return tt)
  /\ (k <> length pages -> fst (catch_up env pages sem s) = Raise TransferIsDisabled)
  /\ (pages = [] -> catch_up env pages sem s = (Return tt, s)).
Proof.
  revert s. induction pages as [|page rest IH]; intros s; simpl.
  - rewrite app_nil_r. repeat split; auto. intros H. contradiction.
  - unfold bind. rewrite catch_up_iteration_cases.
    destruct (flag_on (dynamic_config env (ticks s) !! ENABLED_KEY)) eqn:Hv.
    + match goal with
      | |- context [catch_up env rest sem ?s1] => specialize (IH s1)
      end.
      simpl in IH. destruct IH as (Ht & Hret & Hraise & _).
      split; [|split; [|split]].
      * rewrite Ht, transfers_app. simpl. rewrite <- app_assoc. reflexivity.
      * intros [= Hk]. auto.
      * intros Hk. apply Hraise. congruence.
      * discriminate.
    + simpl. rewrite transfers_app. simpl. rewrite !app_nil_r.
      repeat split; auto; discriminate.
Qed.

Lemma catch_up_pages_app (a b : list event) :
  catch_up_pages (a ++ b) = catch_up_pages a ++ catch_up_pages b.
Proof. unfold catch_up_pages. rewrite transfers_app, fmap_app, concat_app. reflexivity. Qed.

Lemma catch_up_iteration_pages (page sem : Z) (s : state) :
  (fst (catch_up_iteration env page sem s) = Return tt
   /\ catch_up_pages (trace (snd (catch_up_iteration env page sem s)))
      = catch_up_pages (trace s) ++ [page])
  \/ (fst (catch_up_iteration env page sem s) <> Return tt
      /\ catch_up_pages (trace (snd (catch_up_iteration env page sem s)))
         = catch_up_pages (trace s)).
Proof.
  rewrite catch_up_iteration_cases.
  destruct (flag_on _); simpl; rewrite catch_up_pages_app.
  - left. auto.
  - right. split; [discriminate|]. apply app_nil_r.
Qed.

Lemma keep_up_iteration_pages (sem : Z) (s : state) :
  catch_up_pages (trace (snd (keep_up_iteration N_ACTIVE_PAGES current_page_at env sem s)))
  = catch_up_pages (trace s).
Proof.
  unfold keep_up_iteration, bind. rewrite throw_if_disabled_cases.
  destruct (flag_on (dynamic_config env (ticks s) !! ENABLED_KEY)); simpl.
  2:{ rewrite catch_up_pages_app. apply app_nil_r. }
  unfold aget_config, emit, tick; simpl.
  destruct (dynamic_config env (S (ticks s)) !! INTERVAL_KEY) as [i|]; simpl.
  2:{ rewrite !catch_up_pages_app. simpl. rewrite !app_nil_r. reflexivity. }
  unfold time_monotonic, current_page, timezone_now, transfer, bind, ret, emit, tick; simpl.
  destruct i as [b|z|str|]; simpl; try destruct (_ <? _); simpl;
    rewrite !catch_up_pages_app; simpl; rewrite !app_nil_r; reflexivity.
Qed.

Lemma catch_up_pages_prefix (pages : list Z) (sem : Z) (s : state) :
  exists n, (n <= length pages)%nat
    /\ catch_up_pages (trace (snd (catch_up env pages sem s)))
       = catch_up_pages (trace s) ++ firstn n pages
    /\ (fst (catch_up env pages sem s) = Return tt -> n = length pages).
Proof.
  revert s. induction pages as [|page rest IH]; intros s; simpl.
  - exists 0%nat. rewrite app_nil_r. auto.
  - unfold bind.
    destruct (catch_up_iteration_pages page sem s) as [[Hr Hp]|[Hr Hp]];
      destruct (catch_up_iteration env page sem s) as [[[]|e|] s1]; simpl in *;
      try congruence.
    + destruct (IH s1) as (n & Hn & Hp' & Hret). exists (S n).
      split; [lia|]. split; [|intros H; f_equal; auto].
      rewrite Hp', Hp, <- app_assoc. reflexivity.
    + exists 0%nat. rewrite app_nil_r. split; [lia|]. split; [exact Hp|discriminate].
    + exists 0%nat. rewrite app_nil_r. split; [lia|]. split; [exact Hp|discriminate].
Qed.

Lemma gather_pages_prefix (fuel : nat) (cold : list Z) (s : state) :
  exists n, (n <= length cold)%nat
    /\ catch_up_pages
         (trace (snd (gather_catch_up_keep_up N_ACTIVE_PAGES current_page_at env fuel cold s)))
       = catch_up_pages (trace s) ++ firstn n cold.
Proof.
  revert cold s. induction fuel as [|fuel IH]; intros cold s; simpl.
  - exists 0%nat. rewrite app_nil_r. split; [lia|reflexivity].
  - assert (Hkeep : exists n, (n <= length cold)%nat
              /\ catch_up_pages
                   (trace (snd ((keep_up_iteration N_ACTIVE_PAGES current_page_at env 50 ;;;
                                 gather_catch_up_keep_up N_ACTIVE_PAGES current_page_at env
                                   fuel cold) (tick s))))
                 = catch_up_pages (trace s) ++ firstn n cold).
    { unfold bind. pose proof (keep_up_iteration_pages 50 (tick s)) as Hp.
      destruct (keep_up_iteration _ _ _ _ (tick s)) as [[[]|e|] s1]; simpl in *.
      - destruct (IH cold s1) as (n & Hn & Hp'). exists n. rewrite Hp', Hp. auto.
      - exists 0%nat. rewrite app_nil_r. split; [lia|exact Hp].
      - exists 0%nat. rewrite app_nil_r. split; [lia|exact Hp]. }
    destruct (gather_schedule env (ticks s)), cold as [|page rest]; try exact Hkeep.
    unfold bind.
    destruct (catch_up_iteration_pages page 10 (tick s)) as [[Hr Hp]|[Hr Hp]];
      destruct (catch_up_iteration env page 10 (tick s)) as [[[]|e|] s1]; simpl in *;
      try congruence.
    + destruct (IH rest s1) as (n & Hn & Hp'). exists (S n).
      split; [lia|]. rewrite Hp', Hp, <- app_assoc. reflexivity.
    + exists 0%nat. rewrite app_nil_r. split; [lia|exact Hp].
    + exists 0%nat. rewrite app_nil_r. split; [lia|exact Hp].
Qed.

Lemma py_range_split (a b c : Z) :
  a <= b <= c -> py_range a c = py_range a b ++ py_range b c.
Proof.
  intros H. unfold py_range.
  replace (c - a) with ((b - a) + (c - b)) by lia.
  rewrite seqZ_app by lia. repeat f_equal; lia.
Qed.

(** X2: within one [run_in_loop], the pages the catch-up transfers (the
    first sweep over the active pages, then the older pages in the
    gather) follow the order of once mode: newest first from the current
    page down towards the cutoff page, no page skipped or repeated,
    however the gather interleaves keep-up passes and wherever an
    exception cuts the run short. *)
Theorem run_in_loop_catch_up_follows_once_order (fuel : nat) (cutoff : Z) (s : state) :
  let current := current_page_at (now env (ticks s)) in
  0 <= N_ACTIVE_PAGES ->
  current_page_at cutoff <= current - N_ACTIVE_PAGES + 1 ->
  exists n,
    catch_up_pages (trace (snd (run_in_loop N_ACTIVE_PAGES current_page_at env fuel cutoff s)))
    = catch_up_pages (trace s)
      ++ firstn n (rev (py_range (current_page_at cutoff) (current + 1))).
Proof.
  intros current HN Hcut.
  rewrite (py_range_split (current_page_at cutoff) (current - N_ACTIVE_PAGES + 1)
             (current + 1)) by lia.
  rewrite rev_app_distr.
  unfold run_in_loop, current_page, timezone_now, bind at 1 2, ret. simpl.
  fold current. unfold bind.
  set (hot := rev (py_range (current - N_ACTIVE_PAGES + 1) (current + 1))).
  set (cold := rev (py_range (current_page_at cutoff) (current - N_ACTIVE_PAGES + 1))).
  destruct (catch_up_pages_prefix hot 50 (tick s)) as (n & Hn & Hp & Hret).
  destruct (catch_up env hot 50 (tick s)) as [[[]|e|] s1]; simpl in *.
  - destruct (gather_pages_prefix fuel cold s1) as (m & Hm & Hp').
    exists (length hot + m)%nat. rewrite Hp', Hp, (Hret eq_refl), <- app_assoc.
    rewrite (firstn_all2 (n:=length hot) hot) by lia.
    f_equal. rewrite firstn_app, (firstn_all2 (n:=(length hot + m)%nat) hot) by lia.
    replace (length hot + m - length hot)%nat with m by lia. reflexivity.
  - exists n. rewrite Hp. f_equal. rewrite firstn_app.
    replace (n - length hot)%nat with 0%nat by lia. simpl. rewrite app_nil_r. reflexivity.
  - exists n. rewrite Hp. f_equal. rewrite firstn_app.
    replace (n - length hot)%nat with 0%nat by lia. simpl. rewrite app_nil_r. reflexivity.
Qed.

Lemma gather_never_returns (fuel : nat) (cold : list Z) (s : state) (u : unit) :
  fst (gather_catch_up_keep_up N_ACTIVE_PAGES current_page_at env fuel cold s) <> Return u.
Proof.
  revert cold s. induction fuel as [|fuel IH]; intros cold s; simpl; [discriminate|].
  destruct (gather_schedule env (ticks s)), cold as [|page rest]; unfold bind;
    match goal with
    | |- context [match ?m with _ => _ end] => destruct m as [[[]|e|] s1]
    end; simpl; try discriminate; apply IH.
Qed.

Lemma daemon_loop_outcome (fuel : nat) (cutoff : Z) (s : state) :
  match fst (daemon_loop N_ACTIVE_PAGES current_page_at env fuel cutoff s) with
  | Return _ => False
  | Raise e => e <> TransferIsDisabled
  | Running => True
  end.
Proof.
  revert s. induction fuel as [|fuel IH]; intros s; simpl; [exact I|].
  destruct (run_in_loop _ _ _ fuel cutoff s) as [[[]|e|] s1] eqn:Hrun.
  - apply IH.
  - destruct e; simpl; try discriminate.
    unfold bind, asyncio_sleep. simpl. apply IH.
  - exact I.
Qed.

(** X3: in daemon mode [handle] never returns and never lets
    TransferIsDisabled out: whatever the configuration, the clock and the
    interleaving, it is either still running or has ended with another
    exception. *)
Theorem daemon_outlives_the_kill_switch (fuel : nat) (s : state) :
  match fst (handle N_ACTIVE_PAGES current_page_at env fuel true s) with
  | Return _ => False
  | Raise e => e <> TransferIsDisabled
  | Running => True
  end.
Proof.
  unfold handle, bind, timezone_now. simpl. apply daemon_loop_outcome.
Qed.

(** X4: a keep-up pass that finds the switch on but no
    DYNAMIC_RECEIPT_TRANSFER_INTERVAL key raises KeyError before
    transferring anything, and the daemon loop, which catches
    TransferIsDisabled only, ends with whatever else [run_in_loop]
    raises. *)
Theorem missing_interval_ends_the_daemon (fuel : nat) (cutoff : Z) (sem : Z)
    (s : state) (e : exception) :
  (flag_on (dynamic_config env (ticks s) !! ENABLED_KEY) = true ->
   dynamic_config env (S (ticks s)) !! INTERVAL_KEY = None ->
   fst (keep_up_iteration N_ACTIVE_PAGES current_page_at env sem s)
     = Raise (KeyError INTERVAL_KEY)
   /\ transfers (trace (snd (keep_up_iteration N_ACTIVE_PAGES current_page_at env sem s)))
      = transfers (trace s))
  /\ (fst (run_in_loop N_ACTIVE_PAGES current_page_at env fuel cutoff s) = Raise e ->
      e <> TransferIsDisabled ->
      daemon_loop N_ACTIVE_PAGES current_page_at env (S fuel) cutoff s
      = run_in_loop N_ACTIVE_PAGES current_page_at env fuel cutoff s).
Proof.
  split.
  - intros Hon Hmissing. unfold keep_up_iteration, bind.
    rewrite throw_if_disabled_cases, Hon. simpl.
    unfold aget_config, emit, tick. simpl. rewrite Hmissing. simpl.
    split; [reflexivity|]. rewrite !transfers_app. simpl. rewrite !app_nil_r. reflexivity.
  - intros Hrun He. simpl.
    destruct (run_in_loop _ _ _ fuel cutoff s) as [[[]|e'|] s1]; simpl in *;
      try discriminate.
    injection Hrun as ->. destruct e; try reflexivity. contradiction.
Qed.

End TransferMore.

Section TransferMoreExamples.
Import TransferReceipts TransferReading Fixtures.

Lemma run_in_loop_catch_up_follows_once_order_witness :
  exists n,
    catch_up_pages
      (trace (snd (run_in_loop 2 hour_page (env_of cfg_enabled) 12 (timedelta_hours 5)
                     initial_state)))
    = firstn n [10; 9; 8; 7; 6; 5].
Proof.
  destruct (run_in_loop_catch_up_follows_once_order 2 hour_page (env_of cfg_enabled)
              12%nat (timedelta_hours 5) initial_state) as [n Hn].
  - lia.
  - vm_compute. discriminate.
  - exists n. rewrite Hn. vm_compute. reflexivity.
Defined.

(** With the switch on and no interval configured, the first keep-up pass
    raises KeyError and nothing is transferred by it. *)
Example keep_up_without_interval :
  fst (keep_up_iteration 2 hour_page (env_of cfg_no_interval) 50 initial_state)
  = Raise (KeyError INTERVAL_KEY)
  /\ transfers (trace (snd (keep_up_iteration 2 hour_page (env_of cfg_no_interval) 50
                              initial_state))) = [].
Proof. vm_compute. split; reflexivity. Qed.

End TransferMoreExamples.

(** ** Receipt transfer: the metrics *)
Section TransferMetricsFacts.
Import TransferMetrics.

Lemma class_eqb_name (a b : exception_class) :
  class_eqb a b = true -> class_name a = class_name b.
Proof.
  unfold class_eqb. intros H. apply andb_true_iff in H as [_ H].
  apply String.eqb_eq in H. exact H.
Qed.

Lemma total_for_incr (label : string) (k : exception_class)
    (d : list (exception_class * Z)) :
  total_for label (defaultdict_incr k d)
  = total_for label d + (if String.eqb (class_name k) label then 1 else 0).
Proof.
  induction d as [|[k' c] rest IH]; simpl.
  - destruct (String.eqb (class_name k) label); lia.
  - destruct (class_eqb k' k) eqn:Hk; simpl.
    + apply class_eqb_name in Hk. rewrite Hk.
      destruct (String.eqb (class_name k) label); lia.
    + rewrite IH. destruct (String.eqb (class_name k') label); lia.
Qed.

Lemma positive_incr (k : exception_class) (d : list (exception_class * Z)) :
  Forall (fun kc => 0 < snd kc) d -> Forall (fun kc => 0 < snd kc) (defaultdict_incr k d).
Proof.
  induction 1 as [|[k' c] rest Hc Hrest IH]; simpl.
  - constructor; [simpl; lia|constructor].
  - destruct (class_eqb k' k); constructor; simpl in *; auto; lia.
Qed.

Lemma count_by_class_total (label : string) (errors : list exception_class) :
  total_for label (count_by_class errors) = Z.of_nat (length (named label errors))
  /\ Forall (fun kc => 0 < snd kc) (count_by_class errors).
Proof.
  unfold count_by_class.
  assert (Hgen : forall d,
             Forall (fun kc => 0 < snd kc) d ->
             total_for label (fold_left (fun d e => defaultdict_incr e d) errors d)
             = total_for label d + Z.of_nat (length (named label errors))
             /\ Forall (fun kc => 0 < snd kc)
                  (fold_left (fun d e => defaultdict_incr e d) errors d)).
  { induction errors as [|e rest IH]; intros d Hd; simpl; [split; [lia|exact Hd]|].
    destruct (IH (defaultdict_incr e d) (positive_incr e d Hd)) as [Htotal Hpos].
    split; [|exact Hpos]. rewrite Htotal, total_for_incr.
    destruct (String.eqb (class_name e) label); simpl; lia. }
  destruct (Hgen [] ltac:(constructor)) as [Htotal Hpos]. split; [|exact Hpos].
  rewrite Htotal. reflexivity.
Qed.

Lemma push_counts_total (counts : list (exception_class * Z)) (counter : gmap string Z) :
  Forall (fun kc => 0 < snd kc) counts ->
  exists counter',
    push_counts counts counter = Return counter'
    /\ (forall label,
           value_of label counter' = value_of label counter + total_for label counts)
    /\ (forall label, is_Some (counter' !! label) ->
                      is_Some (counter !! label) \/ 0 < total_for label counts).
Proof.
  intros Hpos. revert counter.
  induction Hpos as [|[k c] rest Hc Hrest IH]; intros counter; simpl.
  - exists counter. split; [reflexivity|]. split; [intros; lia|auto].
  - unfold labels_inc, counter_inc. simpl in Hc.
    destruct (Z.ltb_spec c 0) as [Hneg|_]; [lia|].
    destruct (IH (<[class_name k := default 0 (counter !! class_name k) + c]> counter))
      as (counter' & Hrun & Hvalue & Hlabels).
    exists counter'. split; [exact Hrun|]. split.
    + intros label. rewrite Hvalue. unfold value_of. simpl.
      destruct (String.eqb_spec (class_name k) label) as [Heq|Hne].
      * rewrite <- Heq, lookup_insert_eq. simpl. lia.
      * rewrite lookup_insert_ne by exact Hne. lia.
    + intros label Hsome. specialize (Hlabels label Hsome).
      assert (Htotal : 0 <= total_for label rest).
      { clear -Hrest. induction Hrest as [|[k' c'] r Hc' Hr IHr]; simpl; [lia|].
        destruct (String.eqb (class_name k') label); simpl in *; lia. }
      simpl. destruct (String.eqb_spec (class_name k) label) as [Heq|Hne].
      * right. lia.
      * rewrite lookup_insert_ne in Hlabels by exact Hne.
        destruct Hlabels as [Hold|Hnew]; [left; exact Hold|right; lia].
Qed.

(** X25: with the receipt and transfer counts of the result not negative,
    [_push_common_metrics] returns and every error is counted once under
    the name of its class: for each label, the line error counter under
    that label grows by the number of line errors whose class has that
    name, and the transfer error counter likewise; the two plain counters
    grow by the counts of the result; no counter goes down, and a new
    label appears only for a name that occurs among the errors. *)
Theorem push_common_metrics_counts_every_error_once (result : TransferResult)
    (m : metrics) :
  0 <= n_receipts result ->
  0 <= n_successful_transfers result ->
  exists m',
    _push_common_metrics result m = (Return tt, m')
    /\ m_receipts m' = m_receipts m + n_receipts result
    /\ m_successful_transfers m' = m_successful_transfers m + n_successful_transfers result
    /\ (forall label,
           value_of label (m_line_errors m')
           = value_of label (m_line_errors m)
             + Z.of_nat (length (named label (line_errors result))))
    /\ (forall label,
           value_of label (m_transfer_errors m')
           = value_of label (m_transfer_errors m)
             + Z.of_nat (length (named label (transfer_errors result))))
    /\ (forall label,
           is_Some (m_line_errors m' !! label) ->
           is_Some (m_line_errors m !! label)
           \/ exists e, In e (line_errors result) /\ class_name e = label).
Proof.
  intros Hreceipts Hsuccessful. unfold _push_common_metrics.
  destruct (push_counts_total (count_by_class (line_errors result)) (m_line_errors m))
    as (line & Hline & Hline_value & Hline_labels);
    [apply (count_by_class_total EmptyString)|].
  destruct (push_counts_total (count_by_class (transfer_errors result))
              (m_transfer_errors m))
    as (transfer & Htransfer & Htransfer_value & _);
    [apply (count_by_class_total EmptyString)|].
  rewrite Hline, Htransfer. unfold counter_inc.
  destruct (Z.ltb_spec (n_receipts result) 0) as [Hneg|_]; [lia|].
  destruct (Z.ltb_spec (n_successful_transfers result) 0) as [Hneg|_]; [lia|].
  eexists. split; [reflexivity|]. simpl. repeat split.
  - intros label. rewrite Hline_value.
    rewrite (proj1 (count_by_class_total label (line_errors result))). reflexivity.
  - intros label. rewrite Htransfer_value.
    rewrite (proj1 (count_by_class_total label (transfer_errors result))). reflexivity.
  - intros label Hsome. destruct (Hline_labels label Hsome) as [Hold|Hnew];
      [left; exact Hold|right].
    rewrite (proj1 (count_by_class_total label (line_errors result))) in Hnew.
    destruct (named label (line_errors result)) as [|e rest] eqn:Hnamed;
      [simpl in Hnew; lia|].
    assert (Hin : In e (named label (line_errors result)))
      by (rewrite Hnamed; left; reflexivity).
    unfold named in Hin. apply filter_In in Hin as [Hin Hname].
    apply String.eqb_eq in Hname. eauto.
Qed.

End TransferMetricsFacts.

Section TransferMetricsExamples.
Import TransferMetrics.

Lemma push_common_metrics_counts_every_error_once_witness :
  exists m',
    _push_common_metrics
      {| n_receipts := 7; n_successful_transfers := 3;
         transfer_errors := [ {| class_module := "asyncio"; class_name := "TimeoutError" |} ];
         line_errors := [ {| class_module := "builtins"; class_name := "ValueError" |};
                          {| class_module := "pydantic"; class_name := "ValidationError" |};
                          {| class_module := "builtins"; class_name := "ValueError" |} ] |}
      {| m_receipts := 0; m_successful_transfers := 0; m_line_errors := ∅;
         m_transfer_errors := ∅ |}
    = (Return tt, m')
    /\ value_of "ValueError" (m_line_errors m') = 2.
Proof.
  destruct (push_common_metrics_counts_every_error_once
              {| n_receipts := 7; n_successful_transfers := 3;
                 transfer_errors :=
                   [ {| class_module := "asyncio"; class_name := "TimeoutError" |} ];
                 line_errors :=
                   [ {| class_module := "builtins"; class_name := "ValueError" |};
                     {| class_module := "pydantic"; class_name := "ValidationError" |};
                     {| class_module := "builtins"; class_name := "ValueError" |} ] |}
              {| m_receipts := 0; m_successful_transfers := 0; m_line_errors := ∅;
                 m_transfer_errors := ∅ |})
    as (m' & Hrun & _ & _ & Hline & _).
  - simpl. lia.
  - simpl. lia.
  - exists m'. split; [exact Hrun|]. rewrite Hline. reflexivity.
Defined.

End TransferMetricsExamples.

(** ** Receipt transfer: the daemon on the event loop *)
Section TransferDaemonFacts.
Import TransferReceipts TransferDaemon.
Variable N_ACTIVE_PAGES : Z.
Variable current_page_at : Z -> Z.
Variable env : environment.

(** A keep-up pass opens with a consultation of the kill switch; found
    off or missing, the pass does nothing more and raises
    TransferIsDisabled; found on, it makes one transfer call at most. *)
Lemma keep_up_iteration_consults (sem : Z) (s : state) :
  let v := dynamic_config env (ticks s) !! ENABLED_KEY in
  let pass := keep_up_iteration N_ACTIVE_PAGES current_page_at env sem s in
  exists rest,
    trace (snd pass) = trace s ++ EvGetConfig ENABLED_KEY v :: rest
    /\ (flag_on v = false -> rest = [] /\ fst pass = Raise TransferIsDisabled)
    /\ (length (transfers rest) <= 1)%nat.
Proof.
  intros v pass. unfold pass, keep_up_iteration, bind. rewrite throw_if_disabled_cases.
  fold v. destruct (flag_on v) eqn:Hv; simpl.
  2:{ exists []. split; [reflexivity|]. split; [auto|simpl; lia]. }
  unfold aget_config, emit, tick; simpl.
  destruct (dynamic_config env (S (ticks s)) !! INTERVAL_KEY) as [i|]; simpl.
  2:{ eexists. rewrite <- app_assoc. split; [reflexivity|].
      split; [discriminate|simpl; lia]. }
  unfold time_monotonic, current_page, timezone_now, transfer, bind, ret, emit, tick; simpl.
  destruct i as [b|z|str|]; simpl; try destruct (_ <? _); simpl;
    eexists; rewrite <- !app_assoc; (split; [reflexivity|]);
    (split; [discriminate|simpl; lia]).
Qed.

(** The same of every loop round of a task that has a page ahead of it,
    whether the gather still awaits the task or has left it running. *)
Lemma task_round_consults (t : task) (s : state) :
  (forall sem, t <> CatchUp [] sem) ->
  let v := dynamic_config env (ticks s) !! ENABLED_KEY in
  let round := task_round N_ACTIVE_PAGES current_page_at env t s in
  exists rest,
    trace (snd round) = trace s ++ EvGetConfig ENABLED_KEY v :: rest
    /\ (flag_on v = false -> rest = [] /\ fst round = Raise TransferIsDisabled)
    /\ (length (transfers rest) <= 1)%nat.
Proof.
  intros Hwork v round. unfold round. destruct t as [[|page rest] sem|sem]; simpl.
  - exfalso. exact (Hwork sem eq_refl).
  - unfold bind. rewrite catch_up_iteration_cases. fold v.
    destruct (flag_on v); simpl.
    + eexists. split; [reflexivity|]. split; [discriminate|simpl; lia].
    + exists []. split; [reflexivity|]. split; [auto|simpl; lia].
  - destruct (keep_up_iteration_consults sem s) as (rest & Ht & Hoff & Hlen).
    fold v in Ht, Hoff. unfold bind.
    destruct (keep_up_iteration N_ACTIVE_PAGES current_page_at env sem s) as [[[]|e|] s1];
      simpl in *; exists rest; (split; [exact Ht|]); (split; [|exact Hlen]);
      intros Hv; destruct (Hoff Hv) as [Hrest Hr]; (split; [exact Hrest|]);
      congruence.
Qed.

(** A task that the gather has left running takes its rounds whatever
    [handle] is doing, its 60 seconds of sleep included: the round reads
    the kill switch at once. *)
Lemma left_running_round (i : nat) (t : task) (d : daemon) :
  (forall e, standing d <> Ended e) ->
  left_running d !! i = Some t ->
  shared (take_turn N_ACTIVE_PAGES current_page_at env (LeftRunning i) d)
  = snd (task_round N_ACTIVE_PAGES current_page_at env t (shared d)).
Proof.
  intros Hlive Hi. unfold take_turn.
  destruct (standing d) as [| | | | |ended] eqn:Hst;
    try (exfalso; exact (Hlive ended eq_refl));
    rewrite Hi;
    destruct (task_round N_ACTIVE_PAGES current_page_at env t (shared d))
      as [[[t'|]|raised|] s1];
    reflexivity.
Qed.

End TransferDaemonFacts.

Section TransferDaemonExamples.
Import TransferReceipts TransferDaemon Fixtures.

(** C6, where the code leaves it: two active pages, four cold ones, the
    kill switch on while the active pages are swept.

    Switched off for good: the gathered catch-up reads it off before the
    first cold page, transfers nothing and raises; the gather hands the
    exception to [handle] and leaves [keep_up] running.  That task reads
    the switch again at once, before [handle] has slept, and ends with an
    exception nobody retrieves; only then does [handle] start its 60
    seconds.

    Switched off for that one read only: the [keep_up] left running
    finds the switch on while [handle] sleeps, transfers the active pages
    and stays; after the sleep [handle] gathers a second [keep_up], and
    from then on both transfer the active pages, pass after pass. *)
Theorem task_left_running_rechecks_without_the_sleep :
  let turn_of env := take_turn 2 hour_page env in
  let run_of env := run 2 hour_page env in
  let off := EvGetConfig ENABLED_KEY (Some (CBool false)) in
  let pass := [EvGetConfig ENABLED_KEY (Some (CBool true));
               EvGetConfig INTERVAL_KEY (Some (CInt 5));
               EvTransfer [10; 9] 1000 50; EvBlockingSleep 4998] in
  (let gathered :=
     run_of env_switched_off [Handle; Handle; Handle; Handle]
       (start env_switched_off initial_state) in
   let raised := turn_of env_switched_off GatheredCatchUp gathered in
   let rechecked := turn_of env_switched_off (LeftRunning 0) raised in
   let asleep := turn_of env_switched_off Handle rechecked in
   standing gathered = Gathering (Some (CatchUp [8; 7; 6; 5] 10)) (KeepUp 50)
   /\ transfers (trace (shared gathered)) = [([10], 3000, 50); ([9], 3000, 50)]
   /\ added gathered raised = [off]
   /\ standing raised = Caught TransferIsDisabled
   /\ left_running raised = [KeepUp 50]
   /\ added raised rechecked = [off]
   /\ left_running rechecked = []
   /\ added rechecked asleep = [EvAsyncSleep 60]
   /\ standing asleep = Sleeping)
  /\ (let asleep :=
        run_of env_switched_off_briefly
          [Handle; Handle; Handle; Handle; GatheredCatchUp; Handle]
          (start env_switched_off_briefly initial_state) in
      let passed := turn_of env_switched_off_briefly (LeftRunning 0) asleep in
      let gathered :=
        run_of env_switched_off_briefly [Handle; Handle; Handle; Handle; Handle] passed in
      let both :=
        run_of env_switched_off_briefly [GatheredKeepUp; LeftRunning 0] gathered in
      added (start env_switched_off_briefly initial_state) asleep
      = [EvGetConfig ENABLED_KEY (Some (CBool true)); EvTransfer [10] 3000 50;
         EvGetConfig ENABLED_KEY (Some (CBool true)); EvTransfer [9] 3000 50;
         off; EvAsyncSleep 60]
      /\ standing asleep = Sleeping
      /\ left_running asleep = [KeepUp 50]
      /\ added asleep passed = pass
      /\ standing passed = Sleeping
      /\ standing gathered = Gathering (Some (CatchUp [8; 7; 6; 5] 10)) (KeepUp 50)
      /\ left_running gathered = [KeepUp 50]
      /\ added gathered both = pass ++ pass).
Proof. vm_compute. repeat split; reflexivity. Qed.

End TransferDaemonExamples.

(** ** Output upload *)
Section UploaderFacts.
Import Uploader.
Variable zip_size : list string -> Z.
Variable http_ok : nat -> bool.

Lemma filtered_files_kept (directory : list string) (exclude : option (list string)) :
  filter (fun file => file ∉ (match exclude with
                             | Some (x :: l) => list_to_set (x :: l)
                             | _ => ∅
                             end : gset string)) directory
  = kept directory exclude.
Proof.
  unfold kept. apply list_filter_iff. intros file.
  destruct exclude as [[|x l]|]; unfold default.
  - split; intros _; [apply not_elem_of_nil|apply not_elem_of_empty].
  - rewrite elem_of_list_to_set. reflexivity.
  - split; intros _; [apply not_elem_of_nil|apply not_elem_of_empty].
Qed.

Lemma zipped_directory_cases (directory : list string) (exclude : option (list string))
    (max_size_bytes : Z) :
  zipped_directory zip_size directory exclude max_size_bytes =
    if MAX_NUMBER_OF_FILES <? Z.of_nat (length (kept directory exclude))
    then Raise (OutputUploadFailed "Attempting to upload too many files")
    else if max_size_bytes <? zip_size (kept directory exclude)
         then Raise (OutputUploadFailed "Attempting to upload too large file")
         else Return (zip_size (kept directory exclude), kept directory exclude).
Proof. unfold zipped_directory. rewrite filtered_files_kept. reflexivity. Qed.

(** C7: [zipped_directory] raises OutputUploadFailed when the directory,
    the excluded relative paths taken out, holds more than
    MAX_NUMBER_OF_FILES = 1000 entries, and when the zip it wrote is larger
    than [max_size_bytes] (2147483648 unless given); either way nothing is
    yielded, so the body of the caller's [with] does not run and the zip
    uploaders make no request. *)
Theorem zipped_directory_refuses (directory : list string)
    (exclude : option (list string)) (max_size_bytes : Z) :
  MAX_NUMBER_OF_FILES < Z.of_nat (length (kept directory exclude))
  \/ max_size_bytes < zip_size (kept directory exclude) ->
  exists description,
    zipped_directory zip_size directory exclude max_size_bytes
      = Raise (OutputUploadFailed description)
    /\ (forall (S : Type) (body : Z * list string -> ST S unit) (s : S),
           with_zipped_directory zip_size directory exclude max_size_bytes body s
             = (Raise (OutputUploadFailed description), s))
    /\ (exclude = None ->
        forall url form_fields n,
          zip_and_post_upload zip_size http_ok max_size_bytes url form_fields directory n
            = (Raise (OutputUploadFailed description), n)
          /\ zip_and_put_upload zip_size http_ok max_size_bytes url directory n
            = (Raise (OutputUploadFailed description), n))
    /\ (MAX_NUMBER_OF_FILES < Z.of_nat (length (kept directory exclude)) ->
        description = "Attempting to upload too many files")
    /\ (Z.of_nat (length (kept directory exclude)) <= MAX_NUMBER_OF_FILES ->
        description = "Attempting to upload too large file")
    /\ MAX_NUMBER_OF_FILES = 1000 /\ DEFAULT_MAX_SIZE_BYTES = 2147483648.
Proof.
  intros Hrefuse.
  assert (Hz : exists description,
             zipped_directory zip_size directory exclude max_size_bytes
               = Raise (OutputUploadFailed description)
             /\ (MAX_NUMBER_OF_FILES < Z.of_nat (length (kept directory exclude)) ->
                 description = "Attempting to upload too many files")
             /\ (Z.of_nat (length (kept directory exclude)) <= MAX_NUMBER_OF_FILES ->
                 description = "Attempting to upload too large file")).
  { rewrite zipped_directory_cases.
    destruct (Z.ltb_spec MAX_NUMBER_OF_FILES (Z.of_nat (length (kept directory exclude))))
      as [Hmany|Hfew].
    - eexists. split; [reflexivity|]. split; [reflexivity|lia].
    - destruct (Z.ltb_spec max_size_bytes (zip_size (kept directory exclude)))
        as [Hlarge|Hsmall]; [|lia].
      eexists. split; [reflexivity|]. split; [lia|reflexivity]. }
  destruct Hz as (description & Hraise & Hmany & Hlarge).
  exists description. split; [exact Hraise|].
  assert (Hwith : forall (S : Type) (body : Z * list string -> ST S unit) (s : S),
             with_zipped_directory zip_size directory exclude max_size_bytes body s
               = (Raise (OutputUploadFailed description), s)).
  { intros S body s. unfold with_zipped_directory. rewrite Hraise. reflexivity. }
  split; [exact Hwith|]. split.
  - intros -> url form_fields n. unfold zip_and_post_upload, zip_and_put_upload.
    rewrite !Hwith. auto.
  - auto.
Qed.

End UploaderFacts.

Section UploaderExamples.
Import Uploader Fixtures.

Lemma zipped_directory_refuses_witness :
  exists description,
    zipped_directory megabyte_each crowded_directory None DEFAULT_MAX_SIZE_BYTES
      = Raise (OutputUploadFailed description)
    /\ zip_and_post_upload megabyte_each always_ok DEFAULT_MAX_SIZE_BYTES "http://s3/put"
         None crowded_directory {| requests := []; slept := [] |}
       = (Raise (OutputUploadFailed description), {| requests := []; slept := [] |}).
Proof.
  destruct (zipped_directory_refuses megabyte_each always_ok crowded_directory None
              DEFAULT_MAX_SIZE_BYTES) as (description & Hz & _ & Hup & _).
  - left. vm_compute. reflexivity.
  - exists description. split; [exact Hz|]. apply Hup. reflexivity.
Defined.

(** A directory within both limits is zipped and posted once. *)
Example zip_and_post_upload_small :
  zip_and_post_upload megabyte_each always_ok DEFAULT_MAX_SIZE_BYTES "http://s3/put"
    None ["a.txt"; "b.txt"] {| requests := []; slept := [] |}
  = (Return tt,
     {| requests :=
          [{| http_method := "POST"; http_url := "http://s3/put";
              http_file := ["a.txt"; "b.txt"];
              http_data := {[ "Content-Type" := "application/zip" ]};
              http_headers := {[ "Content-Length" := "2097152" ]};
              http_timeout := 300 |}];
        slept := [] |}).
Proof. vm_compute. reflexivity. Qed.

(** Two files whose zip comes out at three gigabytes: refused after
    zipping, nothing posted. *)
Example zip_and_post_upload_too_large :
  zip_and_post_upload three_gigabytes always_ok DEFAULT_MAX_SIZE_BYTES "http://s3/put"
    None ["a.txt"; "b.txt"] {| requests := []; slept := [] |}
  = (Raise (OutputUploadFailed "Attempting to upload too large file"),
     {| requests := []; slept := [] |}).
Proof. vm_compute. reflexivity. Qed.

End UploaderExamples.

(** ** Output upload: retries, the zip that is yielded, multi upload *)
Section UploaderMore.
Import Uploader MultiUploader.
Variable zip_size : list string -> Z.
Variable http_ok : nat -> bool.
Variable path_exists : string -> bool.
Variable path_name : string -> string.
Variable st_size : string -> Z.

Lemma retry_http_call (r : http_request) (n : net) :
  let c := length (requests n) in
  retry 3 1 2 (http_call http_ok r) n =
    if http_ok c
    then (Return tt, {| requests := requests n ++ [r]; slept := slept n |})
    else if http_ok (S c)
    then (Return tt, {| requests := requests n ++ [r; r]; slept := slept n ++ [1] |})
    else if http_ok (S (S c))
    then (Return tt, {| requests := requests n ++ [r; r; r]; slept := slept n ++ [1; 2] |})
    else (Raise (OutputUploadFailed "Uploading output failed with http error"),
          {| requests := requests n ++ [r; r; r]; slept := slept n ++ [1; 2] |}).
Proof.
  unfold retry. simpl. unfold http_call, send, sleep. simpl.
  destruct (http_ok (length (requests n))); [reflexivity|]. simpl.
  rewrite length_app. simpl. rewrite Nat.add_1_r.
  destruct (http_ok (S (length (requests n)))); simpl.
  { rewrite <- app_assoc. reflexivity. }
  rewrite !length_app. simpl. rewrite !Nat.add_1_r.
  destruct (http_ok (S (S (length (requests n))))); simpl;
    rewrite <- !app_assoc; reflexivity.
Qed.

(** X5: [upload_post] sends its request between one and three times: it
    stops at the first success, sleeps 1 s and then 2 s between failed
    tries, and after a third failure raises OutputUploadFailed. *)
Theorem upload_post_tries_at_most_three_times (fp : list string) (file_name : string)
    (file_size : Z) (url content_type : string)
    (form_fields headers : option (gmap string string)) (n : net) :
  let run := upload_post http_ok fp file_name file_size url content_type form_fields
               headers n in
  exists (k : nat) (request : http_request),
    (1 <= k <= 3)%nat
    /\ requests (snd run) = requests n ++ repeat request k
    /\ slept (snd run) = slept n ++ firstn (k - 1) [1; 2]
    /\ (forall i, (i < k - 1)%nat -> http_ok (length (requests n) + i) = false)
    /\ (fst run = Return tt <-> http_ok (length (requests n) + (k - 1)) = true)
    /\ (fst run <> Return tt -> k = 3%nat /\ exists d, fst run = Raise (OutputUploadFailed d)).
Proof.
  unfold upload_post. simpl. rewrite retry_http_call. simpl.
  assert (Hc2 : (length (requests n) + 2)%nat = S (S (length (requests n)))) by lia.
  destruct (http_ok (length (requests n))) eqn:H0;
    [|destruct (http_ok (S (length (requests n)))) eqn:H1;
      [|destruct (http_ok (S (S (length (requests n))))) eqn:H2]].
  - eexists 1%nat, _. simpl. rewrite Nat.add_0_r, app_nil_r.
    repeat split; auto; try lia; congruence.
  - eexists 2%nat, _. simpl. rewrite Nat.add_1_r.
    repeat split; auto; try lia; try congruence.
    intros i Hi. replace i with 0%nat by lia. rewrite Nat.add_0_r. exact H0.
  - eexists 3%nat, _. simpl. rewrite Hc2.
    repeat split; auto; try lia; try congruence.
    intros i Hi. destruct i as [|[|i]]; [rewrite Nat.add_0_r; exact H0| |lia].
    rewrite Nat.add_1_r. exact H1.
  - eexists 3%nat, _. simpl. rewrite Hc2.
    repeat split; auto; try lia; try congruence; try (eexists; reflexivity).
    intros i Hi. destruct i as [|[|i]]; [rewrite Nat.add_0_r; exact H0| |lia].
    rewrite Nat.add_1_r. exact H1.
Qed.

(** X6: [zipped_directory] yields exactly when the entries left after the
    exclusion number at most 1000 and their zip is no larger than
    [max_size_bytes]; what it yields is the size of the zip and the zip
    of just those entries, in the order the directory lists them. *)
Theorem zipped_directory_yields_within_limits (directory : list string)
    (exclude : option (list string)) (max_size_bytes : Z) :
  ((exists yielded, zipped_directory zip_size directory exclude max_size_bytes
                    = Return yielded)
   <-> Z.of_nat (length (kept directory exclude)) <= MAX_NUMBER_OF_FILES
       /\ zip_size (kept directory exclude) <= max_size_bytes)
  /\ (forall yielded,
         zipped_directory zip_size directory exclude max_size_bytes = Return yielded ->
         yielded = (zip_size (kept directory exclude), kept directory exclude))
  /\ (forall file, file ∈ kept directory exclude
                   <-> file ∈ directory /\ file ∉ default [] exclude)
  /\ sublist (kept directory exclude) directory.
Proof.
  rewrite zipped_directory_cases.
  destruct (Z.ltb_spec MAX_NUMBER_OF_FILES (Z.of_nat (length (kept directory exclude))))
    as [Hmany|Hfew];
    [|destruct (Z.ltb_spec max_size_bytes (zip_size (kept directory exclude)))
        as [Hlarge|Hsmall]].
  - split; [split; [intros [y [=]]|lia]|]. split; [intros y [=]|].
    split; [intros file; unfold kept; rewrite list_elem_of_filter; tauto|].
    apply sublist_filter.
  - split; [split; [intros [y [=]]|lia]|]. split; [intros y [=]|].
    split; [intros file; unfold kept; rewrite list_elem_of_filter; tauto|].
    apply sublist_filter.
  - split; [split; [auto|eauto]|]. split; [intros y [= <-]; reflexivity|].
    split; [intros file; unfold kept; rewrite list_elem_of_filter; tauto|].
    apply sublist_filter.
Qed.

Lemma single_file_tasks_cases (l : list SingleFileUpload) :
  (acceptable path_exists l
   /\ single_file_tasks http_ok path_exists path_name st_size l
      = Return (task_of http_ok path_name st_size <$> l, relative_path <$> l))
  \/ (~ acceptable path_exists l
      /\ exists d, single_file_tasks http_ok path_exists path_name st_size l
                   = Raise (OutputUploadFailed d)).
Proof.
  unfold acceptable. induction l as [|u rest IH]; simpl.
  - left. split; [constructor|reflexivity].
  - destruct (path_exists (relative_path u)) eqn:Hexists.
    2:{ right. split; [|eexists; reflexivity]. intros H. inversion H as [|? ? [Hu _]].
        congruence. }
    destruct (output_upload_type u) eqn:Hty;
      try (right; split; [|eexists; reflexivity];
           intros H; inversion H as [|? ? [_ [?|?]]]; congruence).
    + destruct IH as [[Hacc ->]|[Hno [d ->]]].
      * left. split; [constructor; auto|]. unfold task_of at 2. rewrite Hty. reflexivity.
      * right. split; [|eexists; reflexivity]. intros H. inversion H. tauto.
    + destruct IH as [[Hacc ->]|[Hno [d ->]]].
      * left. split; [constructor; auto|]. unfold task_of at 2. rewrite Hty. reflexivity.
      * right. split; [|eexists; reflexivity]. intros H. inversion H. tauto.
Qed.

(** X7: [MultiUploadOutputUploader.upload] checks the whole list before
    it uploads anything: when the file of an entry does not exist, or an
    entry is neither a single-file post nor a single-file put, or the
    system output is of an unsupported class, it raises
    OutputUploadFailed and not one request has been made, not even for
    the entries before the offending one. *)
Theorem multi_upload_refuses_before_any_request (max_size_bytes : Z)
    (upload_output : MultiUpload) (directory : list string) (n : net) :
  ~ acceptable path_exists (uploads upload_output)
  \/ (exists t, system_output upload_output = Some (OtherUpload t)) ->
  exists d,
    upload zip_size http_ok path_exists path_name st_size max_size_bytes upload_output
      directory n
    = (Raise (OutputUploadFailed d), n).
Proof.
  intros Hbad. unfold upload.
  destruct (single_file_tasks_cases (uploads upload_output))
    as [[Hacc ->]|[Hno [d ->]]]; [|eexists; reflexivity].
  destruct Hbad as [Hno|[t ->]]; [contradiction|]. eexists. reflexivity.
Qed.




End UploaderMore.

Section UploaderMoreExamples.
Import Uploader MultiUploader Fixtures.

Lemma multi_upload_refuses_before_any_request_witness :
  exists d,
    upload megabyte_each always_ok (in_listing ["model.bin"]) same_name ten_bytes
      DEFAULT_MAX_SIZE_BYTES demo_multi_upload ["model.bin"]
      {| requests := []; slept := [] |}
    = (Raise (OutputUploadFailed d), {| requests := []; slept := [] |}).
Proof.
  apply (multi_upload_refuses_before_any_request megabyte_each always_ok
           (in_listing ["model.bin"]) same_name ten_bytes DEFAULT_MAX_SIZE_BYTES
           demo_multi_upload ["model.bin"] {| requests := []; slept := [] |}).
  left. intros Hacceptable. apply Forall_cons in Hacceptable as [[Hin _] _].
  vm_compute in Hin. discriminate.
Defined.


(** The report listed as "./report.txt": the file exists, so it is posted
    on its own, and the zip, which leaves out the name "./report.txt",
    holds "report.txt" as well. *)
Example multi_upload_dot_slash_is_zipped_as_well :
  (fun r => (http_url r, http_file r))
    <$> requests
          (snd (upload megabyte_each always_ok (dot_slash ["report.txt"; "model.bin"])
                  same_name ten_bytes DEFAULT_MAX_SIZE_BYTES
                  {| uploads := [dot_slash_report_upload];
                     system_output := Some (ZipAndHttpPostUpload "https://s3/zip" None) |}
                  ["report.txt"; "model.bin"] {| requests := []; slept := [] |}))
  = [("https://s3/report", ["./report.txt"]);
     ("https://s3/zip", ["report.txt"; "model.bin"])].
Proof. vm_compute. reflexivity. Qed.

End UploaderMoreExamples.

(** ** Chain oracle *)
Section SupertensorFacts.
Import Supertensor.
Variable chain : Chain.

Lemma effective_stake_of_total (total_stake : list (option Q)) (n : Neuron) :
  SuperTensor.effective_stake_of total_stake n = Return (stake_at total_stake (uid n)).
Proof.
  unfold SuperTensor.effective_stake_of, stake_at, py_getitem.
  destruct (Nat.ltb_spec (uid n) (length total_stake)) as [Hin|Hout].
  - destruct (lookup_lt_is_Some_2 total_stake (uid n) Hin) as [x Hx].
    rewrite Hx. destruct x; reflexivity.
  - rewrite (lookup_ge_None_2 total_stake (uid n)) by lia. reflexivity.
Qed.

Lemma comprehension_validators (total_stake : list (option Q)) (l : list Neuron) :
  comprehension
    (fun n =>
       match SuperTensor.effective_stake_of total_stake n with
       | Return e =>
           Return {| validator_uid := uid n; validator_hotkey := hotkey n;
                     effective_stake := e |}
       | Raise e => Raise e
       | Running => Running
       end) l
  = Return (map (validator_of total_stake) l).
Proof.
  induction l as [|n l IH]; [reflexivity|].
  simpl. rewrite effective_stake_of_total, IH. reflexivity.
Qed.

Lemma list_validators_on_returns (ln : Z -> M (list Neuron)) (gs : Z -> M SubnetState)
    (b : Z) (s s1 s2 : state) (neurons : list Neuron) (st : SubnetState) :
  ln b s = (Return neurons, s1) ->
  gs b s1 = (Return st, s2) ->
  SuperTensor.list_validators_on ln gs b s
  = (Return (map (validator_of (default [] (total_stake st)))
               (List.filter (fun n => Qle_bool 1000 (stake n)) neurons)), s2).
Proof.
  intros Hn Hs. unfold SuperTensor.list_validators_on, bind.
  rewrite Hn, Hs, comprehension_validators. reflexivity.
Qed.

(** C9: for every block, once the neurons and the subnet state are read,
    [list_validators] returns exactly the neurons whose stake is at least
    1000, in order, each with the [total_stake] entry at its uid as
    effective stake when the uid is within the list and the entry is not
    None, and with 0.0 otherwise; it returns, whatever the uids are. *)
Theorem list_validators_stake_filter (b : Z) (s s1 s2 : state)
    (neurons : list Neuron) (st : SubnetState) :
  SuperTensor.list_neurons chain b s = (Return neurons, s1) ->
  SuperTensor.get_subnet_state chain b s1 = (Return st, s2) ->
  exists validators,
    SuperTensor.list_validators chain b s = (Return validators, s2)
    /\ validators
       = map (validator_of (default [] (total_stake st)))
           (List.filter (fun n => Qle_bool 1000 (stake n)) neurons)
    /\ (forall v,
           In v validators <->
           exists n, In n neurons /\ (1000 <= stake n)%Q
                     /\ validator_uid v = uid n /\ validator_hotkey v = hotkey n
                     /\ effective_stake v
                        = match default [] (total_stake st) !! uid n with
                          | Some (Some x) => x
                          | Some None | None => 0%Q
                          end).
Proof.
  intros Hn Hs. eexists. split; [|split; [reflexivity|]].
  - unfold SuperTensor.list_validators. apply (list_validators_on_returns _ _ _ _ _ _ _ _ Hn Hs).
  - intros v. rewrite in_map_iff. split.
    + intros (n & <- & Hin). apply filter_In in Hin as [Hin Hst].
      apply Qle_bool_iff in Hst. exists n. simpl. unfold stake_at.
      repeat split; auto.
    + intros (n & Hin & Hst & Hu & Hh & He). exists n. split.
      * destruct v as [vu vh ve]. simpl in *. subst. unfold validator_of, stake_at.
        f_equal.
      * apply filter_In. split; [exact Hin|]. apply Qle_bool_iff. exact Hst.
Qed.

(** *** Timeout and retry *)

Lemma retry_only_timeout (e : exception) :
  retry_if_exception_type_SuperTensorTimeout e = true <-> e = SuperTensorTimeout.
Proof. destruct e; simpl; split; congruence. Qed.



Lemma make_sync_bounded {A} (request : chain_request) (call : nat -> coroutine A) (s : state) :
  0 <= clock_ms (snd (make_sync request call s)) - clock_ms s <= DEFAULT_TIMEOUT_MS
  /\ (DEFAULT_TIMEOUT_MS < duration_ms (call (length (chain_log s))) ->
      fst (make_sync request call s) = Raise SuperTensorTimeout)
  /\ chain_log (snd (make_sync request call s)) = chain_log s ++ [request].
Proof.
  unfold make_sync, DEFAULT_TIMEOUT_MS.
  destruct (Z.ltb_spec 30000 (duration_ms (call (length (chain_log s))))) as [Hlong|Hshort].
  - simpl. repeat split; auto; lia.
  - split; [|split; [lia|]].
    + destruct (completes _) as [a|e|]; [| destruct e |]; simpl; lia.
    + destruct (completes _) as [a|e|]; [| destruct e |]; reflexivity.
Qed.


(** *** The producer of the prefetch cache *)

Lemma get_current_block_state (s : state) :
  snd (SuperTensor.get_current_block chain s) = log_request ReqCurrentBlock s.
Proof.
  unfold SuperTensor.get_current_block.
  destruct (chain_head chain _) as [a|e|]; [| destruct e |]; reflexivity.
Qed.

Lemma produce_iteration_cases (s : state) :
  match PrecachingSuperTensor.produce_iteration chain s with
  | (PrecachingSuperTensor.Submitted b, s') =>
      exists submitted requested current_block,
        highest_block_submitted s = Some submitted
        /\ highest_block_requested s = Some requested
        /\ fst (SuperTensor.get_current_block chain s) = Return current_block
        /\ b = submitted + 1
        /\ submitted - requested < 10
        /\ submitted < current_block
        /\ b <= current_block
        /\ highest_block_submitted s' = Some b
        /\ highest_block_requested s' = Some requested
        /\ task_queue s' = task_queue s ++ PrecachingSuperTensor.tasks_for b
  | (_, s') =>
      highest_block_submitted s' = highest_block_submitted s
      /\ highest_block_requested s' = highest_block_requested s
      /\ task_queue s' = task_queue s
  end.
Proof.
  unfold PrecachingSuperTensor.produce_iteration.
  destruct (closing s); [auto|].
  pose proof (get_current_block_state s) as Hs1.
  destruct (SuperTensor.get_current_block chain s) as [[current_block|e|] s1];
    simpl in Hs1; subst s1; simpl; auto.
  destruct (highest_block_requested s) as [requested|] eqn:Hr;
    destruct (highest_block_submitted s) as [submitted|] eqn:Hs; simpl; auto.
  unfold CACHE_AHEAD.
  destruct (Z.leb_spec 10 (submitted - requested)); simpl; auto.
  destruct (Z.leb_spec current_block submitted); simpl; auto.
  exists submitted, requested, current_block. repeat split; auto; lia.
Qed.

Lemma run_from_submitted (steps : list PrecachingSuperTensor.step) (s : state) (h : Z) :
  highest_block_submitted s = Some h ->
  exists n : nat,
    task_queue (PrecachingSuperTensor.run chain steps s)
    = task_queue s ++ concat (PrecachingSuperTensor.tasks_for <$> seqZ (h + 1) (Z.of_nat n))
    /\ highest_block_submitted (PrecachingSuperTensor.run chain steps s)
       = Some (h + Z.of_nat n).
Proof.
  revert s h. induction steps as [|st steps IH]; intros s h Hh.
  - exists 0%nat. simpl. rewrite app_nil_r, Z.add_0_r. auto.
  - unfold PrecachingSuperTensor.run. simpl.
    fold (PrecachingSuperTensor.run chain steps (PrecachingSuperTensor.run_step chain st s)).
    destruct st as [|b]; simpl.
    + pose proof (produce_iteration_cases s) as Hc.
      destruct (PrecachingSuperTensor.produce_iteration chain s) as [[| ms | b] s1]; simpl.
      * destruct Hc as (H1 & _ & H3). rewrite Hh in H1.
        destruct (IH s1 h H1) as (n & Hq & Hs). exists n. rewrite Hq, Hs, H3. auto.
      * destruct Hc as (H1 & _ & H3). rewrite Hh in H1.
        destruct (IH s1 h H1) as (n & Hq & Hs). exists n. rewrite Hq, Hs, H3. auto.
      * destruct Hc as (h' & r & cb & H1 & _ & _ & -> & _ & _ & _ & H8 & _ & H10).
        rewrite Hh in H1. injection H1 as <-.
        destruct (IH s1 (h + 1) H8) as (n & Hq & Hs). exists (S n).
        rewrite Hq, Hs, H10. split; [|f_equal; lia].
        rewrite Nat2Z.inj_succ, (seqZ_cons (h + 1) (Z.succ (Z.of_nat n))) by lia.
        rewrite fmap_cons, concat_cons, <- !app_assoc.
        repeat f_equal; lia.
    + destruct (IH (set_highest
                       (Some (Z.max (default 0 (highest_block_requested s)) b))
                       (match highest_block_submitted s with
                        | Some h0 => Some h0
                        | None => Some (b - 1)
                        end) s) h) as (n & Hq & Hs).
      { simpl. rewrite Hh. reflexivity. }
      exists n. rewrite Hq, Hs. auto.
Qed.

Lemma run_from_unset (steps : list PrecachingSuperTensor.step) (s : state) :
  highest_block_submitted s = None ->
  exists (start : Z) (n : nat),
    task_queue (PrecachingSuperTensor.run chain steps s)
    = task_queue s ++ concat (PrecachingSuperTensor.tasks_for <$> seqZ start (Z.of_nat n)).
Proof.
  revert s. induction steps as [|st steps IH]; intros s Hh.
  - exists 0, 0%nat. simpl. rewrite app_nil_r. reflexivity.
  - unfold PrecachingSuperTensor.run. simpl.
    fold (PrecachingSuperTensor.run chain steps (PrecachingSuperTensor.run_step chain st s)).
    destruct st as [|b]; simpl.
    + pose proof (produce_iteration_cases s) as Hc.
      destruct (PrecachingSuperTensor.produce_iteration chain s) as [[| ms | b] s1]; simpl.
      * destruct Hc as (H1 & _ & H3). rewrite Hh in H1.
        destruct (IH s1 H1) as (start & n & Hq). exists start, n. rewrite Hq, H3. auto.
      * destruct Hc as (H1 & _ & H3). rewrite Hh in H1.
        destruct (IH s1 H1) as (start & n & Hq). exists start, n. rewrite Hq, H3. auto.
      * destruct Hc as (h' & r & cb & H1 & _). congruence.
    + destruct (run_from_submitted steps
                  (set_highest (Some (Z.max (default 0 (highest_block_requested s)) b))
                     (match highest_block_submitted s with
                      | Some h0 => Some h0
                      | None => Some (b - 1)
                      end) s) (b - 1)) as (n & Hq & _).
      { simpl. rewrite Hh. reflexivity. }
      exists (b - 1 + 1), n. rewrite Hq. reflexivity.
Qed.

(** C4: a pass of the producer that submits tasks submits them for block
    [highest_submitted + 1], and only when
    [highest_submitted - highest_requested < CACHE_AHEAD = 10] and
    [highest_submitted] is below the current block, so never for a block
    above the current one; any other pass leaves [highest_submitted] and
    the queue alone.  Over a run of producer passes and consumer requests
    the queue grows by the five tasks of consecutive blocks. *)
Theorem producer_submits_consecutive_blocks (steps : list PrecachingSuperTensor.step)
    (s : state) :
  match PrecachingSuperTensor.produce_iteration chain s with
  | (PrecachingSuperTensor.Submitted b, s') =>
      exists submitted requested current_block,
        highest_block_submitted s = Some submitted
        /\ highest_block_requested s = Some requested
        /\ fst (SuperTensor.get_current_block chain s) = Return current_block
        /\ b = submitted + 1
        /\ submitted - requested < CACHE_AHEAD /\ CACHE_AHEAD = 10
        /\ submitted < current_block
        /\ b <= current_block
        /\ highest_block_submitted s' = Some b
        /\ task_queue s' = task_queue s ++ PrecachingSuperTensor.tasks_for b
  | (_, s') =>
      highest_block_submitted s' = highest_block_submitted s
      /\ task_queue s' = task_queue s
  end
  /\ exists (start : Z) (n : nat),
      task_queue (PrecachingSuperTensor.run chain steps s)
      = task_queue s ++ concat (PrecachingSuperTensor.tasks_for <$> seqZ start (Z.of_nat n))
      /\ (forall h, highest_block_submitted s = Some h ->
                    start = h + 1
                    /\ highest_block_submitted (PrecachingSuperTensor.run chain steps s)
                       = Some (h + Z.of_nat n)).
Proof.
  split.
  - pose proof (produce_iteration_cases s) as Hc.
    destruct (PrecachingSuperTensor.produce_iteration chain s) as [[| ms | b] s1].
    + destruct Hc as (H1 & _ & H3). auto.
    + destruct Hc as (H1 & _ & H3). auto.
    + destruct Hc as (h & r & cb & H). exists h, r, cb. unfold CACHE_AHEAD. intuition.
  - destruct (highest_block_submitted s) as [h|] eqn:Hh.
    + destruct (run_from_submitted steps s h Hh) as (n & Hq & Hs).
      exists (h + 1), n. split; [exact Hq|]. intros h' [= <-]. auto.
    + destruct (run_from_unset steps s Hh) as (start & n & Hq).
      exists start, n. split; [exact Hq|]. intros h' [=].
Qed.

(** *** Reads through the prefetch cache *)

Lemma retrying_preserves {A X : Type} (proj : state -> X) (f : M A) :
  (forall s, proj (snd (f s)) = proj s) ->
  (forall w s, proj (time_sleep w s) = proj s) ->
  forall fuel attempt waits s,
    proj (snd (fst (retrying fuel attempt waits f s))) = proj s.
Proof.
  intros Hf Hsleep. induction fuel as [|fuel IH]; intros attempt waits s; [reflexivity|].
  simpl. pose proof (Hf s) as Hs. destruct (f s) as [[a|e|] s1]; simpl in *; auto.
  destruct (retry_if_exception_type_SuperTensorTimeout e); simpl; auto.
  destruct (stop_after_attempt 3 attempt); simpl; auto.
  rewrite IH, Hsleep. exact Hs.
Qed.

Lemma retrying_returns {A : Type} (f : M A) (fuel : nat) (attempt : Z) (waits : list Z)
    (s s' : state) (a : A) (stats : retry_statistics) :
  retrying fuel attempt waits f s = (Return a, s', stats) ->
  exists s0, f s0 = (Return a, s').
Proof.
  revert attempt waits s. induction fuel as [|fuel IH]; intros attempt waits s; [discriminate|].
  simpl. destruct (f s) as [[x|e|] s1] eqn:Hf.
  - intros [= <- <- _]. eauto.
  - destruct (retry_if_exception_type_SuperTensorTimeout e); [|discriminate].
    destruct (stop_after_attempt 3 attempt); [discriminate|]. apply IH.
  - discriminate.
Qed.

Lemma retry_returns {A : Type} (f : M A) (s s' : state) (a : A) :
  RETRY_ON_TIMEOUT f s = (Return a, s') -> exists s0, f s0 = (Return a, s').
Proof.
  unfold RETRY_ON_TIMEOUT, RETRY_ON_TIMEOUT_statistics.
  destruct (retrying 3 1 [] f s) as [[r s1] stats] eqn:Hrun. simpl.
  intros [= -> ->]. eapply retrying_returns. exact Hrun.
Qed.

Lemma retry_first_return {A : Type} (f : M A) (s : state) (a : A) :
  fst (f s) = Return a -> RETRY_ON_TIMEOUT f s = f s.
Proof.
  intros Hf. unfold RETRY_ON_TIMEOUT, RETRY_ON_TIMEOUT_statistics. simpl.
  destruct (f s) as [r s']. simpl in Hf. subst r. reflexivity.
Qed.

Lemma make_sync_cache {A} (request : chain_request) (call : nat -> coroutine A) (s : state) :
  cache (snd (make_sync request call s)) = cache s.
Proof.
  unfold make_sync. destruct (_ <? _); [reflexivity|].
  destruct (completes _) as [a|e|]; [| destruct e |]; reflexivity.
Qed.

Lemma archive_fallback_cache {A} (func : bool -> M A) (s : state) :
  (forall archive s0, cache (snd (func archive s0)) = cache s0) ->
  cache (snd (archive_fallback chain func s)) = cache s.
Proof.
  intros Hf. unfold archive_fallback. pose proof (Hf false s) as H1.
  destruct (func false s) as [[a|e|] s1]; simpl in *; auto.
  destruct e; simpl; auto. destruct (archive_network chain); simpl; auto.
  rewrite Hf. exact H1.
Qed.

(** [get_block_timestamp] never writes to the cache, hit or miss. *)
Lemma get_block_timestamp_leaves_cache (b : Z) (s : state) :
  cache (snd (PrecachingSuperTensor.get_block_timestamp chain b s)) = cache s.
Proof.
  unfold PrecachingSuperTensor.get_block_timestamp, RETRY_ON_TIMEOUT,
    RETRY_ON_TIMEOUT_statistics.
  apply (retrying_preserves cache); [|reflexivity].
  intros s0. unfold bind, PrecachingSuperTensor.set_starting_block. simpl.
  destruct (Cache.get_block_timestamp b _); [reflexivity|].
  destruct (throw_on_cache_miss s0); [reflexivity|].
  unfold SuperTensor._get_block_timestamp.
  rewrite archive_fallback_cache; [reflexivity|].
  intros archive s1. apply make_sync_cache.
Qed.

(** The other four reads leave the value in the cache, and the next read
    of the same block is served from it without a chain request. *)
Lemma get_block_hash_miss_then_hit (b : Z) (s s' : state) (h : string) :
  PrecachingSuperTensor.get_block_hash chain b s = (Return h, s') ->
  Cache.get_block_hash b (cache s') = Some h
  /\ fst (PrecachingSuperTensor.get_block_hash chain b s') = Return h
  /\ chain_log (snd (PrecachingSuperTensor.get_block_hash chain b s')) = chain_log s'.
Proof.
  intros Hread. apply retry_returns in Hread as (s0 & Hbody).
  assert (Hc : Cache.get_block_hash b (cache s') = Some h).
  { revert Hbody. unfold bind, PrecachingSuperTensor.set_starting_block. simpl.
    destruct (Cache.get_block_hash b (cache s0)) as [x|] eqn:Hx.
    - intros [= <- <-]. exact Hx.
    - destruct (throw_on_cache_miss s0); [discriminate|].
      destruct (SuperTensor.get_block_hash chain b _) as [[x|e|] s1]; try discriminate.
      unfold PrecachingSuperTensor.cache_put, ret. simpl. intros [= <- <-].
      unfold Cache.get_block_hash. simpl. apply lookup_insert_eq. }
  split; [exact Hc|].
  unfold PrecachingSuperTensor.get_block_hash.
  rewrite (retry_first_return _ s' h);
    unfold bind, PrecachingSuperTensor.set_starting_block; simpl; rewrite Hc; auto.
Qed.

Lemma get_subnet_state_miss_then_hit (b : Z) (s s' : state) (st : SubnetState) :
  PrecachingSuperTensor.get_subnet_state chain b s = (Return st, s') ->
  Cache.get_subnet_state b (cache s') = Some st
  /\ fst (PrecachingSuperTensor.get_subnet_state chain b s') = Return st
  /\ chain_log (snd (PrecachingSuperTensor.get_subnet_state chain b s')) = chain_log s'.
Proof.
  intros Hread. apply retry_returns in Hread as (s0 & Hbody).
  assert (Hc : Cache.get_subnet_state b (cache s') = Some st).
  { revert Hbody. unfold bind, PrecachingSuperTensor.set_starting_block. simpl.
    destruct (Cache.get_subnet_state b (cache s0)) as [x|] eqn:Hx.
    - intros [= <- <-]. exact Hx.
    - destruct (throw_on_cache_miss s0); [discriminate|].
      destruct (SuperTensor._get_subnet_state chain b _) as [[x|e|] s1]; try discriminate.
      unfold PrecachingSuperTensor.cache_put, ret. simpl. intros [= <- <-].
      unfold Cache.get_subnet_state. simpl. apply lookup_insert_eq. }
  split; [exact Hc|].
  unfold PrecachingSuperTensor.get_subnet_state.
  rewrite (retry_first_return _ s' st);
    unfold bind, PrecachingSuperTensor.set_starting_block; simpl; rewrite Hc; auto.
Qed.

Lemma list_neurons_miss_then_hit (b : Z) (s s' : state) (neurons : list Neuron) :
  PrecachingSuperTensor.list_neurons chain b s = (Return neurons, s') ->
  Cache.get_neurons b (cache s') = Some neurons
  /\ fst (PrecachingSuperTensor.list_neurons chain b s') = Return neurons
  /\ chain_log (snd (PrecachingSuperTensor.list_neurons chain b s')) = chain_log s'.
Proof.
  intros Hread. apply retry_returns in Hread as (s0 & Hbody).
  assert (Hc : Cache.get_neurons b (cache s') = Some neurons).
  { revert Hbody. unfold PrecachingSuperTensor._list_neurons, bind,
      PrecachingSuperTensor.set_starting_block. simpl.
    destruct (Cache.get_neurons b (cache s0)) as [x|] eqn:Hx.
    - intros [= <- <-]. exact Hx.
    - destruct (throw_on_cache_miss s0); [discriminate|].
      destruct (SuperTensor._list_neurons chain b _) as [[x|e|] s1]; try discriminate.
      unfold PrecachingSuperTensor.cache_put, ret. simpl. intros [= <- <-].
      unfold Cache.get_neurons. simpl. apply lookup_insert_eq. }
  split; [exact Hc|].
  unfold PrecachingSuperTensor.list_neurons.
  rewrite (retry_first_return _ s' neurons);
    unfold PrecachingSuperTensor._list_neurons, bind,
      PrecachingSuperTensor.set_starting_block; simpl; rewrite Hc; auto.
Qed.

Lemma list_validators_miss_then_hit (b : Z) (s s' : state) (validators : list ValidatorModel) :
  PrecachingSuperTensor.list_validators chain b s = (Return validators, s') ->
  Cache.get_validators b (cache s') = Some validators
  /\ fst (PrecachingSuperTensor.list_validators chain b s') = Return validators
  /\ chain_log (snd (PrecachingSuperTensor.list_validators chain b s')) = chain_log s'.
Proof.
  intros Hbody.
  assert (Hc : Cache.get_validators b (cache s') = Some validators).
  { revert Hbody. unfold PrecachingSuperTensor.list_validators, bind,
      PrecachingSuperTensor.set_starting_block. simpl.
    destruct (Cache.get_validators b (cache s)) as [x|] eqn:Hx.
    - intros [= <- <-]. exact Hx.
    - destruct (throw_on_cache_miss s); [discriminate|].
      destruct (SuperTensor.list_validators_on _ _ b _) as [[x|e|] s1]; try discriminate.
      unfold PrecachingSuperTensor.cache_put, ret. simpl. intros [= <- <-].
      unfold Cache.get_validators. simpl. apply lookup_insert_eq. }
  split; [exact Hc|].
  unfold PrecachingSuperTensor.list_validators, bind,
    PrecachingSuperTensor.set_starting_block. simpl. rewrite Hc. auto.
Qed.

End SupertensorFacts.

Section SupertensorExamples.
Import Supertensor Fixtures.

Lemma list_validators_stake_filter_witness :
  fst (SuperTensor.list_validators demo_chain 100 (initial_state false))
  = Return [ {| validator_uid := 0; validator_hotkey := "alice"; effective_stake := 5 |};
             {| validator_uid := 7; validator_hotkey := "bob"; effective_stake := 0 |} ].
Proof.
  destruct (list_validators_stake_filter demo_chain 100 (initial_state false)
              (snd (SuperTensor.list_neurons demo_chain 100 (initial_state false)))
              (snd (SuperTensor.get_subnet_state demo_chain 100
                      (snd (SuperTensor.list_neurons demo_chain 100 (initial_state false)))))
              demo_neurons demo_subnet_state)
    as (validators & Hrun & Hv & _).
  - vm_compute. reflexivity.
  - vm_compute. reflexivity.
  - rewrite Hrun, Hv. vm_compute. reflexivity.
Defined.

(** C3, at a miss of the block timestamp: with [throw_on_cache_miss] off
    and an empty cache, [get_block_timestamp 100] returns the chain's
    value and leaves the cache without it, so the read that follows is a
    miss again and asks the chain a second time; a block hash read the
    same way is stored and then served from the cache. *)
Theorem get_block_timestamp_miss_is_not_stored :
  let s0 := initial_state false in
  let s1 := snd (PrecachingSuperTensor.get_block_timestamp demo_chain 100 s0) in
  let s2 := snd (PrecachingSuperTensor.get_block_timestamp demo_chain 100 s1) in
  let h1 := snd (PrecachingSuperTensor.get_block_hash demo_chain 100 s0) in
  let h2 := snd (PrecachingSuperTensor.get_block_hash demo_chain 100 h1) in
  fst (PrecachingSuperTensor.get_block_timestamp demo_chain 100 s0) = Return 1700001200
  /\ Cache.get_block_timestamp 100 (cache s1) = None
  /\ chain_log s1 = [ReqBlockTimestamp false 100]
  /\ chain_log s2 = [ReqBlockTimestamp false 100; ReqBlockTimestamp false 100]
  /\ Cache.get_block_hash 100 (cache h1) = Some "0x100"
  /\ chain_log h2 = [ReqBlockHash false 100].
Proof. vm_compute. repeat split; reflexivity. Qed.

(** A block hash that never comes in time: three attempts, two waits. *)
Example get_block_hash_times_out :
  let '(r, s) := SuperTensor.get_block_hash slow_hash_chain 100 (initial_state false) in
  r = Raise SuperTensorTimeout
  /\ chain_log s = [ReqBlockHash false 100; ReqBlockHash false 100; ReqBlockHash false 100]
  /\ slept_ms s = [100; 200] /\ clock_ms s = 90300.
Proof. vm_compute. repeat split; reflexivity. Qed.


(** The consumer asks for block 1000 with the current block at 1000 (head
    1005): the producer submits 1000 and then waits for the chain. *)
Example producer_stops_at_current_block :
  let s := PrecachingSuperTensor.run demo_chain
             [PrecachingSuperTensor.Request 1000; PrecachingSuperTensor.Produce;
              PrecachingSuperTensor.Produce; PrecachingSuperTensor.Produce]
             (initial_state false) in
  task_queue s = PrecachingSuperTensor.tasks_for 1000
  /\ highest_block_submitted s = Some 1000
  /\ slept_ms s = [100; 100].
Proof. vm_compute. repeat split; reflexivity. Qed.

(** Asked for block 100, far behind the chain, the producer runs ahead of
    the request by CACHE_AHEAD blocks and no further. *)
Example producer_stays_within_cache_ahead :
  let s := PrecachingSuperTensor.run demo_chain
             (PrecachingSuperTensor.Request 100
              :: repeat PrecachingSuperTensor.Produce 14)
             (initial_state false) in
  fst <$> List.filter (fun task => match fst task with NEURONS => true | _ => false end)
            (task_queue s)
  = [NEURONS; NEURONS; NEURONS; NEURONS; NEURONS; NEURONS; NEURONS; NEURONS; NEURONS;
     NEURONS; NEURONS]
  /\ highest_block_submitted s = Some 110
  /\ highest_block_requested s = Some 100
  /\ slept_ms s = [100; 100; 100].
Proof. vm_compute. repeat split; reflexivity. Qed.

End SupertensorExamples.

(** ** Chain oracle and prefetch cache: what else they keep *)
Section SupertensorMore.
Import Supertensor SupertensorReading.
Variable chain : Chain.

Lemma within_cache_ahead_step (st : PrecachingSuperTensor.step) (s : state) :
  within_cache_ahead s -> within_cache_ahead (PrecachingSuperTensor.run_step chain st s).
Proof.
  unfold within_cache_ahead. intros Hinv. destruct st as [|b]; simpl.
  - pose proof (produce_iteration_cases chain s) as Hc.
    destruct (PrecachingSuperTensor.produce_iteration chain s) as [[| ms | blk] s1]; simpl.
    + destruct Hc as (H1 & H2 & H3). rewrite H1, H2, H3. exact Hinv.
    + destruct Hc as (H1 & H2 & H3). rewrite H1, H2, H3. exact Hinv.
    + destruct Hc as (h & r & cb & H1 & H2 & _ & -> & Hlt & _ & _ & H8 & H9 & H10).
      rewrite H8, H9, H10. rewrite H1, H2 in Hinv. destruct Hinv as [Hle Hq].
      unfold CACHE_AHEAD in *. split; [lia|].
      apply Forall_app. split; [exact Hq|].
      unfold PrecachingSuperTensor.tasks_for. repeat constructor; simpl; lia.
  - destruct (highest_block_requested s) as [r|], (highest_block_submitted s) as [h|];
      simpl; try contradiction.
    + destruct Hinv as [Hle Hq]. split; [lia|].
      eapply Forall_impl; [exact Hq|]. simpl. intros task Ht. lia.
    + rewrite Hinv. split; [unfold CACHE_AHEAD; lia|constructor].
Qed.

(** X9: from a new PrecachingSuperTensor on, whatever the consumer
    requests and however often the producer runs, the producer stays
    within CACHE_AHEAD = 10 blocks of the highest block requested, and no
    task in the queue is for a block further ahead than that. *)
Theorem producer_stays_within_cache_ahead_of_requests
    (steps : list PrecachingSuperTensor.step) (throw : bool) :
  let s := PrecachingSuperTensor.run chain steps (initial_state throw) in
  match highest_block_requested s, highest_block_submitted s with
  | None, None => task_queue s = []
  | Some requested, Some submitted =>
      submitted - requested <= 10
      /\ Forall (fun task => snd task <= requested + 10) (task_queue s)
  | _, _ => False
  end.
Proof.
  assert (Hgen : forall s, within_cache_ahead s ->
                           within_cache_ahead (PrecachingSuperTensor.run chain steps s)).
  { induction steps as [|st rest IH]; intros s Hs; [exact Hs|].
    unfold PrecachingSuperTensor.run. simpl. apply IH.
    apply within_cache_ahead_step. exact Hs. }
  apply (Hgen (initial_state throw)). reflexivity.
Qed.

Lemma retry_without_timeout {A : Type} (f : M A) (s : state) :
  fst (f s) <> Raise SuperTensorTimeout -> RETRY_ON_TIMEOUT f s = f s.
Proof.
  intros Hf. unfold RETRY_ON_TIMEOUT, RETRY_ON_TIMEOUT_statistics. simpl.
  destruct (f s) as [[a|e|] s']; simpl in *; try reflexivity.
  destruct (retry_if_exception_type_SuperTensorTimeout e) eqn:He; [|reflexivity].
  apply retry_only_timeout in He. congruence.
Qed.

Ltac served_or_refused :=
  unfold bind, PrecachingSuperTensor.set_starting_block; simpl;
  repeat match goal with
         | H : _ = Some _ |- _ => rewrite H
         | H : _ = None |- _ => rewrite H
         | H : throw_on_cache_miss _ = true |- _ => rewrite H
         end; simpl; auto; try discriminate.

(** X10: a read through the prefetch cache whose value is cached returns
    that value, leaves the cache as it is and asks nothing of the chain,
    with [throw_on_cache_miss] on or off.  With [throw_on_cache_miss] on,
    a read that misses raises PrecachingSuperTensorCacheMiss at once: it
    is not retried, does not sleep and asks nothing of the chain. *)
Theorem cached_reads_and_refused_misses_spare_the_chain (b : Z) (s : state) :
  (forall v, Cache.get_neurons b (cache s) = Some v ->
     let run := PrecachingSuperTensor.list_neurons chain b s in
     fst run = Return v /\ chain_log (snd run) = chain_log s /\ cache (snd run) = cache s)
  /\ (forall v, Cache.get_block_timestamp b (cache s) = Some v ->
     let run := PrecachingSuperTensor.get_block_timestamp chain b s in
     fst run = Return v /\ chain_log (snd run) = chain_log s /\ cache (snd run) = cache s)
  /\ (forall v, Cache.get_block_hash b (cache s) = Some v ->
     let run := PrecachingSuperTensor.get_block_hash chain b s in
     fst run = Return v /\ chain_log (snd run) = chain_log s /\ cache (snd run) = cache s)
  /\ (forall v, Cache.get_subnet_state b (cache s) = Some v ->
     let run := PrecachingSuperTensor.get_subnet_state chain b s in
     fst run = Return v /\ chain_log (snd run) = chain_log s /\ cache (snd run) = cache s)
  /\ (forall v, Cache.get_validators b (cache s) = Some v ->
     let run := PrecachingSuperTensor.list_validators chain b s in
     fst run = Return v /\ chain_log (snd run) = chain_log s /\ cache (snd run) = cache s)
  /\ (throw_on_cache_miss s = true ->
      forall kind,
        cached kind b (cache s) = false ->
        let run := read chain kind b s in
        (exists message, fst run = Raise (PrecachingSuperTensorCacheMiss message))
        /\ chain_log (snd run) = chain_log s
        /\ slept_ms (snd run) = slept_ms s
        /\ cache (snd run) = cache s).
Proof.
  repeat split.
  1-3: unfold PrecachingSuperTensor.list_neurons; rewrite retry_without_timeout;
       unfold PrecachingSuperTensor._list_neurons; served_or_refused.
  1-3: unfold PrecachingSuperTensor.get_block_timestamp; rewrite retry_without_timeout;
       served_or_refused.
  1-3: unfold PrecachingSuperTensor.get_block_hash; rewrite retry_without_timeout;
       served_or_refused.
  1-3: unfold PrecachingSuperTensor.get_subnet_state; rewrite retry_without_timeout;
       served_or_refused.
  1-3: unfold PrecachingSuperTensor.list_validators; served_or_refused.
  all: destruct kind; unfold cached in *; simpl in *;
    match goal with
    | H : bool_decide (is_Some ?x) = false |- _ =>
        apply bool_decide_eq_false in H;
        let Hn := fresh "Hnone" in
        assert (Hn : x = None) by (destruct x; [exfalso; apply H; eauto|reflexivity]);
        clear H
    end;
    unfold read, bind at 1.
  all: try (unfold PrecachingSuperTensor.list_neurons; rewrite retry_without_timeout;
            unfold PrecachingSuperTensor._list_neurons; served_or_refused; eauto; fail).
  all: try (unfold PrecachingSuperTensor.get_block_timestamp; rewrite retry_without_timeout;
            served_or_refused; eauto; fail).
  all: try (unfold PrecachingSuperTensor.get_block_hash; rewrite retry_without_timeout;
            served_or_refused; eauto; fail).
  all: try (unfold PrecachingSuperTensor.get_subnet_state; rewrite retry_without_timeout;
            served_or_refused; eauto; fail).
  all: try (unfold PrecachingSuperTensor.list_validators; served_or_refused; eauto; fail).
Qed.

(** *** The archive node *)

Lemma archive_fallback_make_sync_log {A} (req : bool -> chain_request)
    (call : nat -> bool -> coroutine A) (s : state) :
  exists added,
    chain_log (snd (archive_fallback chain
                      (fun archive => make_sync (req archive) (fun n => call n archive)) s))
    = chain_log s ++ added
    /\ attempt_log (archive_network chain) req added.
Proof.
  unfold archive_fallback, attempt_log.
  pose proof (make_sync_bounded (req false) (fun n => call n false) s) as (_ & _ & Hlite).
  destruct (make_sync (req false) (fun n => call n false) s) as [[a|e|] s1] eqn:Hrun;
    simpl in Hlite; try (exists [req false]; simpl; auto; fail).
  destruct e; try (exists [req false]; simpl; auto; fail).
  destruct (archive_network chain); [|exists [req false]; simpl; auto].
  pose proof (make_sync_bounded (req true) (fun n => call n true) s1) as (_ & _ & Harch).
  exists [req false; req true]. split; [|auto].
  rewrite Harch, Hlite, <- app_assoc. reflexivity.
Qed.

Lemma retrying_log {A} (f : M A) (P : list chain_request -> Prop) :
  (forall s, exists added, chain_log (snd (f s)) = chain_log s ++ added /\ P added) ->
  forall fuel attempt waits s,
  exists attempts,
    chain_log (snd (fst (retrying fuel attempt waits f s))) = chain_log s ++ concat attempts
    /\ Forall P attempts
    /\ (length attempts <= fuel)%nat
    /\ ((0 < fuel)%nat -> (1 <= length attempts)%nat).
Proof.
  intros Hf. induction fuel as [|fuel IH]; intros attempt waits s.
  - exists []. simpl. rewrite app_nil_r. repeat split; auto; lia.
  - simpl. destruct (Hf s) as (added & Hlog & HP).
    assert (Hone : exists attempts,
               chain_log (snd (f s)) = chain_log s ++ concat attempts
               /\ Forall P attempts /\ (length attempts <= S fuel)%nat
               /\ ((0 < S fuel)%nat -> (1 <= length attempts)%nat)).
    { exists [added]. simpl. rewrite app_nil_r. repeat split; auto; lia. }
    destruct (f s) as [[a|e|] s1]; simpl in *; auto.
    destruct (retry_if_exception_type_SuperTensorTimeout e); simpl; auto.
    destruct (stop_after_attempt 3 attempt); simpl; auto.
    destruct (IH (attempt + 1) (waits ++ [wait_exponential 100 100 800 attempt])
                 (time_sleep (wait_exponential 100 100 800 attempt) s1))
      as (attempts & Hrest & HPs & Hlen & _).
    exists (added :: attempts). simpl in *. rewrite Hrest, Hlog, <- app_assoc.
    repeat split; auto; lia.
Qed.

Lemma retry_log {A} (f : M A) (P : list chain_request -> Prop) (s : state) :
  (forall s, exists added, chain_log (snd (f s)) = chain_log s ++ added /\ P added) ->
  exists attempts,
    chain_log (snd (RETRY_ON_TIMEOUT f s)) = chain_log s ++ concat attempts
    /\ (1 <= length attempts <= 3)%nat
    /\ Forall P attempts.
Proof.
  intros Hf. unfold RETRY_ON_TIMEOUT, RETRY_ON_TIMEOUT_statistics.
  destruct (retrying_log f P Hf 3 1 [] s) as (attempts & Hlog & HP & Hle & Hge).
  exists attempts. split; [exact Hlog|]. split; [|exact HP]. split; [apply Hge; lia|exact Hle].
Qed.

(** X11: in a read of the block timestamp, the block hash or the subnet
    state, each of the one to three attempts asks the lite node once, and
    asks the archive node the same thing right after that only if an
    archive network is configured; nothing else is asked of the chain. *)
Theorem reads_ask_the_archive_only_after_the_lite_node (b : Z) (s : state) :
  (exists attempts,
      chain_log (snd (SuperTensor.get_block_timestamp chain b s))
      = chain_log s ++ concat attempts
      /\ (1 <= length attempts <= 3)%nat
      /\ Forall (fun added =>
                   added = [ReqBlockTimestamp false b]
                   \/ (archive_network chain = true
                       /\ added = [ReqBlockTimestamp false b; ReqBlockTimestamp true b]))
                attempts)
  /\ (exists attempts,
      chain_log (snd (SuperTensor.get_block_hash chain b s))
      = chain_log s ++ concat attempts
      /\ (1 <= length attempts <= 3)%nat
      /\ Forall (fun added =>
                   added = [ReqBlockHash false b]
                   \/ (archive_network chain = true
                       /\ added = [ReqBlockHash false b; ReqBlockHash true b]))
                attempts)
  /\ (exists attempts,
      chain_log (snd (SuperTensor.get_subnet_state chain b s))
      = chain_log s ++ concat attempts
      /\ (1 <= length attempts <= 3)%nat
      /\ Forall (fun added =>
                   added = [ReqSubnetState false b]
                   \/ (archive_network chain = true
                       /\ added = [ReqSubnetState false b; ReqSubnetState true b]))
                attempts).
Proof.
  split; [|split].
  - apply (retry_log _ (attempt_log (archive_network chain)
                          (fun archive => ReqBlockTimestamp archive b))).
    intros s0. apply archive_fallback_make_sync_log.
  - apply (retry_log _ (attempt_log (archive_network chain)
                          (fun archive => ReqBlockHash archive b))).
    intros s0. apply archive_fallback_make_sync_log.
  - apply (retry_log _ (attempt_log (archive_network chain)
                          (fun archive => ReqSubnetState archive b))).
    intros s0. apply archive_fallback_make_sync_log.
Qed.

Lemma unknown_block_without_archive {A} (req : bool -> chain_request)
    (call : nat -> bool -> coroutine A) (s : state) :
  archive_network chain = false ->
  duration_ms (call (length (chain_log s)) false) <= DEFAULT_TIMEOUT_MS ->
  completes (call (length (chain_log s)) false) = Raise UnknownBlock ->
  let run := RETRY_ON_TIMEOUT
               (archive_fallback chain
                  (fun archive => make_sync (req archive) (fun n => call n archive))) s in
  fst run = Raise ArchiveSubtensorNotConfigured
  /\ chain_log (snd run) = chain_log s ++ [req false]
  /\ slept_ms (snd run) = slept_ms s.
Proof.
  intros Hno Hfast Hunknown.
  assert (Hbody : archive_fallback chain
                    (fun archive => make_sync (req archive) (fun n => call n archive)) s
                  = (Raise ArchiveSubtensorNotConfigured,
                     advance (Z.max 0 (duration_ms (call (length (chain_log s)) false)))
                       (log_request (req false) s))).
  { unfold archive_fallback, make_sync.
    destruct (Z.ltb_spec DEFAULT_TIMEOUT_MS (duration_ms (call (length (chain_log s)) false)));
      [lia|].
    rewrite Hunknown, Hno. reflexivity. }
  simpl. rewrite retry_without_timeout; rewrite Hbody; simpl; auto; discriminate.
Qed.

(** X12: with no archive network configured, a read of a block hash that
    the lite node answers within the timeout with UnknownBlock raises
    ArchiveSubtensorNotConfigured after that one request: the read is not
    retried and does not sleep. *)
Theorem unknown_block_without_archive_is_not_retried (b : Z) (s : state) :
  archive_network chain = false ->
  duration_ms (chain_block_hash chain (length (chain_log s)) false b) <= 30000 ->
  completes (chain_block_hash chain (length (chain_log s)) false b) = Raise UnknownBlock ->
  let run := SuperTensor.get_block_hash chain b s in
  fst run = Raise ArchiveSubtensorNotConfigured
  /\ chain_log (snd run) = chain_log s ++ [ReqBlockHash false b]
  /\ slept_ms (snd run) = slept_ms s.
Proof.
  intros Hno Hfast Hunknown.
  apply (unknown_block_without_archive (fun archive => ReqBlockHash archive b)
           (fun n archive => chain_block_hash chain n archive b) s Hno Hfast Hunknown).
Qed.

(** *** The deque of neuron lists *)

Lemma make_sync_deque {A} (request : chain_request) (call : nat -> coroutine A) (s : state) :
  _neuron_list_cache (snd (make_sync request call s)) = _neuron_list_cache s.
Proof.
  unfold make_sync. destruct (_ <? _); [reflexivity|].
  destruct (completes _) as [a|e|]; [| destruct e |]; reflexivity.
Qed.

Lemma archive_fallback_preserves {A X} (proj : state -> X) (func : bool -> M A) (s : state) :
  (forall archive s0, proj (snd (func archive s0)) = proj s0) ->
  proj (snd (archive_fallback chain func s)) = proj s.
Proof.
  intros Hf. unfold archive_fallback. pose proof (Hf false s) as H1.
  destruct (func false s) as [[a|e|] s1]; simpl in *; auto.
  destruct e; simpl; auto. destruct (archive_network chain); simpl; auto.
  rewrite Hf. exact H1.
Qed.

Lemma real_list_neurons_deque (b : Z) (s : state) :
  _neuron_list_cache (snd (SuperTensor._real_list_neurons chain b s)) = _neuron_list_cache s.
Proof.
  unfold SuperTensor._real_list_neurons.
  apply (archive_fallback_preserves _neuron_list_cache).
  intros archive s0. apply make_sync_deque.
Qed.

Lemma deque_append_length (x : Z * list Neuron) (d : list (Z * list Neuron)) :
  (length d <= 15)%nat -> (length (SuperTensor.deque_append x d) <= 15)%nat.
Proof.
  intros Hd. unfold SuperTensor.deque_append.
  destruct (Nat.ltb_spec 15 (length (d ++ [x]))) as [Hfull|Hroom]; [|exact Hroom].
  rewrite length_app in Hfull. simpl in Hfull.
  destruct d as [|y d]; simpl in *; [lia|]. rewrite length_app. simpl. lia.
Qed.

Lemma deque_get_append (b : Z) (r : list Neuron) (d : list (Z * list Neuron)) :
  SuperTensor.deque_get b (SuperTensor.deque_append (b, r) d) = Some r.
Proof.
  unfold SuperTensor.deque_get, SuperTensor.deque_append.
  assert (Hlast : forall d0 : list (Z * list Neuron),
             snd <$> last (List.filter (fun p => fst p =? b) (d0 ++ [(b, r)])) = Some r).
  { intros d0. rewrite List.filter_app. simpl. rewrite Z.eqb_refl.
    rewrite last_snoc. reflexivity. }
  destruct d as [|y d]; [apply (Hlast [])|].
  destruct (15 <? length ((y :: d) ++ [(b, r)]))%nat; apply Hlast.
Qed.

Lemma list_neurons_body_deque_length (b : Z) (s : state) :
  (length (_neuron_list_cache s) <= 15)%nat ->
  (length (_neuron_list_cache (snd (SuperTensor._list_neurons chain b s))) <= 15)%nat.
Proof.
  intros Hd. unfold SuperTensor._list_neurons.
  assert (Hmiss :
            (length (_neuron_list_cache
                       (snd ((result <- SuperTensor._real_list_neurons chain b ;;
                              fun s' =>
                                (Return result,
                                 set_neuron_list_cache
                                   (SuperTensor.deque_append (b, result) (_neuron_list_cache s'))
                                   s')) s))) <= 15)%nat).
  { unfold bind. pose proof (real_list_neurons_deque b s) as Hsame.
    destruct (SuperTensor._real_list_neurons chain b s) as [[r|e|] s1]; simpl in *.
    - apply deque_append_length. rewrite Hsame. exact Hd.
    - rewrite Hsame. exact Hd.
    - rewrite Hsame. exact Hd. }
  destruct (SuperTensor.deque_get b (_neuron_list_cache s)) as [[|n hit]|]; auto.
Qed.

Lemma retrying_invariant {A} (Inv : state -> Prop) (f : M A) :
  (forall s, Inv s -> Inv (snd (f s))) ->
  (forall w s, Inv s -> Inv (time_sleep w s)) ->
  forall fuel attempt waits s,
    Inv s -> Inv (snd (fst (retrying fuel attempt waits f s))).
Proof.
  intros Hf Hsleep. induction fuel as [|fuel IH]; intros attempt waits s Hs; [exact Hs|].
  simpl. pose proof (Hf s Hs) as H1. destruct (f s) as [[a|e|] s1]; simpl in *; auto.
  destruct (retry_if_exception_type_SuperTensorTimeout e); simpl; auto.
  destruct (stop_after_attempt 3 attempt); simpl; auto.
Qed.

(** X13: however many neuron lists a SuperTensor is asked for, and
    whatever the chain answers, its deque of neuron lists never holds more
    than 15 of them. *)
Theorem neuron_list_deque_holds_at_most_15 (blocks : list Z) (throw : bool) :
  (length (_neuron_list_cache (list_neurons_each chain blocks (initial_state throw))) <= 15)%nat.
Proof.
  assert (Hgen : forall s, (length (_neuron_list_cache s) <= 15)%nat ->
                 (length (_neuron_list_cache (list_neurons_each chain blocks s)) <= 15)%nat).
  { induction blocks as [|b rest IH]; intros s Hs; [exact Hs|].
    unfold list_neurons_each. simpl. apply IH.
    unfold SuperTensor.list_neurons, RETRY_ON_TIMEOUT, RETRY_ON_TIMEOUT_statistics.
    apply (retrying_invariant (fun s => (length (_neuron_list_cache s) <= 15)%nat)); auto.
    intros s0. apply list_neurons_body_deque_length. }
  apply Hgen. simpl. lia.
Qed.

Lemma list_neurons_body_log (b : Z) (s : state) :
  exists added,
    chain_log (snd (SuperTensor._list_neurons chain b s)) = chain_log s ++ added
    /\ (added = []
        \/ attempt_log (archive_network chain) (fun archive => ReqNeurons archive b) added).
Proof.
  unfold SuperTensor._list_neurons.
  assert (Hmiss : exists added,
             chain_log
               (snd ((result <- SuperTensor._real_list_neurons chain b ;;
                      fun s' =>
                        (Return result,
                         set_neuron_list_cache
                           (SuperTensor.deque_append (b, result) (_neuron_list_cache s'))
                           s')) s)) = chain_log s ++ added
             /\ (added = []
                 \/ attempt_log (archive_network chain)
                      (fun archive => ReqNeurons archive b) added)).
  { unfold bind, SuperTensor._real_list_neurons.
    destruct (archive_fallback_make_sync_log (fun archive => ReqNeurons archive b)
                (fun n archive => chain_neurons chain n archive b) s)
      as (added & Hlog & Hadded).
    exists added. split; [|right; exact Hadded].
    destruct (archive_fallback chain _ s) as [[r|e|] s1]; simpl in *; exact Hlog. }
  destruct (SuperTensor.deque_get b (_neuron_list_cache s)) as [[|n hit]|]; auto.
  exists []. rewrite app_nil_r. auto.
Qed.

Lemma retrying_returns_later {A : Type} (f : M A) (fuel : nat) (attempt : Z)
    (waits : list Z) (s s' : state) (a : A) (stats : retry_statistics) :
  (forall s, (length (chain_log s) <= length (chain_log (snd (f s))))%nat) ->
  retrying fuel attempt waits f s = (Return a, s', stats) ->
  exists s0, f s0 = (Return a, s') /\ (length (chain_log s) <= length (chain_log s0))%nat.
Proof.
  intros Hmono. revert attempt waits s.
  induction fuel as [|fuel IH]; intros attempt waits s; [discriminate|].
  simpl. pose proof (Hmono s) as Hs. destruct (f s) as [[x|e|] s1] eqn:Hf.
  - intros [= <- <- _]. exists s. split; [exact Hf|lia].
  - destruct (retry_if_exception_type_SuperTensorTimeout e); [|discriminate].
    destruct (stop_after_attempt 3 attempt); [discriminate|].
    intros Hrun. apply IH in Hrun as (s0 & Hbody & Hle).
    exists s0. split; [exact Hbody|]. simpl in *. lia.
  - discriminate.
Qed.

(** X14: a successful [SuperTensor.list_neurons] that returned a list with
    at least one neuron is repeated from the deque: the same call made
    again returns the same list and changes nothing, so it asks nothing
    of the chain.  An empty list is never served from the deque: every
    call that returns one has asked the chain. *)
Theorem neuron_list_deque_serves_only_nonempty_lists (b : Z) (s s' : state)
    (neurons : list Neuron) :
  SuperTensor.list_neurons chain b s = (Return neurons, s') ->
  match neurons with
  | [] => (length (chain_log s) < length (chain_log s'))%nat
  | _ :: _ => SuperTensor.list_neurons chain b s' = (Return neurons, s')
  end.
Proof.
  unfold SuperTensor.list_neurons at 1, RETRY_ON_TIMEOUT, RETRY_ON_TIMEOUT_statistics.
  destruct (retrying 3 1 [] (SuperTensor._list_neurons chain b) s) as [[r s1] stats] eqn:Hrun.
  simpl. intros [= -> ->].
  apply retrying_returns_later in Hrun as (s0 & Hbody & Hle).
  2:{ intros s2. destruct (list_neurons_body_log b s2) as (added & -> & _).
      rewrite length_app. lia. }
  revert Hbody. unfold SuperTensor._list_neurons.
  destruct (SuperTensor.deque_get b (_neuron_list_cache s0)) as [[|n hit]|] eqn:Hget.
  2:{ intros [= <- <-]. unfold SuperTensor.list_neurons.
      rewrite (retry_first_return _ s0 (n :: hit));
        unfold SuperTensor._list_neurons; rewrite Hget; reflexivity. }
  all: unfold bind, SuperTensor._real_list_neurons;
    destruct (archive_fallback_make_sync_log (fun archive => ReqNeurons archive b)
                (fun n archive => chain_neurons chain n archive b) s0)
      as (added & Hlog & Hadded);
    pose proof (real_list_neurons_deque b s0) as Hdeque;
    unfold SuperTensor._real_list_neurons in Hdeque;
    destruct (archive_fallback chain _ s0) as [[r|e|] s1]; try discriminate;
    simpl in *; intros [= <- <-];
    (destruct r as [|n r];
     [ simpl; rewrite Hlog, length_app;
       destruct Hadded as [->|[_ ->]]; simpl; lia
     | unfold SuperTensor.list_neurons;
       rewrite (retry_first_return _ _ (n :: r));
       unfold SuperTensor._list_neurons; simpl;
       rewrite deque_get_append; reflexivity ]).
Qed.

(** *** What the plain reads leave alone *)

Section PlainReads.
  Context {X : Type} (proj : state -> X).
  Hypothesis proj_log : forall r s, proj (log_request r s) = proj s.
  Hypothesis proj_advance : forall d s, proj (advance d s) = proj s.
  Hypothesis proj_sleep : forall d s, proj (time_sleep d s) = proj s.
  Hypothesis proj_deque : forall c s, proj (set_neuron_list_cache c s) = proj s.

Lemma make_sync_keeps {A} (request : chain_request) (call : nat -> coroutine A)
    (s : state) :
  proj (snd (make_sync request call s)) = proj s.
Proof.
  unfold make_sync. destruct (_ <? _); simpl; [rewrite proj_advance; apply proj_log|].
  destruct (completes _) as [a|e|]; [| destruct e |]; simpl;
    rewrite proj_advance; apply proj_log.
Qed.

Lemma fallback_keeps {A} (req : bool -> chain_request) (call : nat -> bool -> coroutine A)
    (s : state) :
  proj (snd (archive_fallback chain
               (fun archive => make_sync (req archive) (fun n => call n archive)) s))
  = proj s.
Proof.
  apply (archive_fallback_preserves proj). intros archive s0. apply make_sync_keeps.
Qed.

Lemma retry_keeps {A} (f : M A) (s : state) :
  (forall s0, proj (snd (f s0)) = proj s0) -> proj (snd (RETRY_ON_TIMEOUT f s)) = proj s.
Proof.
  intros Hf. unfold RETRY_ON_TIMEOUT, RETRY_ON_TIMEOUT_statistics.
  apply (retrying_preserves proj); auto.
Qed.

Lemma plain_list_neurons_body_keeps (b : Z) (s : state) :
  proj (snd (SuperTensor._list_neurons chain b s)) = proj s.
Proof.
  unfold SuperTensor._list_neurons.
  assert (Hmiss :
            proj (snd ((result <- SuperTensor._real_list_neurons chain b ;;
                        fun s' =>
                          (Return result,
                           set_neuron_list_cache
                             (SuperTensor.deque_append (b, result) (_neuron_list_cache s'))
                             s')) s)) = proj s).
  { unfold bind, SuperTensor._real_list_neurons.
    pose proof (fallback_keeps (fun archive => ReqNeurons archive b)
                  (fun n archive => chain_neurons chain n archive b) s) as Hsame.
    destruct (archive_fallback chain _ s) as [[r|e|] s1]; simpl in *; auto.
    rewrite proj_deque. exact Hsame. }
  destruct (SuperTensor.deque_get b (_neuron_list_cache s)) as [[|n hit]|]; auto.
Qed.

Lemma plain_list_neurons_keeps (b : Z) (s : state) :
  proj (snd (SuperTensor.list_neurons chain b s)) = proj s.
Proof. apply retry_keeps. intros s0. apply plain_list_neurons_body_keeps. Qed.

Lemma plain_get_block_timestamp_keeps (b : Z) (s : state) :
  proj (snd (SuperTensor.get_block_timestamp chain b s)) = proj s.
Proof.
  apply retry_keeps. intros s0.
  apply (fallback_keeps (fun archive => ReqBlockTimestamp archive b)
           (fun n archive => chain_block_timestamp chain n archive b)).
Qed.

Lemma plain_get_block_hash_keeps (b : Z) (s : state) :
  proj (snd (SuperTensor.get_block_hash chain b s)) = proj s.
Proof.
  apply retry_keeps. intros s0.
  apply (fallback_keeps (fun archive => ReqBlockHash archive b)
           (fun n archive => chain_block_hash chain n archive b)).
Qed.

Lemma plain_get_subnet_state_body_keeps (b : Z) (s : state) :
  proj (snd (SuperTensor._get_subnet_state chain b s)) = proj s.
Proof.
  apply (fallback_keeps (fun archive => ReqSubnetState archive b)
           (fun n archive => chain_subnet_state chain n archive b)).
Qed.

Lemma plain_get_subnet_state_keeps (b : Z) (s : state) :
  proj (snd (SuperTensor.get_subnet_state chain b s)) = proj s.
Proof. apply retry_keeps. intros s0. apply plain_get_subnet_state_body_keeps. Qed.

Lemma list_validators_on_keeps (ln : Z -> M (list Neuron)) (gs : Z -> M SubnetState)
    (b : Z) (s : state) :
  (forall s0, proj (snd (ln b s0)) = proj s0) ->
  (forall s0, proj (snd (gs b s0)) = proj s0) ->
  proj (snd (SuperTensor.list_validators_on ln gs b s)) = proj s.
Proof.
  intros Hln Hgs. unfold SuperTensor.list_validators_on, bind.
  pose proof (Hln s) as H1. destruct (ln b s) as [[neurons|e|] s1]; simpl in *; auto.
  pose proof (Hgs s1) as H2. destruct (gs b s1) as [[st|e|] s2]; simpl in *; congruence.
Qed.

Lemma plain_list_validators_keeps (b : Z) (s : state) :
  proj (snd (SuperTensor.list_validators chain b s)) = proj s.
Proof.
  apply list_validators_on_keeps; intros s0;
    [apply plain_list_neurons_keeps|apply plain_get_subnet_state_keeps].
Qed.

End PlainReads.

(** *** What is cached stays cached *)

Lemma cache_extends_refl (c : InMemoryCache) : cache_extends c c.
Proof. unfold cache_extends. repeat split; reflexivity. Qed.

Lemma cache_extends_trans (c1 c2 c3 : InMemoryCache) :
  cache_extends c1 c2 -> cache_extends c2 c3 -> cache_extends c1 c3.
Proof.
  unfold cache_extends. intros (?&?&?&?&?) (?&?&?&?&?).
  repeat split; etrans; eauto.
Qed.

Lemma put_neurons_extends (b : Z) (v : list Neuron) (c : InMemoryCache) :
  Cache.get_neurons b c = None -> cache_extends c (Cache.put_neurons b v c).
Proof.
  intros Hnone. unfold cache_extends. simpl. repeat split; try reflexivity.
  apply insert_subseteq. exact Hnone.
Qed.

Lemma put_block_timestamp_extends (b : Z) (v : Z) (c : InMemoryCache) :
  Cache.get_block_timestamp b c = None -> cache_extends c (Cache.put_block_timestamp b v c).
Proof.
  intros Hnone. unfold cache_extends. simpl. repeat split; try reflexivity.
  apply insert_subseteq. exact Hnone.
Qed.

Lemma put_block_hash_extends (b : Z) (v : string) (c : InMemoryCache) :
  Cache.get_block_hash b c = None -> cache_extends c (Cache.put_block_hash b v c).
Proof.
  intros Hnone. unfold cache_extends. simpl. repeat split; try reflexivity.
  apply insert_subseteq. exact Hnone.
Qed.

Lemma put_subnet_state_extends (b : Z) (v : SubnetState) (c : InMemoryCache) :
  Cache.get_subnet_state b c = None -> cache_extends c (Cache.put_subnet_state b v c).
Proof.
  intros Hnone. unfold cache_extends. simpl. repeat split; try reflexivity.
  apply insert_subseteq. exact Hnone.
Qed.

Lemma put_validators_extends (b : Z) (v : list ValidatorModel) (c : InMemoryCache) :
  Cache.get_validators b c = None -> cache_extends c (Cache.put_validators b v c).
Proof.
  intros Hnone. unfold cache_extends. simpl. repeat split; try reflexivity.
  apply insert_subseteq. exact Hnone.
Qed.

Lemma cached_extends (kind : read_kind) (b : Z) (c c' : InMemoryCache) :
  cache_extends c c' -> cached kind b c = true -> cached kind b c' = true.
Proof.
  intros (H1 & H2 & H3 & H4 & H5) Hc.
  destruct kind; unfold cached in *; apply bool_decide_eq_true in Hc;
    apply bool_decide_eq_true; destruct Hc as [v Hv]; exists v;
    unfold Cache.get_neurons, Cache.get_block_timestamp, Cache.get_block_hash,
      Cache.get_subnet_state, Cache.get_validators in *;
    eapply lookup_weaken; eauto.
Qed.

Lemma cache_grows_refl (s : state) : cache_grows s s.
Proof. split; [apply cache_extends_refl|reflexivity]. Qed.

Lemma cache_grows_trans (s1 s2 s3 : state) :
  cache_grows s1 s2 -> cache_grows s2 s3 -> cache_grows s1 s3.
Proof.
  intros [H1 V1] [H2 V2]. split; [eapply cache_extends_trans; eauto|congruence].
Qed.

Lemma retry_rel {A} (R : state -> state -> Prop) (f : M A) (s : state) :
  (forall s0, R s0 s0) ->
  (forall a b c, R a b -> R b c -> R a c) ->
  (forall s0, R s0 (snd (f s0))) ->
  (forall w s0, R s0 (time_sleep w s0)) ->
  R s (snd (RETRY_ON_TIMEOUT f s)).
Proof.
  intros Hrefl Htrans Hf Hsleep. unfold RETRY_ON_TIMEOUT, RETRY_ON_TIMEOUT_statistics.
  apply (retrying_invariant (R s)); eauto.
Qed.

Ltac same_cache := split; [apply cache_extends_refl|reflexivity].

Lemma precaching_list_neurons_grows (b : Z) (s : state) :
  cache_grows s (snd (PrecachingSuperTensor.list_neurons chain b s)).
Proof.
  apply (retry_rel cache_grows);
    [apply cache_grows_refl|apply cache_grows_trans| |intros; same_cache].
  intros s0. unfold PrecachingSuperTensor._list_neurons, bind,
    PrecachingSuperTensor.set_starting_block. simpl.
  destruct (Cache.get_neurons b (cache s0)) eqn:Hget; [same_cache|].
  destruct (throw_on_cache_miss s0); [same_cache|].
  match goal with
  | |- context [SuperTensor._list_neurons chain b ?s1] =>
      assert (Hsame : cache (snd (SuperTensor._list_neurons chain b s1)) = cache s1)
        by (apply plain_list_neurons_body_keeps; reflexivity);
      destruct (SuperTensor._list_neurons chain b s1) as [[r|e|] s2]
  end; unfold PrecachingSuperTensor.cache_put, ret, cache_grows; simpl in *.
  - rewrite Hsame. split; [apply put_neurons_extends; exact Hget|reflexivity].
  - rewrite Hsame. same_cache.
  - rewrite Hsame. same_cache.
Qed.

Lemma precaching_get_subnet_state_grows (b : Z) (s : state) :
  cache_grows s (snd (PrecachingSuperTensor.get_subnet_state chain b s)).
Proof.
  apply (retry_rel cache_grows);
    [apply cache_grows_refl|apply cache_grows_trans| |intros; same_cache].
  intros s0. unfold bind, PrecachingSuperTensor.set_starting_block. simpl.
  destruct (Cache.get_subnet_state b (cache s0)) eqn:Hget; [same_cache|].
  destruct (throw_on_cache_miss s0); [same_cache|].
  match goal with
  | |- context [SuperTensor._get_subnet_state chain b ?s1] =>
      assert (Hsame : cache (snd (SuperTensor._get_subnet_state chain b s1)) = cache s1)
        by (apply plain_get_subnet_state_body_keeps; reflexivity);
      destruct (SuperTensor._get_subnet_state chain b s1) as [[r|e|] s2]
  end; unfold PrecachingSuperTensor.cache_put, ret, cache_grows; simpl in *.
  - rewrite Hsame. split; [apply put_subnet_state_extends; exact Hget|reflexivity].
  - rewrite Hsame. same_cache.
  - rewrite Hsame. same_cache.
Qed.

Lemma precaching_get_block_hash_extends (b : Z) (s : state) :
  cache_extends (cache s) (cache (snd (PrecachingSuperTensor.get_block_hash chain b s))).
Proof.
  apply (retry_rel (fun s s' => cache_extends (cache s) (cache s')));
    [intros; apply cache_extends_refl|intros a c d; apply cache_extends_trans|
     |intros; apply cache_extends_refl].
  intros s0. unfold bind, PrecachingSuperTensor.set_starting_block. simpl.
  destruct (Cache.get_block_hash b (cache s0)) eqn:Hget; [apply cache_extends_refl|].
  destruct (throw_on_cache_miss s0); [apply cache_extends_refl|].
  match goal with
  | |- context [SuperTensor.get_block_hash chain b ?s1] =>
      assert (Hsame : cache (snd (SuperTensor.get_block_hash chain b s1)) = cache s1)
        by (apply plain_get_block_hash_keeps; reflexivity);
      destruct (SuperTensor.get_block_hash chain b s1) as [[r|e|] s2]
  end; unfold PrecachingSuperTensor.cache_put, ret; simpl in *; rewrite Hsame.
  - apply put_block_hash_extends. exact Hget.
  - apply cache_extends_refl.
  - apply cache_extends_refl.
Qed.

Lemma precaching_list_validators_extends (b : Z) (s : state) :
  cache_extends (cache s) (cache (snd (PrecachingSuperTensor.list_validators chain b s))).
Proof.
  unfold PrecachingSuperTensor.list_validators, bind,
    PrecachingSuperTensor.set_starting_block. simpl.
  destruct (Cache.get_validators b (cache s)) eqn:Hget; [apply cache_extends_refl|].
  destruct (throw_on_cache_miss s); [apply cache_extends_refl|].
  match goal with
  | |- context [SuperTensor.list_validators_on ?ln ?gs b ?s1] =>
      assert (Hgrows : cache_grows s1 (snd (SuperTensor.list_validators_on ln gs b s1)));
      [|destruct (SuperTensor.list_validators_on ln gs b s1) as [[r|e|] s2]]
  end.
  { unfold SuperTensor.list_validators_on, bind.
    match goal with
    | |- context [PrecachingSuperTensor.list_neurons chain b ?s1] =>
        pose proof (precaching_list_neurons_grows b s1) as H1;
        destruct (PrecachingSuperTensor.list_neurons chain b s1) as [[neurons|e|] s2]
    end; simpl in *; auto.
    pose proof (precaching_get_subnet_state_grows b s2) as H2.
    destruct (PrecachingSuperTensor.get_subnet_state chain b s2) as [[st|e|] s3];
      simpl in *; eapply cache_grows_trans; eauto. }
  all: unfold PrecachingSuperTensor.cache_put, ret; simpl in *;
    destruct Hgrows as [Hext Hval]; simpl in *; auto.
  eapply cache_extends_trans; [exact Hext|].
  apply put_validators_extends. unfold Cache.get_validators in *. rewrite Hval. exact Hget.
Qed.

Lemma read_extends (kind : read_kind) (b : Z) (s : state) :
  cache_extends (cache s) (cache (snd (read chain kind b s))).
Proof.
  assert (Hforget : forall {A} (m : M A) s0,
             snd ((_ <- m ;; ret tt) s0) = snd (m s0)).
  { intros A m s0. unfold bind, ret. destruct (m s0) as [[a|e|] s1]; reflexivity. }
  destruct kind; unfold read; rewrite Hforget.
  - apply precaching_list_neurons_grows.
  - rewrite get_block_timestamp_leaves_cache. apply cache_extends_refl.
  - apply precaching_get_block_hash_extends.
  - apply precaching_get_subnet_state_grows.
  - apply precaching_list_validators_extends.
Qed.

Lemma read_served (kind : read_kind) (b : Z) (s : state) :
  cached kind b (cache s) = true ->
  fst (read chain kind b s) = Return tt
  /\ chain_log (snd (read chain kind b s)) = chain_log s
  /\ cache (snd (read chain kind b s)) = cache s.
Proof.
  intros Hc. destruct kind; unfold cached in Hc; apply bool_decide_eq_true in Hc;
    destruct Hc as [v Hv]; unfold read.
  - assert (Hrun : PrecachingSuperTensor.list_neurons chain b s
                   = (Return v, snd (PrecachingSuperTensor.set_starting_block b s))).
    { unfold PrecachingSuperTensor.list_neurons. rewrite retry_without_timeout;
        unfold PrecachingSuperTensor._list_neurons, bind,
          PrecachingSuperTensor.set_starting_block; simpl; rewrite Hv;
        [reflexivity|discriminate]. }
    unfold bind. rewrite Hrun. simpl. auto.
  - assert (Hrun : PrecachingSuperTensor.get_block_timestamp chain b s
                   = (Return v, snd (PrecachingSuperTensor.set_starting_block b s))).
    { unfold PrecachingSuperTensor.get_block_timestamp. rewrite retry_without_timeout;
        unfold bind, PrecachingSuperTensor.set_starting_block; simpl; rewrite Hv;
        [reflexivity|discriminate]. }
    unfold bind. rewrite Hrun. simpl. auto.
  - assert (Hrun : PrecachingSuperTensor.get_block_hash chain b s
                   = (Return v, snd (PrecachingSuperTensor.set_starting_block b s))).
    { unfold PrecachingSuperTensor.get_block_hash. rewrite retry_without_timeout;
        unfold bind, PrecachingSuperTensor.set_starting_block; simpl; rewrite Hv;
        [reflexivity|discriminate]. }
    unfold bind. rewrite Hrun. simpl. auto.
  - assert (Hrun : PrecachingSuperTensor.get_subnet_state chain b s
                   = (Return v, snd (PrecachingSuperTensor.set_starting_block b s))).
    { unfold PrecachingSuperTensor.get_subnet_state. rewrite retry_without_timeout;
        unfold bind, PrecachingSuperTensor.set_starting_block; simpl; rewrite Hv;
        [reflexivity|discriminate]. }
    unfold bind. rewrite Hrun. simpl. auto.
  - assert (Hrun : PrecachingSuperTensor.list_validators chain b s
                   = (Return v, snd (PrecachingSuperTensor.set_starting_block b s))).
    { unfold PrecachingSuperTensor.list_validators, bind,
        PrecachingSuperTensor.set_starting_block; simpl; rewrite Hv. reflexivity. }
    unfold bind. rewrite Hrun. simpl. auto.
Qed.

(** *** Workers *)

Lemma fetch_and_put_cases {A} (task : TaskType) (b : Z) (deque : list (Z * list Neuron))
    (fetch : M A) (put : A -> InMemoryCache -> InMemoryCache) (s : state) :
  (forall s0, cache (snd (fetch s0)) = cache s0) ->
  (forall s0, task_queue (snd (fetch s0)) = task_queue s0) ->
  let '(w, _, s') := fetch_and_put task b deque fetch put s in
  task_queue s' = task_queue s
  /\ match w with
     | Finished t b' => t = task /\ b' = b /\ exists v, cache s' = put v (cache s)
     | Failed t b' e =>
         t = task /\ b' = b /\ cache s' = cache s
         /\ (e <> ArchiveSubtensorNotConfigured -> last (slept_ms s') = Some 1000)
     | WorkerWaits => cache s' = cache s
     | _ => False
     end.
Proof.
  intros Hc Hq. unfold fetch_and_put, on_super_tensor.
  pose proof (Hc (set_neuron_list_cache deque s)) as Hc1.
  pose proof (Hq (set_neuron_list_cache deque s)) as Hq1.
  destruct (fetch (set_neuron_list_cache deque s)) as [[v|e|] s1]; simpl in *.
  - split; [exact Hq1|]. repeat split. exists v. rewrite Hc1. reflexivity.
  - destruct e; simpl; (split; [exact Hq1|]); repeat split; auto;
      try (intros _; apply last_snoc); congruence.
  - auto.
Qed.

Lemma worker_pass_cases (deque : list (Z * list Neuron)) (s : state) :
  let '(w, _, s') := worker_iteration chain deque s in
  cache_extends (cache s) (cache s')
  /\ match w with
     | WorkerQuit =>
         (closing s = true /\ s' = s)
         \/ exists b, task_queue s = (THE_END, b) :: task_queue s'
     | WorkerWaits => cache s' = cache s
     | Skipped t b =>
         task_queue s = (t, b) :: task_queue s'
         /\ chain_log s' = chain_log s
         /\ cache s' = cache s
         /\ exists kind, read_of t = Some kind /\ cached kind b (cache s) = true
     | Finished t b =>
         task_queue s = (t, b) :: task_queue s'
         /\ exists kind, read_of t = Some kind
                         /\ cached kind b (cache s) = false
                         /\ cached kind b (cache s') = true
     | Failed t b e =>
         task_queue s = (t, b) :: task_queue s'
         /\ cache s' = cache s
         /\ (e <> ArchiveSubtensorNotConfigured -> last (slept_ms s') = Some 1000)
     end.
Proof.
  unfold worker_iteration.
  destruct (closing s) eqn:Hclosing; [split; [apply cache_extends_refl|auto]|].
  destruct (task_queue s) as [|[task b] rest] eqn:Hqueue;
    [split; [apply cache_extends_refl|reflexivity]|].
  destruct task.
  6:{ split; [apply cache_extends_refl|]. right. exists b. reflexivity. }
  - destruct (Cache.get_neurons b (cache (set_task_queue rest s))) eqn:Hget.
    + split; [apply cache_extends_refl|]. repeat split.
      exists ReadNeurons. split; [reflexivity|]. unfold cached. simpl in Hget.
      rewrite Hget. reflexivity.
    + pose proof (fetch_and_put_cases NEURONS b deque
                    (SuperTensor.list_neurons chain b) (Cache.put_neurons b)
                    (set_task_queue rest s)) as Hcases.
      destruct (fetch_and_put _ _ _ _ _ _) as [[w d] s'].
      destruct Hcases as [Hq Hw];
        [intros; apply plain_list_neurons_keeps; reflexivity
        |intros; apply plain_list_neurons_keeps; reflexivity|].
      simpl in Hq, Hget, Hw. rewrite Hq.
      destruct w; try contradiction.
      * rewrite Hw. split; [apply cache_extends_refl|reflexivity].
      * destruct Hw as (-> & -> & v & ->).
        split; [apply put_neurons_extends; exact Hget|]. split; [reflexivity|].
        exists ReadNeurons. unfold cached. rewrite Hget. repeat split.
        unfold Cache.get_neurons. simpl. rewrite lookup_insert_eq. reflexivity.
      * destruct Hw as (-> & -> & -> & Hsleep).
        split; [apply cache_extends_refl|]. repeat split. exact Hsleep.
  - destruct (Cache.get_block_timestamp b (cache (set_task_queue rest s))) eqn:Hget.
    + split; [apply cache_extends_refl|]. repeat split.
      exists ReadTimestamp. split; [reflexivity|]. unfold cached. simpl in Hget.
      rewrite Hget. reflexivity.
    + pose proof (fetch_and_put_cases BLOCK_TIMESTAMP b deque
                    (SuperTensor.get_block_timestamp chain b) (Cache.put_block_timestamp b)
                    (set_task_queue rest s)) as Hcases.
      destruct (fetch_and_put _ _ _ _ _ _) as [[w d] s'].
      destruct Hcases as [Hq Hw];
        [intros; apply plain_get_block_timestamp_keeps; reflexivity
        |intros; apply plain_get_block_timestamp_keeps; reflexivity|].
      simpl in Hq, Hget, Hw. rewrite Hq.
      destruct w; try contradiction.
      * rewrite Hw. split; [apply cache_extends_refl|reflexivity].
      * destruct Hw as (-> & -> & v & ->).
        split; [apply put_block_timestamp_extends; exact Hget|]. split; [reflexivity|].
        exists ReadTimestamp. unfold cached. rewrite Hget. repeat split.
        unfold Cache.get_block_timestamp. simpl. rewrite lookup_insert_eq. reflexivity.
      * destruct Hw as (-> & -> & -> & Hsleep).
        split; [apply cache_extends_refl|]. repeat split. exact Hsleep.
  - destruct (Cache.get_block_hash b (cache (set_task_queue rest s))) eqn:Hget.
    + split; [apply cache_extends_refl|]. repeat split.
      exists ReadHash. split; [reflexivity|]. unfold cached. simpl in Hget.
      rewrite Hget. reflexivity.
    + pose proof (fetch_and_put_cases BLOCK_HASH b deque
                    (SuperTensor.get_block_hash chain b) (Cache.put_block_hash b)
                    (set_task_queue rest s)) as Hcases.
      destruct (fetch_and_put _ _ _ _ _ _) as [[w d] s'].
      destruct Hcases as [Hq Hw];
        [intros; apply plain_get_block_hash_keeps; reflexivity
        |intros; apply plain_get_block_hash_keeps; reflexivity|].
      simpl in Hq, Hget, Hw. rewrite Hq.
      destruct w; try contradiction.
      * rewrite Hw. split; [apply cache_extends_refl|reflexivity].
      * destruct Hw as (-> & -> & v & ->).
        split; [apply put_block_hash_extends; exact Hget|]. split; [reflexivity|].
        exists ReadHash. unfold cached. rewrite Hget. repeat split.
        unfold Cache.get_block_hash. simpl. rewrite lookup_insert_eq. reflexivity.
      * destruct Hw as (-> & -> & -> & Hsleep).
        split; [apply cache_extends_refl|]. repeat split. exact Hsleep.
  - destruct (Cache.get_subnet_state b (cache (set_task_queue rest s))) eqn:Hget.
    + split; [apply cache_extends_refl|]. repeat split.
      exists ReadSubnetState. split; [reflexivity|]. unfold cached. simpl in Hget.
      rewrite Hget. reflexivity.
    + pose proof (fetch_and_put_cases SUBNET_STATE b deque
                    (SuperTensor.get_subnet_state chain b) (Cache.put_subnet_state b)
                    (set_task_queue rest s)) as Hcases.
      destruct (fetch_and_put _ _ _ _ _ _) as [[w d] s'].
      destruct Hcases as [Hq Hw];
        [intros; apply plain_get_subnet_state_keeps; reflexivity
        |intros; apply plain_get_subnet_state_keeps; reflexivity|].
      simpl in Hq, Hget, Hw. rewrite Hq.
      destruct w; try contradiction.
      * rewrite Hw. split; [apply cache_extends_refl|reflexivity].
      * destruct Hw as (-> & -> & v & ->).
        split; [apply put_subnet_state_extends; exact Hget|]. split; [reflexivity|].
        exists ReadSubnetState. unfold cached. rewrite Hget. repeat split.
        unfold Cache.get_subnet_state. simpl. rewrite lookup_insert_eq. reflexivity.
      * destruct Hw as (-> & -> & -> & Hsleep).
        split; [apply cache_extends_refl|]. repeat split. exact Hsleep.
  - destruct (Cache.get_validators b (cache (set_task_queue rest s))) eqn:Hget.
    + split; [apply cache_extends_refl|]. repeat split.
      exists ReadValidators. split; [reflexivity|]. unfold cached. simpl in Hget.
      rewrite Hget. reflexivity.
    + pose proof (fetch_and_put_cases VALIDATORS b deque
                    (SuperTensor.list_validators chain b) (Cache.put_validators b)
                    (set_task_queue rest s)) as Hcases.
      destruct (fetch_and_put _ _ _ _ _ _) as [[w d] s'].
      destruct Hcases as [Hq Hw];
        [intros; apply plain_list_validators_keeps; reflexivity
        |intros; apply plain_list_validators_keeps; reflexivity|].
      simpl in Hq, Hget, Hw. rewrite Hq.
      destruct w; try contradiction.
      * rewrite Hw. split; [apply cache_extends_refl|reflexivity].
      * destruct Hw as (-> & -> & v & ->).
        split; [apply put_validators_extends; exact Hget|]. split; [reflexivity|].
        exists ReadValidators. unfold cached. rewrite Hget. repeat split.
        unfold Cache.get_validators. simpl. rewrite lookup_insert_eq. reflexivity.
      * destruct Hw as (-> & -> & -> & Hsleep).
        split; [apply cache_extends_refl|]. repeat split. exact Hsleep.
Qed.


Lemma produce_iteration_cache (s : state) :
  cache (snd (PrecachingSuperTensor.produce_iteration chain s)) = cache s.
Proof.
  unfold PrecachingSuperTensor.produce_iteration.
  destruct (closing s); [reflexivity|].
  pose proof (get_current_block_state chain s) as Hs1.
  destruct (SuperTensor.get_current_block chain s) as [[current_block|e|] s1];
    simpl in Hs1; subst s1; simpl; auto.
  destruct (highest_block_requested s), (highest_block_submitted s); simpl; auto.
  destruct (_ <=? _); simpl; auto. destruct (_ <=? _); simpl; auto.
Qed.

Lemma take_turn_extends (t : turn) (p : pool) :
  cache_extends (cache (shared p)) (cache (shared (snd (take_turn chain t p)))).
Proof.
  destruct t as [|ind|kind b]; simpl.
  - rewrite produce_iteration_cache. apply cache_extends_refl.
  - pose proof (worker_pass_cases (default [] (super_tensors p !! ind)) (shared p)) as Hw.
    destruct (worker_iteration _ _ _) as [[w d] s']. simpl. apply Hw.
  - apply read_extends.
Qed.

Lemma take_turns_extends (turns : list turn) (p : pool) :
  cache_extends (cache (shared p)) (cache (shared (snd (take_turns chain turns p)))).
Proof.
  revert p. induction turns as [|t rest IH]; intros p; [apply cache_extends_refl|].
  simpl. pose proof (take_turn_extends t p) as H1.
  destruct (take_turn chain t p) as [w p1]. specialize (IH p1).
  destruct (take_turns chain rest p1) as [ws p2]. simpl in *.
  eapply cache_extends_trans; eauto.
Qed.

(** X16: with the producer, the workers and the consumer taking turns in
    any order, a value that is in the prefetch cache stays there as it
    is: no turn removes it or puts another value in its place. *)
Theorem cached_values_outlive_every_turn (turns : list turn) (p : pool) :
  let c := cache (shared p) in
  let c' := cache (shared (snd (take_turns chain turns p))) in
  _neuron_cache c ⊆ _neuron_cache c'
  /\ _block_timestamp_cache c ⊆ _block_timestamp_cache c'
  /\ _block_hash_cache c ⊆ _block_hash_cache c'
  /\ _subnet_state_cache c ⊆ _subnet_state_cache c'
  /\ _validators_cache c ⊆ _validators_cache c'.
Proof. apply take_turns_extends. Qed.

Lemma finished_tasks_stay_cached (turns : list turn) (p : pool)
    (task : TaskType) (b : Z) (kind : read_kind) :
  read_of task = Some kind ->
  In (Finished task b) (fst (take_turns chain turns p))
  \/ In (Skipped task b) (fst (take_turns chain turns p)) ->
  cached kind b (cache (shared (snd (take_turns chain turns p)))) = true.
Proof.
  intros Hkind. revert p. induction turns as [|t rest IH]; intros p; [simpl; tauto|].
  simpl. pose proof (take_turns_extends rest (snd (take_turn chain t p))) as Hrest.
  assert (Hhead : forall w, fst (take_turn chain t p) = Some w ->
                  w = Finished task b \/ w = Skipped task b ->
                  cached kind b (cache (shared (snd (take_turn chain t p)))) = true).
  { intros w Hw Hcase. destruct t as [|ind|k b']; simpl in Hw; try discriminate.
    simpl. pose proof (worker_pass_cases (default [] (super_tensors p !! ind)) (shared p))
      as Hpass.
    destruct (worker_iteration _ _ _) as [[w0 d] s']. simpl in *.
    injection Hw as ->. destruct Hpass as [Hext Hpass].
    destruct Hcase as [-> | ->].
    - destruct Hpass as (_ & kind' & Hk & _ & Hc). congruence.
    - destruct Hpass as (_ & _ & Hsame & kind' & Hk & Hc). rewrite Hsame. congruence. }
  destruct (take_turn chain t p) as [w p1]. specialize (IH p1). simpl in Hrest.
  destruct (take_turns chain rest p1) as [ws p2]. simpl in *.
  destruct w as [w|]; simpl; [|exact IH].
  intros [[Hw | Hin] | [Hw | Hin]]; auto.
  - eapply cached_extends; [exact Hrest|]. apply (Hhead w); auto.
  - eapply cached_extends; [exact Hrest|]. apply (Hhead w); auto.
Qed.

(** X17: with the producer, the workers and the consumer taking turns in
    any order, once a worker has finished or skipped a task for a block,
    a consumer's read of that value for that block is served from the
    cache: it returns, asks nothing of the chain and leaves the cache as
    it is, whether or not [throw_on_cache_miss] is set. *)
Theorem prefetched_values_are_served_without_the_chain (turns : list turn) (p : pool)
    (task : TaskType) (b : Z) (kind : read_kind) :
  read_of task = Some kind ->
  In (Finished task b) (fst (take_turns chain turns p))
  \/ In (Skipped task b) (fst (take_turns chain turns p)) ->
  let s' := shared (snd (take_turns chain turns p)) in
  fst (read chain kind b s') = Return tt
  /\ chain_log (snd (read chain kind b s')) = chain_log s'
  /\ cache (snd (read chain kind b s')) = cache s'.
Proof.
  intros Hkind Hdone. apply read_served.
  eapply finished_tasks_stay_cached; eauto.
Qed.

(** *** Reads that fill more than their own cache *)

Lemma list_validators_on_returns_reads (ln : Z -> M (list Neuron))
    (gs : Z -> M SubnetState) (b : Z) (s s' : state) (validators : list ValidatorModel) :
  SuperTensor.list_validators_on ln gs b s = (Return validators, s') ->
  exists neurons s1 st,
    ln b s = (Return neurons, s1) /\ gs b s1 = (Return st, s').
Proof.
  unfold SuperTensor.list_validators_on, bind.
  destruct (ln b s) as [[neurons|e|] s1]; try discriminate.
  destruct (gs b s1) as [[st|e|] s2] eqn:Hgs; try discriminate.
  intros [= _ <-]. eexists _, _, _. split; [reflexivity|exact Hgs].
Qed.

(** X18: a [PrecachingSuperTensor.list_validators] that returns leaves the
    validators of the block in the cache, and if they were not there
    before, it leaves the neurons and the subnet state of the block in
    the cache as well. *)
Theorem list_validators_leaves_neurons_and_subnet_state_cached (b : Z) (s s' : state)
    (validators : list ValidatorModel) :
  PrecachingSuperTensor.list_validators chain b s = (Return validators, s') ->
  Cache.get_validators b (cache s') = Some validators
  /\ (Cache.get_validators b (cache s) = None ->
      is_Some (Cache.get_neurons b (cache s'))
      /\ is_Some (Cache.get_subnet_state b (cache s'))).
Proof.
  intros Hrun. split; [apply (list_validators_miss_then_hit chain b s s'); exact Hrun|].
  intros Hnone. revert Hrun.
  unfold PrecachingSuperTensor.list_validators, bind,
    PrecachingSuperTensor.set_starting_block. simpl. rewrite Hnone.
  destruct (throw_on_cache_miss s); [discriminate|].
  match goal with
  | |- context [SuperTensor.list_validators_on ?ln ?gs b ?s0] =>
      destruct (SuperTensor.list_validators_on ln gs b s0) as [[r|e|] s3] eqn:Hon
  end; try discriminate.
  unfold PrecachingSuperTensor.cache_put, ret. simpl. intros [= _ <-]. simpl.
  apply list_validators_on_returns_reads in Hon as (neurons & s1 & st & Hn & Hst).
  apply list_neurons_miss_then_hit in Hn as (Hn & _).
  pose proof (precaching_get_subnet_state_grows b s1) as [(Hext & _) _].
  rewrite Hst in Hext. simpl in Hext.
  apply get_subnet_state_miss_then_hit in Hst as (Hst & _).
  unfold Cache.get_neurons, Cache.get_subnet_state in *. simpl.
  rewrite Hst. split; [|eauto].
  exists neurons. eapply lookup_weaken; [exact Hn|exact Hext].
Qed.

(** X19: the metagraph a PrecachingSuperTensor returns is for the block
    asked for, and it agrees with the cache it leaves behind: the cache
    then holds the hash, the neurons and the subnet state of that block,
    and the fields of the metagraph are that hash, the uids and hotkeys
    of those neurons in the same order, the hotkeys of those among them
    that serve, and the total stake of that subnet state. *)
Theorem metagraph_agrees_with_the_cache (block_number : option Z) (s s' : state)
    (m : MetagraphData) :
  PrecachingSuperTensor.get_metagraph chain block_number s = (Return m, s') ->
  (forall b, block_number = Some b -> block m = b)
  /\ Cache.get_block_hash (block m) (cache s') = Some (block_hash m)
  /\ exists neurons st,
       Cache.get_neurons (block m) (cache s') = Some neurons
       /\ Cache.get_subnet_state (block m) (cache s') = Some st
       /\ uids m = uid <$> neurons
       /\ hotkeys m = hotkey <$> neurons
       /\ serving_hotkeys m = hotkey <$> List.filter SuperTensor.serving neurons
       /\ metagraph_total_stake m = default [] (total_stake st).
Proof.
  intros Hrun. unfold PrecachingSuperTensor.get_metagraph, SuperTensor.get_metagraph_on in Hrun.
  apply retry_returns in Hrun as (s0 & Hbody).
  assert (Hbuild : exists b sA,
             (forall b', block_number = Some b' -> b = b')
             /\ SuperTensor._build_metagraph_data_on
                  (PrecachingSuperTensor.get_block_hash chain)
                  (PrecachingSuperTensor.list_neurons chain)
                  (PrecachingSuperTensor.get_subnet_state chain) b sA = (Return m, s')).
  { revert Hbody. unfold bind at 1. destruct block_number as [b|].
    - unfold ret. intros Hb. exists b, s0. split; [congruence|exact Hb].
    - destruct (SuperTensor.get_current_block chain s0) as [[cb|e|] sA]; try discriminate.
      intros Hb. exists cb, sA. split; [discriminate|exact Hb]. }
  destruct Hbuild as (b & sA & Hasked & Hbuild). revert Hbuild.
  unfold SuperTensor._build_metagraph_data_on, bind.
  destruct (PrecachingSuperTensor.get_block_hash chain b sA) as [[h|e|] sB] eqn:Hh;
    try discriminate.
  destruct (PrecachingSuperTensor.list_neurons chain b sB) as [[neurons|e|] sC] eqn:Hn;
    try discriminate.
  destruct (PrecachingSuperTensor.get_subnet_state chain b sC) as [[st|e|] sD] eqn:Hst;
    try discriminate.
  unfold ret. intros [= <- <-]. simpl.
  pose proof (precaching_list_neurons_grows b sB) as [(_ & _ & HextB & _) _].
  pose proof (precaching_get_subnet_state_grows b sC) as [(HextN & _ & HextC & _) _].
  rewrite Hn in HextB. rewrite Hst in HextN, HextC. simpl in *.
  apply get_block_hash_miss_then_hit in Hh as (Hh & _).
  apply list_neurons_miss_then_hit in Hn as (Hn & _).
  apply get_subnet_state_miss_then_hit in Hst as (Hst & _).
  unfold Cache.get_block_hash, Cache.get_neurons, Cache.get_subnet_state in *.
  split; [exact Hasked|]. split.
  - eapply lookup_weaken; [|exact HextC]. eapply lookup_weaken; [exact Hh|exact HextB].
  - exists neurons, st. repeat split; auto.
    eapply lookup_weaken; [exact Hn|exact HextN].
Qed.

Lemma closing_threads_quit (turns : list turn) (closed : state)
    (deques : gmap nat (list (Z * list Neuron))) :
  closing closed = true ->
  forallb (fun t => negb (is_consumer_turn t)) turns = true ->
  shared (snd (take_turns chain turns {| shared := closed; super_tensors := deques |}))
  = closed
  /\ Forall (fun w => w = WorkerQuit)
       (fst (take_turns chain turns {| shared := closed; super_tensors := deques |})).
Proof.
  intros Hclosing. revert deques.
  induction turns as [|t rest IH]; intros deques Hturns; [split; [reflexivity|constructor]|].
  simpl in Hturns. apply andb_true_iff in Hturns as [Ht Hrest].
  destruct t as [|ind|kind b]; [| |discriminate]; simpl.
  - unfold PrecachingSuperTensor.produce_iteration. rewrite Hclosing. simpl.
    specialize (IH deques Hrest). destruct (take_turns chain rest _) as [ws p2]. exact IH.
  - unfold worker_iteration. rewrite Hclosing. simpl.
    specialize (IH (<[ind := default [] (deques !! ind)]> deques) Hrest).
    destruct (take_turns chain rest _) as [ws p2]. simpl in *.
    destruct IH as [Hshared Hws]. split; [exact Hshared|]. constructor; auto.
Qed.

(** *** Retries within retries *)

Lemma retry_three_timeouts {A} (f : M A) (Inv : state -> Prop) (s : state) :
  Inv s ->
  (forall s0, Inv s0 -> fst (f s0) = Raise SuperTensorTimeout /\ Inv (snd (f s0))) ->
  (forall w s0, Inv s0 -> Inv (time_sleep w s0)) ->
  RETRY_ON_TIMEOUT f s = (Raise SuperTensorTimeout, after_three_attempts f s)
  /\ Inv (after_three_attempts f s).
Proof.
  intros Hs Hf Hsleep. unfold RETRY_ON_TIMEOUT, RETRY_ON_TIMEOUT_statistics,
    after_three_attempts.
  destruct (Hf s Hs) as [H1 I1].
  pose proof (Hsleep 100 _ I1) as J1. destruct (Hf _ J1) as [H2 I2].
  pose proof (Hsleep 200 _ I2) as J2. destruct (Hf _ J2) as [H3 I3].
  split; [|exact I3]. simpl.
  destruct (f s) as [r1 s1]. simpl in *. subst r1. simpl.
  change (wait_exponential 100 100 800 1) with 100.
  destruct (f (time_sleep 100 s1)) as [r2 s2]. simpl in *. subst r2. simpl.
  change (wait_exponential 100 100 800 (1 + 1)) with 200.
  destruct (f (time_sleep 200 s2)) as [r3 s3]. simpl in *. subst r3. reflexivity.
Qed.

Lemma timed_out_call {A} (req : bool -> chain_request) (call : nat -> bool -> coroutine A)
    (s : state) :
  (forall n archive, DEFAULT_TIMEOUT_MS < duration_ms (call n archive)) ->
  archive_fallback chain (fun archive => make_sync (req archive) (fun n => call n archive)) s
  = (Raise SuperTensorTimeout, timed_out (req false) s).
Proof.
  intros Hslow. unfold archive_fallback, make_sync, timed_out.
  destruct (Z.ltb_spec DEFAULT_TIMEOUT_MS (duration_ms (call (length (chain_log s)) false)))
    as [_|Hfast]; [reflexivity|].
  specialize (Hslow (length (chain_log s)) false). lia.
Qed.

(** X26: a miss of [PrecachingSuperTensor.get_block_hash] (with
    [throw_on_cache_miss] off) goes to the inherited [get_block_hash],
    which retries on its own: when every chain call for the hash exceeds
    the 30 s timeout, the read ends in SuperTensorTimeout after nine
    chain requests and 271.2 s.  A miss of [get_subnet_state], which goes
    to the undecorated [_get_subnet_state], ends after three requests and
    90.3 s. *)
Theorem block_hash_miss_retries_within_retries (b : Z) (s : state) :
  (forall n archive, DEFAULT_TIMEOUT_MS < duration_ms (chain_block_hash chain n archive b)) ->
  (forall n archive, DEFAULT_TIMEOUT_MS < duration_ms (chain_subnet_state chain n archive b)) ->
  throw_on_cache_miss s = false ->
  Cache.get_block_hash b (cache s) = None ->
  Cache.get_subnet_state b (cache s) = None ->
  let hash := PrecachingSuperTensor.get_block_hash chain b s in
  let subnet_state := PrecachingSuperTensor.get_subnet_state chain b s in
  fst hash = Raise SuperTensorTimeout
  /\ chain_log (snd hash) = chain_log s ++ repeat (ReqBlockHash false b) 9
  /\ clock_ms (snd hash) = clock_ms s + 271200
  /\ fst subnet_state = Raise SuperTensorTimeout
  /\ chain_log (snd subnet_state) = chain_log s ++ repeat (ReqSubnetState false b) 3
  /\ clock_ms (snd subnet_state) = clock_ms s + 90300.
Proof.
  intros Hhash Hstate Hthrow Hnohash Hnostate.
  set (Inv := fun s0 : state =>
                cache s0 = cache s /\ throw_on_cache_miss s0 = throw_on_cache_miss s).
  assert (Hsleep : forall w s0, Inv s0 -> Inv (time_sleep w s0)) by (intros w s0 H; exact H).
  assert (Hinner : forall s0,
             SuperTensor.get_block_hash chain b s0
             = (Raise SuperTensorTimeout,
                after_three_attempts (SuperTensor._get_block_hash chain b) s0)).
  { intros s0.
    apply (retry_three_timeouts (SuperTensor._get_block_hash chain b) (fun _ => True));
      auto.
    intros s1 _. split; [|exact I]. unfold SuperTensor._get_block_hash.
    rewrite (timed_out_call (fun archive => ReqBlockHash archive b)
               (fun n archive => chain_block_hash chain n archive b) s1 Hhash).
    reflexivity. }
  assert (Hbody : forall s0, SuperTensor._get_block_hash chain b s0
                             = (Raise SuperTensorTimeout, timed_out (ReqBlockHash false b) s0)).
  { intros s0. apply (timed_out_call (fun archive => ReqBlockHash archive b)
                        (fun n archive => chain_block_hash chain n archive b) s0 Hhash). }
  assert (Hstatebody :
            forall s0, SuperTensor._get_subnet_state chain b s0
                       = (Raise SuperTensorTimeout, timed_out (ReqSubnetState false b) s0)).
  { intros s0. apply (timed_out_call (fun archive => ReqSubnetState archive b)
                        (fun n archive => chain_subnet_state chain n archive b) s0 Hstate). }
  assert (Hhashrun :
            exists s', PrecachingSuperTensor.get_block_hash chain b s
                       = (Raise SuperTensorTimeout, s')
                       /\ chain_log s' = chain_log s ++ repeat (ReqBlockHash false b) 9
                       /\ clock_ms s' = clock_ms s + 271200).
  { unfold PrecachingSuperTensor.get_block_hash.
    match goal with
    | |- context [RETRY_ON_TIMEOUT ?f ?s0] =>
        destruct (retry_three_timeouts f Inv s0) as [Hrun _];
        [split; reflexivity| |exact Hsleep|rewrite Hrun]
    end.
    - intros s0 [Hc Ht]. unfold bind, PrecachingSuperTensor.set_starting_block. simpl.
      unfold Cache.get_block_hash in *. rewrite Hc, Hnohash, Ht, Hthrow.
      rewrite Hinner. simpl. split; [reflexivity|].
      unfold after_three_attempts. rewrite !Hbody. simpl. split; [exact Hc|exact Ht].
    - eexists. split; [reflexivity|].
      unfold after_three_attempts, bind, PrecachingSuperTensor.set_starting_block. simpl.
      unfold Cache.get_block_hash in *. rewrite Hnohash, Hthrow, Hinner.
      unfold after_three_attempts. rewrite !Hbody. simpl.
      rewrite Hnohash, Hthrow, Hinner. unfold after_three_attempts. rewrite !Hbody. simpl.
      rewrite Hnohash, Hthrow, Hinner. unfold after_three_attempts. rewrite !Hbody. simpl.
      split; [rewrite <- !app_assoc; reflexivity|unfold DEFAULT_TIMEOUT_MS; lia]. }
  assert (Hstaterun :
            exists s', PrecachingSuperTensor.get_subnet_state chain b s
                       = (Raise SuperTensorTimeout, s')
                       /\ chain_log s' = chain_log s ++ repeat (ReqSubnetState false b) 3
                       /\ clock_ms s' = clock_ms s + 90300).
  { unfold PrecachingSuperTensor.get_subnet_state.
    match goal with
    | |- context [RETRY_ON_TIMEOUT ?f ?s0] =>
        destruct (retry_three_timeouts f Inv s0) as [Hrun _];
        [split; reflexivity| |exact Hsleep|rewrite Hrun]
    end.
    - intros s0 [Hc Ht]. unfold bind, PrecachingSuperTensor.set_starting_block. simpl.
      unfold Cache.get_subnet_state in *. rewrite Hc, Hnostate, Ht, Hthrow.
      rewrite Hstatebody. simpl. split; [reflexivity|]. split; [exact Hc|exact Ht].
    - eexists. split; [reflexivity|].
      unfold after_three_attempts, bind, PrecachingSuperTensor.set_starting_block. simpl.
      unfold Cache.get_subnet_state in *. rewrite Hnostate, Hthrow, Hstatebody. simpl.
      rewrite Hnostate, Hthrow, Hstatebody. simpl.
      rewrite Hnostate, Hthrow, Hstatebody. simpl.
      split; [rewrite <- !app_assoc; reflexivity|unfold DEFAULT_TIMEOUT_MS; lia]. }
  destruct Hhashrun as (s1 & -> & Hlog1 & Hclock1).
  destruct Hstaterun as (s2 & -> & Hlog2 & Hclock2).
  simpl. auto 10.
Qed.

(** X24: after [close], the producer and the workers do nothing more:
    whatever turns they take, every worker pass quits, the shared state
    stays as [close] left it, so nothing is asked of the chain, nothing
    is queued and the cache is not written. *)
Theorem closed_supertensor_threads_quit (enable_workers : bool) (turns : list turn)
    (p : pool) :
  forallb (fun t => negb (is_consumer_turn t)) turns = true ->
  let closed := snd (close enable_workers (shared p)) in
  let run := take_turns chain turns
               {| shared := closed; super_tensors := super_tensors p |} in
  shared (snd run) = closed
  /\ Forall (fun w => w = WorkerQuit) (fst run).
Proof.
  intros Hturns. apply closing_threads_quit; [|exact Hturns].
  unfold close. destruct enable_workers; reflexivity.
Qed.

End SupertensorMore.

Section SupertensorMoreExamples.
Import Supertensor SupertensorReading Fixtures.

Lemma unknown_block_without_archive_is_not_retried_witness :
  SuperTensor.get_block_hash pruned_chain 700 (initial_state false)
  = (Raise ArchiveSubtensorNotConfigured,
     advance 20 (log_request (ReqBlockHash false 700) (initial_state false))).
Proof.
  destruct (unknown_block_without_archive_is_not_retried pruned_chain 700
              (initial_state false)) as (Hraise & _).
  - reflexivity.
  - vm_compute. discriminate.
  - reflexivity.
  - vm_compute. reflexivity.
Defined.

Lemma neuron_list_deque_serves_only_nonempty_lists_witness :
  let s' := snd (SuperTensor.list_neurons demo_chain 100 (initial_state false)) in
  SuperTensor.list_neurons demo_chain 100 s' = (Return demo_neurons, s')
  /\ chain_log s' = [ReqNeurons false 100].
Proof.
  split; [|vm_compute; reflexivity].
  apply (neuron_list_deque_serves_only_nonempty_lists demo_chain 100 (initial_state false)
           (snd (SuperTensor.list_neurons demo_chain 100 (initial_state false)))
           demo_neurons).
  vm_compute. reflexivity.
Defined.

(** A consumer that fails on a miss asks for the hash of block 1000 and
    misses; the producer submits block 1000 and a worker takes the five
    tasks; the same read is then served from the cache. *)
Lemma prefetched_values_are_served_without_the_chain_witness :
  let turns := [ConsumerTurn ReadHash 1000; ProducerTurn; WorkerTurn 0; WorkerTurn 0;
                WorkerTurn 0; WorkerTurn 0; WorkerTurn 0] in
  let p := {| shared := initial_state true; super_tensors := ∅ |} in
  fst (read demo_chain ReadHash 1000 (initial_state true))
  = Raise (PrecachingSuperTensorCacheMiss "Cache miss for block 1000")
  /\ fst (read demo_chain ReadHash 1000 (shared (snd (take_turns demo_chain turns p))))
     = Return tt.
Proof.
  split; [vm_compute; reflexivity|].
  apply (prefetched_values_are_served_without_the_chain demo_chain
           [ConsumerTurn ReadHash 1000; ProducerTurn; WorkerTurn 0; WorkerTurn 0;
            WorkerTurn 0; WorkerTurn 0; WorkerTurn 0]
           {| shared := initial_state true; super_tensors := ∅ |}
           BLOCK_HASH 1000 ReadHash).
  - reflexivity.
  - left. vm_compute. right. right. left. reflexivity.
Defined.

Lemma list_validators_leaves_neurons_and_subnet_state_cached_witness :
  is_Some (Cache.get_neurons 100
             (cache (snd (PrecachingSuperTensor.list_validators demo_chain 100
                            (initial_state false)))))
  /\ is_Some (Cache.get_subnet_state 100
                (cache (snd (PrecachingSuperTensor.list_validators demo_chain 100
                               (initial_state false))))).
Proof.
  assert (Hrun : exists validators,
             PrecachingSuperTensor.list_validators demo_chain 100 (initial_state false)
             = (Return validators,
                snd (PrecachingSuperTensor.list_validators demo_chain 100
                       (initial_state false)))).
  { eexists. vm_compute. reflexivity. }
  destruct Hrun as [validators Hrun].
  destruct (list_validators_leaves_neurons_and_subnet_state_cached demo_chain 100
              (initial_state false) _ validators Hrun) as (_ & Hwarm).
  apply Hwarm. reflexivity.
Defined.

Lemma metagraph_agrees_with_the_cache_witness :
  exists m,
    fst (PrecachingSuperTensor.get_metagraph demo_chain (Some 1000) (initial_state false))
    = Return m
    /\ block m = 1000
    /\ Cache.get_block_hash 1000
         (cache (snd (PrecachingSuperTensor.get_metagraph demo_chain (Some 1000)
                        (initial_state false)))) = Some (block_hash m).
Proof.
  assert (Hrun : exists m,
             PrecachingSuperTensor.get_metagraph demo_chain (Some 1000)
               (initial_state false)
             = (Return m,
                snd (PrecachingSuperTensor.get_metagraph demo_chain (Some 1000)
                       (initial_state false)))).
  { eexists. vm_compute. reflexivity. }
  destruct Hrun as [m Hrun].
  destruct (metagraph_agrees_with_the_cache demo_chain (Some 1000) (initial_state false)
              _ m Hrun) as (Hblock & Hhash & _).
  exists m. rewrite Hrun at 1. split; [reflexivity|].
  specialize (Hblock 1000 eq_refl). split; [exact Hblock|].
  rewrite Hblock in Hhash. exact Hhash.
Defined.

Lemma closed_supertensor_threads_quit_witness :
  let closed := snd (close true (initial_state false)) in
  let run := take_turns demo_chain [ProducerTurn; WorkerTurn 0; WorkerTurn 1]
               {| shared := closed; super_tensors := ∅ |} in
  chain_log (shared (snd run)) = [] /\ fst run = [WorkerQuit; WorkerQuit].
Proof.
  destruct (closed_supertensor_threads_quit demo_chain true
              [ProducerTurn; WorkerTurn 0; WorkerTurn 1]
              {| shared := initial_state false; super_tensors := ∅ |} eq_refl)
    as [Hshared _].
  split; [|vm_compute; reflexivity].
  exact (eq_trans (f_equal chain_log Hshared) eq_refl).
Defined.

Lemma block_hash_miss_retries_within_retries_witness :
  length (chain_log (snd (PrecachingSuperTensor.get_block_hash stalled_chain 100
                            (initial_state false)))) = 9%nat
  /\ length (chain_log (snd (PrecachingSuperTensor.get_subnet_state stalled_chain 100
                               (initial_state false)))) = 3%nat.
Proof.
  destruct (block_hash_miss_retries_within_retries stalled_chain 100 (initial_state false))
    as (_ & Hhash & _ & _ & Hstate & _).
  - intros n archive. vm_compute. reflexivity.
  - intros n archive. vm_compute. reflexivity.
  - reflexivity.
  - reflexivity.
  - reflexivity.
  - rewrite Hhash, Hstate. split; reflexivity.
Defined.

End SupertensorMoreExamples.

(** ** Organic job driver *)
Section DriverFacts.
Import JobExcuses MinerDriver.
Variable py_repr : string -> string.
Variable db : database.
Variable miner_client : MinerClient.
Variables total_job_timeout initial_response_timeout executor_ready_timeout : Z.

Lemma conclude_eq (ignored : bool) (j : OrganicJob) (st : Status) (c : string)
    (subtype : EventSubType) (success : bool) (update : JobStatusType)
    (message_type : option string) (w : world) :
  conclude (save_event_for ignored miner_client j) st c subtype success update message_type w
  = (Return tt,
     {| job := with_status st c (job w);
        saved_job := Some (with_status st c (job w));
        system_events := system_events w ++ events_of miner_client ignored j subtype c success;
        status_updates :=
          status_updates w
          ++ [status_update_from_job (with_status st c (job w)) update message_type] |}).
Proof.
  unfold conclude, bind, asave, save_event_for, events_of. simpl.
  destruct ignored; simpl; [rewrite app_nil_r|]; reflexivity.
Qed.

Lemma notify_accepts_eq (run : run_behaviour) (w : world) :
  notify_accepts run w
  = (Return tt,
     {| job := job w; saved_job := saved_job w; system_events := system_events w;
        status_updates :=
          status_updates w
          ++ map (fun msg => status_update_from_job (job w) accepted (Some msg))
               (accepted_messages run) |}).
Proof.
  unfold notify_accepts. f_equal. generalize (accepted_messages run) as msgs.
  intros msgs. revert w. induction msgs as [|msg msgs IH]; intros w; simpl.
  - rewrite app_nil_r. destruct w; reflexivity.
  - rewrite IH. simpl. rewrite <- app_assoc. reflexivity.
Qed.

Lemma events_ignored_returns (w : world) :
  answers db (job w) ->
  exists ignored, events_ignored db (job w) w = (Return ignored, w).
Proof.
  intros (_ & _ & Htrusted). unfold events_ignored.
  destruct (on_trusted_miner (job w)); [|eexists; reflexivity].
  destruct (Htrusted eq_refl) as [v Hv].
  unfold bind, aget_config. rewrite Hv. eexists. reflexivity.
Qed.

Lemma updates_with_app (st : JobStatusType) (a b : list JobStatusUpdate) :
  updates_with st (a ++ b) = updates_with st a ++ updates_with st b.
Proof. unfold updates_with. apply List.filter_app. Qed.

Lemma updates_with_accepts (st : JobStatusType) (j : OrganicJob) (msgs : list string) :
  st <> accepted ->
  updates_with st (map (fun msg => status_update_from_job j accepted (Some msg)) msgs) = [].
Proof.
  intros Hst. induction msgs as [|msg msgs IH]; [reflexivity|].
  unfold updates_with in *. simpl. rewrite IH. destruct st; try reflexivity. contradiction.
Qed.

Lemma terminal_updates_app (a b : list JobStatusUpdate) :
  terminal_updates (a ++ b) = terminal_updates a ++ terminal_updates b.
Proof. unfold terminal_updates. apply List.filter_app. Qed.

Lemma terminal_updates_accepts (j : OrganicJob) (msgs : list string) :
  terminal_updates (map (fun msg => status_update_from_job j accepted (Some msg)) msgs) = [].
Proof.
  induction msgs as [|msg msgs IH]; [reflexivity|].
  unfold terminal_updates in *. simpl. exact IH.
Qed.

Ltac concluded :=
  rewrite conclude_eq; simpl; eexists _, _; split; [reflexivity|]; simpl;
  repeat split; auto.

Lemma on_organic_job_error_concludes (ignored : bool) (j : OrganicJob)
    (exc : OrganicJobError) (w : world) :
  answers db (job w) ->
  exists w' u,
    on_organic_job_error db (save_event_for ignored miner_client j) miner_client
      total_job_timeout initial_response_timeout executor_ready_timeout exc w
    = (Return false, w')
    /\ status_updates w' = status_updates w ++ [u]
    /\ (update_status u = failed \/ update_status u = rejected)
    /\ metadata_comment (metadata u) = comment (job w')
    /\ saved_job w' = Some (job w')
    /\ (status (job w') = FAILED \/ status (job w') = EXCUSED).
Proof.
  intros ((t & Hrow) & (z & Hfloor) & _).
  unfold on_organic_job_error, bind.
  destruct exc as [r received text rtext]. simpl.
  destruct r; try (concluded; fail).
  - destruct received as [[[|other] receipts|out err et ed|mt]|]; try (concluded; fail).
    unfold bind, aget_job_started_receipt, aget_config. rewrite Hrow, Hfloor. simpl.
    destruct (_ <=? _); concluded.
  - destruct received as [[dr receipts|out err et ed|mt]|]; concluded.
Qed.

(** When [run_organic_job] returns or raises OrganicJobError, and the
    reads of the driver find what they look for, the driver returns
    having sent, after the "accepted" updates of the run, exactly one
    terminal update. *)
Lemma drive_organic_job_returns (run : run_behaviour) (w : world) :
  answers db (job w) ->
  (forall e, ending run <> Crashed e) ->
  exists (result : bool) (w' : world) (u : JobStatusUpdate),
    drive_organic_job py_repr db miner_client total_job_timeout initial_response_timeout
      executor_ready_timeout run w = (Return result, w')
    /\ status_updates w'
       = status_updates w
         ++ map (fun msg => status_update_from_job (job w) accepted (Some msg))
              (accepted_messages run)
         ++ [u]
    /\ terminal_updates (status_updates w') = terminal_updates (status_updates w) ++ [u]
    /\ match ending run with
       | Finished _ _ _ => update_status u = completed
       | Failed _ => update_status u = failed \/ update_status u = rejected
       | Crashed _ => False
       end
    /\ (result = true <-> update_status u = completed).
Proof.
  intros Hdb Hrun. destruct (events_ignored_returns w Hdb) as [ignored Hig].
  unfold drive_organic_job, bind. rewrite Hig, notify_accepts_eq.
  destruct (ending run) as [out err arts|exc|e] eqn:Hend.
  - unfold on_finished, bind. simpl. rewrite conclude_eq. simpl.
    eexists true, _, _. split; [reflexivity|]. simpl. split; [|split; [|split]].
    + rewrite <- app_assoc. reflexivity.
    + rewrite !terminal_updates_app, terminal_updates_accepts, app_nil_r. reflexivity.
    + reflexivity.
    + split; reflexivity.
  - match goal with
    | |- context [on_organic_job_error _ _ _ _ _ _ _ ?w1] =>
        destruct (on_organic_job_error_concludes ignored (job w) exc w1 Hdb)
          as (w' & u & Hrun' & Hup & Hst & _)
    end.
    rewrite Hrun'. exists false, w', u. split; [reflexivity|].
    rewrite Hup. simpl. split; [|split; [|split]].
    + rewrite <- app_assoc. reflexivity.
    + rewrite !terminal_updates_app, terminal_updates_accepts, app_nil_r.
      f_equal. unfold terminal_updates. simpl.
      destruct Hst as [->| ->]; reflexivity.
    + exact Hst.
    + split; [discriminate|]. destruct Hst as [->| ->]; discriminate.
  - exfalso. exact (Hrun e eq_refl).
Qed.

Lemma filter_valid_excuse_receipts_In (stores : JobExcuses.stores) (receipts : list Receipt)
    (check_time : Z) (uuid class : string) (synthetic : bool) (floor : Q)
    (miner : string) (r : Receipt) :
  In r (filter_valid_excuse_receipts stores receipts check_time uuid class synthetic floor miner)
  <-> In r receipts
      /\ (floor <= validator_stake stores (receipt_validator_hotkey r))%Q
      /\ receipt_timestamp r <= check_time
      /\ receipt_executor_class r = class
      /\ receipt_is_organic r = true
      /\ receipt_miner_hotkey r = miner.
Proof.
  unfold filter_valid_excuse_receipts. rewrite filter_In, !andb_true_iff.
  rewrite Qle_bool_iff, Z.leb_le, !String.eqb_eq. tauto.
Qed.

(** C1: when the miner declines with reason BUSY (the job's
    JobStartedReceipt and the stake floor being there to read), the driver
    sends exactly one "rejected" update for the job and returns False.
    The job is saved as EXCUSED, its comment beginning "Miner properly
    excused", exactly when the valid excuse receipts (issued by a
    validator with stake at or above the floor, stamped at or before the
    job request time, of the job's executor class, non-synthetic, of the
    job's miner) are at least as many as the executors the miner is
    expected to have online for the class; otherwise it is saved as FAILED
    with a comment beginning "Miner failed to excuse". *)
Theorem busy_decline_excused_iff_enough_excuses (run : run_behaviour) (w : world)
    (exc : OrganicJobError) (receipts : option (list Receipt)) :
  answers db (job w) ->
  ending run = Failed exc ->
  reason exc = JOB_DECLINED ->
  received exc = Some (V0DeclineJobRequest BUSY receipts) ->
  exists (w' : world) (u : JobStatusUpdate) (job_request_time floor : Z),
    drive_organic_job py_repr db miner_client total_job_timeout initial_response_timeout
      executor_ready_timeout run w = (Return false, w')
    /\ In (job_uuid (job w), job_request_time) (started_receipts db)
    /\ config db !! MINIMUM_STAKE_KEY = Some (CInt floor)
    /\ updates_with rejected (status_updates w')
       = updates_with rejected (status_updates w) ++ [u]
    /\ uuid u = job_uuid (job w)
    /\ update_status u = rejected
    /\ metadata_comment (metadata u) = comment (job w')
    /\ saved_job w' = Some (job w')
    /\ let valid_excuses :=
         filter_valid_excuse_receipts (excuse_stores db) (default [] receipts)
           job_request_time (job_uuid (job w)) (executor_class (job w)) false
           (inject_Z floor) (miner_hotkey (job w)) in
       let expected :=
         get_expected_miner_executor_count (excuse_stores db) job_request_time
           (miner_hotkey (job w)) (executor_class (job w)) in
       (forall r,
           In r valid_excuses <->
           In r (default [] receipts)
           /\ (inject_Z floor
               <= validator_stake (excuse_stores db) (receipt_validator_hotkey r))%Q
           /\ receipt_timestamp r <= job_request_time
           /\ receipt_executor_class r = executor_class (job w)
           /\ receipt_is_organic r = true
           /\ receipt_miner_hotkey r = miner_hotkey (job w))
       /\ (expected <= Z.of_nat (length valid_excuses) <->
           status (job w') = EXCUSED
           /\ String.prefix "Miner properly excused" (comment (job w')) = true)
       /\ (Z.of_nat (length valid_excuses) < expected <->
           status (job w') = FAILED
           /\ String.prefix "Miner failed to excuse" (comment (job w')) = true).
Proof.
  intros Hdb Hend Hreason Hreceived.
  destruct (events_ignored_returns w Hdb) as [ignored Hig].
  destruct Hdb as ((t & Hrow) & (z & Hfloor) & _).
  unfold drive_organic_job, bind. rewrite Hig, notify_accepts_eq, Hend.
  unfold on_organic_job_error, bind. rewrite Hreason, Hreceived. simpl.
  unfold bind, aget_job_started_receipt, aget_config. simpl. rewrite Hrow, Hfloor. simpl.
  assert (Hin : In (job_uuid (job w), t) (started_receipts db)).
  { assert (Hf : In (job_uuid (job w), t)
                   (List.filter (fun row => String.eqb (fst row) (job_uuid (job w)))
                      (started_receipts db))) by (rewrite Hrow; left; reflexivity).
    apply filter_In in Hf. tauto. }
  set (valid := filter_valid_excuse_receipts _ _ _ _ _ _ _ _).
  set (expected := get_expected_miner_executor_count _ _ _ _).
  destruct (Z.leb_spec expected (Z.of_nat (length valid))) as [Henough|Hshort];
    rewrite conclude_eq; simpl;
    eexists _, _, t, z; (split; [reflexivity|]); simpl;
    (split; [exact Hin|]); (split; [reflexivity|]);
    (split; [rewrite !updates_with_app, updates_with_accepts by discriminate;
             rewrite app_nil_r; reflexivity|]);
    repeat (split; [reflexivity|]);
    (split; [intros r; apply filter_valid_excuse_receipts_In|]).
  - fold valid expected. split; (split; [intros H|intros [H1 H2]]);
      auto; try lia; discriminate.
  - fold valid expected. split; (split; [intros H|intros [H1 H2]]);
      auto; try lia; discriminate.
Qed.

End DriverFacts.

Section DriverExamples.
Import JobExcuses MinerDriver Fixtures.

Lemma demo_answers : answers demo_db demo_job.
Proof.
  split; [exists 500; reflexivity|]. split; [exists 1000; reflexivity|]. discriminate.
Defined.

(** Two receipts that count against two online executors: excused. *)
Lemma busy_decline_excused_iff_enough_excuses_witness :
  exists w' u,
    drive_organic_job quoted demo_db demo_client 300 3 300
      (busy_decline [excuse "job-7" "v1" 400; excuse "job-8" "v1" 450]) demo_world
    = (Return false, w')
    /\ updates_with rejected (status_updates w') = [u]
    /\ update_status u = rejected
    /\ status (job w') = EXCUSED.
Proof.
  destruct (busy_decline_excused_iff_enough_excuses quoted demo_db demo_client 300 3 300
              (busy_decline [excuse "job-7" "v1" 400; excuse "job-8" "v1" 450]) demo_world
              {| reason := JOB_DECLINED;
                 received := Some (V0DeclineJobRequest BUSY
                                     (Some [excuse "job-7" "v1" 400; excuse "job-8" "v1" 450]));
                 exc_text := "declined"; received_text := "busy" |}
              (Some [excuse "job-7" "v1" 400; excuse "job-8" "v1" 450])
              demo_answers eq_refl eq_refl eq_refl)
    as (w' & u & t & z & Hrun & _ & _ & Hup & _ & Hst & _ & _ & _).
  exists w', u. split; [exact Hrun|].
  vm_compute in Hrun. injection Hrun as <-.
  split; [exact Hup|]. split; [exact Hst|]. vm_compute. reflexivity.
Defined.

(** One receipt from a validator below the stake floor and one stamped
    after the request: not excused. *)
Example busy_decline_not_excused :
  exists w',
    drive_organic_job quoted demo_db demo_client 300 3 300
      (busy_decline [excuse "job-7" "v2" 400; excuse "job-8" "v1" 900]) demo_world
    = (Return false, w')
    /\ status (job w') = FAILED
    /\ comment (job w') = "Miner failed to excuse job miner-1@host: busy"
    /\ update_status <$> status_updates w' = [rejected].
Proof. eexists. vm_compute. repeat split. Qed.

End DriverExamples.

(** ** Organic job driver: events, failures before the end, what is saved *)
Section DriverMore.
Import JobExcuses MinerDriver.
Variable py_repr : string -> string.
Variable db : database.
Variable miner_client : MinerClient.
Variables total_job_timeout initial_response_timeout executor_ready_timeout : Z.

Ltac branch_concluded :=
  rewrite conclude_eq; simpl; (split; [reflexivity|]);
  eexists _, _, _, _, _; (split; [reflexivity|]);
  (split; [first [left; reflexivity|right; split; reflexivity]|]);
  (split; [first [discriminate|intros _; split; [reflexivity|eexists; reflexivity]]|]);
  first [left; split; reflexivity|right; split; [reflexivity|discriminate]].

Lemma on_organic_job_error_outcome (ignored : bool) (j : OrganicJob)
    (exc : OrganicJobError) (w : world) :
  match on_organic_job_error db (save_event_for ignored miner_client j) miner_client
          total_job_timeout initial_response_timeout executor_ready_timeout exc w with
  | (Return result, w') =>
      result = false
      /\ exists st c sub upd mt,
          w' = (let j1 := match reason exc, received exc with
                          | JOB_FAILED, Some (V0JobFailedRequest out err et ed) =>
                              with_failure out err et ed (job w)
                          | _, _ => job w
                          end in
                {| job := with_status st c j1;
                   saved_job := Some (with_status st c j1);
                   system_events :=
                     system_events w ++ events_of miner_client ignored j sub c false;
                   status_updates :=
                     status_updates w
                     ++ [status_update_from_job (with_status st c j1) upd mt] |})
          /\ (st = FAILED \/ (st = EXCUSED /\ sub = JOB_EXCUSED))
          /\ (st = EXCUSED ->
              reason exc = JOB_DECLINED
              /\ exists receipts, received exc = Some (V0DeclineJobRequest BUSY receipts))
          /\ (upd = rejected /\ reason exc = JOB_DECLINED
              \/ upd = failed /\ reason exc <> JOB_DECLINED)
  | (Raise e, w') =>
      w' = w
      /\ reason exc = JOB_DECLINED
      /\ exists receipts, received exc = Some (V0DeclineJobRequest BUSY receipts)
  | (Running, _) => False
  end.
Proof.
  destruct exc as [r received text rtext]. unfold on_organic_job_error.
  unfold bind at 1. simpl.
  destruct r.
  3:{ destruct received as [[[|other] receipts|out err et ed|mt]|].
      2-5: branch_concluded.
      unfold bind at 1. unfold aget_job_started_receipt.
      destruct (List.filter _ (started_receipts db)) as [|row [|row' rows]];
        [repeat split; eexists; reflexivity| |repeat split; eexists; reflexivity].
      unfold bind at 1. unfold aget_config.
      destruct (config db !! MINIMUM_STAKE_KEY) as [v|];
        [|repeat split; eexists; reflexivity].
      unfold bind at 1.
      destruct v as [b|z|sv|]; simpl;
        try (repeat split; eexists; reflexivity);
        destruct (_ <=? _); branch_concluded. }
  7:{ destruct received as [[dr receipts|out err et ed|mt]|]; simpl;
        try branch_concluded.
      unfold bind at 1. branch_concluded. }
  all: branch_concluded.
Qed.

Lemma events_ignored_outcome (j : OrganicJob) (w : world) :
  events_ignored db j w
  = (if on_trusted_miner j
     then match config db !! DISABLE_TRUSTED_KEY with
          | Some v => Return (truthy v)
          | None => Raise (KeyError DISABLE_TRUSTED_KEY)
          end
     else Return false, w).
Proof.
  unfold events_ignored. destruct (on_trusted_miner j); [|reflexivity].
  unfold bind, aget_config. destruct (config db !! DISABLE_TRUSTED_KEY); reflexivity.
Qed.

Lemma drive_organic_job_outcome (run : run_behaviour) (w : world) :
  let accepts :=
    map (fun msg => status_update_from_job (job w) accepted (Some msg))
      (accepted_messages run) in
  match drive_organic_job py_repr db miner_client total_job_timeout
          initial_response_timeout executor_ready_timeout run w with
  | (Return result, w') =>
      exists ignored st c sub upd mt j1,
        events_ignored db (job w) w = (Return ignored, w)
        /\ w' = {| job := with_status st c j1;
                   saved_job := Some (with_status st c j1);
                   system_events :=
                     system_events w
                     ++ events_of miner_client ignored (job w) sub c result;
                   status_updates :=
                     status_updates w ++ accepts
                     ++ [status_update_from_job (with_status st c j1) upd mt] |}
        /\ match ending run with
           | Finished out err arts =>
               result = true /\ st = COMPLETED /\ upd = completed
               /\ j1 = with_output out err arts (job w)
           | Failed exc =>
               result = false
               /\ j1 = match reason exc, received exc with
                       | JOB_FAILED, Some (V0JobFailedRequest out err et ed) =>
                           with_failure out err et ed (job w)
                       | _, _ => job w
                       end
               /\ (st = FAILED \/ (st = EXCUSED /\ sub = JOB_EXCUSED))
               /\ (st = EXCUSED ->
                   reason exc = JOB_DECLINED
                   /\ exists receipts,
                        received exc = Some (V0DeclineJobRequest BUSY receipts))
               /\ (upd = rejected /\ reason exc = JOB_DECLINED
                   \/ upd = failed /\ reason exc <> JOB_DECLINED)
           | Crashed _ => False
           end
  | (Raise e, w') =>
      job w' = job w /\ saved_job w' = saved_job w
      /\ system_events w' = system_events w
      /\ (status_updates w' = status_updates w
          \/ status_updates w' = status_updates w ++ accepts)
      /\ ((on_trusted_miner (job w) = true /\ config db !! DISABLE_TRUSTED_KEY = None)
          \/ ending run = Crashed e
          \/ exists exc receipts,
               ending run = Failed exc /\ reason exc = JOB_DECLINED
               /\ received exc = Some (V0DeclineJobRequest BUSY receipts))
  | (Running, _) => False
  end.
Proof.
  unfold drive_organic_job. unfold bind at 1. rewrite events_ignored_outcome.
  destruct (on_trusted_miner (job w)) eqn:Htrusted.
  - destruct (config db !! DISABLE_TRUSTED_KEY) as [v|] eqn:Hkey;
      [|simpl; repeat split; auto].
    remember (truthy v) as ignored eqn:Hignored. unfold bind at 1.
    rewrite notify_accepts_eq.
    destruct (ending run) as [out err arts|exc|e].
    + unfold on_finished, bind. simpl. rewrite conclude_eq. simpl.
      eexists ignored, _, _, _, _, _, _. split; [subst ignored; reflexivity|].
      split; [rewrite <- app_assoc; reflexivity|]. repeat split.
    + match goal with
      | |- context [on_organic_job_error _ ?se _ _ _ _ ?exc ?w1] =>
          pose proof (on_organic_job_error_outcome ignored (job w) exc w1) as Hout;
          destruct (on_organic_job_error _ se _ _ _ _ exc w1) as [[r|e|] w']
      end; [| |contradiction].
      * destruct Hout as (-> & st & c & sub & upd & mt & -> & H1 & H2 & H3). simpl.
        eexists ignored, st, c, sub, upd, mt, _. split; [subst ignored; reflexivity|].
        split; [rewrite <- app_assoc; reflexivity|].
        split; [reflexivity|]. split; [reflexivity|]. tauto.
      * destruct Hout as (-> & Hr & receipts & Hrec). simpl.
        repeat split; auto. right. right. eauto.
    + simpl. repeat split; auto.
  - unfold bind at 1. rewrite notify_accepts_eq.
    destruct (ending run) as [out err arts|exc|e].
    + unfold on_finished, bind.
      remember (save_event_for false miner_client (job w)) as se eqn:Hse.
      simpl. subst se. rewrite conclude_eq. simpl.
      eexists false, _, _, _, _, _, _. split; [reflexivity|].
      split; [rewrite <- app_assoc; reflexivity|]. repeat split.
    + match goal with
      | |- context [on_organic_job_error _ ?se _ _ _ _ ?exc ?w1] =>
          pose proof (on_organic_job_error_outcome false (job w) exc w1) as Hout;
          destruct (on_organic_job_error _ se _ _ _ _ exc w1) as [[r|e|] w']
      end; [| |contradiction].
      * destruct Hout as (-> & st & c & sub & upd & mt & -> & H1 & H2 & H3). simpl.
        eexists false, st, c, sub, upd, mt, _. split; [reflexivity|].
        split; [rewrite <- app_assoc; reflexivity|].
        split; [reflexivity|]. split; [reflexivity|]. tauto.
      * destruct Hout as (-> & Hr & receipts & Hrec). simpl.
        repeat split; auto. right. right. eauto.
    + simpl. repeat split; auto.
Qed.

(** C2, as the code has it: whenever the driver returns, it has sent,
    after the "accepted" updates of the run, exactly one terminal update:
    "completed" when [run_organic_job] returned, "failed" or "rejected"
    when it raised OrganicJobError, whatever the reason; and it returns
    True exactly when that update is "completed". *)
Theorem drive_organic_job_one_terminal_update (run : run_behaviour) (w w' : world)
    (result : bool) :
  drive_organic_job py_repr db miner_client total_job_timeout initial_response_timeout
    executor_ready_timeout run w = (Return result, w') ->
  exists u : JobStatusUpdate,
    status_updates w'
    = status_updates w
      ++ map (fun msg => status_update_from_job (job w) accepted (Some msg))
           (accepted_messages run)
      ++ [u]
    /\ terminal_updates (status_updates w') = terminal_updates (status_updates w) ++ [u]
    /\ match ending run with
       | Finished _ _ _ => update_status u = completed
       | Failed _ => update_status u = failed \/ update_status u = rejected
       | Crashed _ => False
       end
    /\ (result = true <-> update_status u = completed).
Proof.
  intros Hrun. pose proof (drive_organic_job_outcome run w) as Hout.
  rewrite Hrun in Hout. simpl in Hout.
  destruct Hout as (ignored & st & c & sub & upd & mt & j1 & _ & -> & Hend).
  eexists. simpl. split; [reflexivity|].
  rewrite !terminal_updates_app, terminal_updates_accepts, app_nil_l.
  destruct (ending run) as [out err arts|exc|e]; [| |contradiction].
  - destruct Hend as (-> & _ & -> & _). simpl. repeat split.
  - destruct Hend as (-> & _ & _ & _ & [[-> _]|[-> _]]); simpl;
      (split; [reflexivity|]); (split; [auto|]); split; discriminate.
Qed.

(** X20: when the driver cannot come to a conclusion, it raises before it
    concludes anything.  For a job on the trusted miner whose events
    switch is not configured it raises KeyError at once.  Otherwise, when
    [run_organic_job] raises something other than OrganicJobError, or
    when after a decline with reason BUSY the job has no JobStartedReceipt
    or several, or has one and the stake floor is not configured, it
    raises that error with the job object as it was and not saved, no
    system event recorded and, beyond the "accepted" updates of the run,
    no status update sent, so no terminal one. *)
Theorem driver_raises_before_it_concludes (run : run_behaviour) (w : world) :
  let drive :=
    drive_organic_job py_repr db miner_client total_job_timeout initial_response_timeout
      executor_ready_timeout run w in
  let after_accepts :=
    {| job := job w; saved_job := saved_job w; system_events := system_events w;
       status_updates :=
         status_updates w
         ++ map (fun msg => status_update_from_job (job w) accepted (Some msg))
              (accepted_messages run) |} in
  let rows :=
    List.filter (fun row => String.eqb (fst row) (job_uuid (job w))) (started_receipts db) in
  (on_trusted_miner (job w) = true -> config db !! DISABLE_TRUSTED_KEY = None ->
   drive = (Raise (KeyError DISABLE_TRUSTED_KEY), w))
  /\ (on_trusted_miner (job w) = false \/ is_Some (config db !! DISABLE_TRUSTED_KEY) ->
      (forall e, ending run = Crashed e -> drive = (Raise e, after_accepts))
      /\ (forall exc receipts,
             ending run = Failed exc ->
             reason exc = JOB_DECLINED ->
             received exc = Some (V0DeclineJobRequest BUSY receipts) ->
             (rows = [] -> drive = (Raise DoesNotExist, after_accepts))
             /\ ((1 < length rows)%nat ->
                 drive = (Raise MultipleObjectsReturned, after_accepts))
             /\ (length rows = 1%nat -> config db !! MINIMUM_STAKE_KEY = None ->
                 drive = (Raise (KeyError MINIMUM_STAKE_KEY), after_accepts))))
  /\ terminal_updates (status_updates after_accepts) = terminal_updates (status_updates w).
Proof.
  simpl. split; [|split].
  - intros Htrusted Hkey. unfold drive_organic_job. unfold bind at 1.
    rewrite events_ignored_outcome, Htrusted, Hkey. reflexivity.
  - intros Hreadable.
    assert (Hignored : exists ignored,
               events_ignored db (job w) w = (Return ignored, w)).
    { rewrite events_ignored_outcome. destruct (on_trusted_miner (job w)).
      - destruct Hreadable as [Hno|[v Hv]]; [discriminate|]. rewrite Hv. eauto.
      - eauto. }
    destruct Hignored as [ignored Hignored].
    split.
    + intros e Hend. unfold drive_organic_job. unfold bind at 1. rewrite Hignored.
      unfold bind at 1. rewrite notify_accepts_eq, Hend. reflexivity.
    + intros exc receipts Hend Hreason Hreceived.
      assert (Hbusy : forall e,
                 (job_request_time <- aget_job_started_receipt db (job_uuid (job w)) ;;
                  floor_value <- aget_config db MINIMUM_STAKE_KEY ;;
                  ret (job_request_time, floor_value))
                   (w : world) = (Raise e, w) ->
                 drive_organic_job py_repr db miner_client total_job_timeout
                   initial_response_timeout executor_ready_timeout run w
                 = (Raise e,
                    {| job := job w; saved_job := saved_job w;
                       system_events := system_events w;
                       status_updates :=
                         status_updates w
                         ++ map (fun msg =>
                                   status_update_from_job (job w) accepted (Some msg))
                              (accepted_messages run) |})).
      { intros e. unfold drive_organic_job. unfold bind at 3. rewrite Hignored.
        unfold bind at 3. rewrite notify_accepts_eq, Hend.
        unfold on_organic_job_error. unfold bind at 3.
        destruct exc as [r received text rtext]. simpl in Hreason, Hreceived.
        subst r received. simpl.
        unfold bind, aget_job_started_receipt, aget_config. simpl.
        destruct (List.filter _ (started_receipts db)) as [|row [|row' rows]];
          try (intros [= <-]; reflexivity).
        destruct (config db !! MINIMUM_STAKE_KEY) as [v|];
          [discriminate|intros [= <-]; reflexivity]. }
      split; [|split].
      * intros Hrows. apply Hbusy. unfold bind, aget_job_started_receipt.
        rewrite Hrows. reflexivity.
      * intros Hrows. apply Hbusy. unfold bind, aget_job_started_receipt.
        destruct (List.filter _ (started_receipts db)) as [|row [|row' rows]];
          simpl in Hrows; try lia. reflexivity.
      * intros Hrows Hfloor. apply Hbusy. unfold bind, aget_job_started_receipt, aget_config.
        destruct (List.filter _ (started_receipts db)) as [|row [|row' rows]];
          simpl in Hrows; try lia. rewrite Hfloor. reflexivity.
  - rewrite terminal_updates_app, terminal_updates_accepts, app_nil_r. reflexivity.
Qed.

(** X21: when the run ended in an OrganicJobError and the driver returns,
    it returns False, the job is saved as FAILED or EXCUSED, and the last
    status update is "rejected" exactly when the reason is JOB_DECLINED
    and "failed" for every other reason; the job is EXCUSED only after a
    decline with reason BUSY. *)
Theorem rejected_update_iff_miner_declined (run : run_behaviour) (w w' : world)
    (exc : OrganicJobError) (result : bool) :
  drive_organic_job py_repr db miner_client total_job_timeout initial_response_timeout
    executor_ready_timeout run w = (Return result, w') ->
  ending run = Failed exc ->
  result = false
  /\ (status (job w') = FAILED \/ status (job w') = EXCUSED)
  /\ (status (job w') = EXCUSED ->
      reason exc = JOB_DECLINED
      /\ exists receipts, received exc = Some (V0DeclineJobRequest BUSY receipts))
  /\ exists u,
       last (status_updates w') = Some u
       /\ (update_status u = rejected <-> reason exc = JOB_DECLINED)
       /\ (update_status u = failed <-> reason exc <> JOB_DECLINED).
Proof.
  intros Hrun Hend. pose proof (drive_organic_job_outcome run w) as Hout.
  rewrite Hrun, Hend in Hout. simpl in Hout.
  destruct Hout as (ignored & st & c & sub & upd & mt & j1 & _ & -> & -> & _ & Hst & Hex & Hupd).
  simpl. split; [reflexivity|]. split; [tauto|]. split.
  - exact Hex.
  - eexists. rewrite !app_assoc, last_snoc. split; [reflexivity|]. simpl.
    destruct Hupd as [[-> Hr]|[-> Hr]]; split; split; auto; try discriminate;
      intros; congruence.
Qed.

(** X22: a driver that returns records exactly one system event, unless
    the job is on the trusted miner and the switch that disables its
    events is set, in which case it records none.  The event is of type
    MINER_ORGANIC_JOB_SUCCESS exactly when the driver returns True, its
    description is the comment saved on the job, and its data are the
    job uuid and the hotkey of the validator. *)
Theorem driver_records_one_event_unless_ignored (run : run_behaviour) (w w' : world)
    (result : bool) :
  drive_organic_job py_repr db miner_client total_job_timeout initial_response_timeout
    executor_ready_timeout run w = (Return result, w') ->
  if on_trusted_miner (job w)
     && match config db !! DISABLE_TRUSTED_KEY with
        | Some v => truthy v
        | None => false
        end
  then system_events w' = system_events w
  else exists ev,
      system_events w' = system_events w ++ [ev]
      /\ (event_type ev = MINER_ORGANIC_JOB_SUCCESS <-> result = true)
      /\ long_description ev = comment (job w')
      /\ data ev = {[ "job_uuid" := job_uuid (job w);
                      "miner_hotkey" := my_hotkey miner_client ]}.
Proof.
  intros Hrun. pose proof (drive_organic_job_outcome run w) as Hout.
  rewrite Hrun in Hout. simpl in Hout.
  destruct Hout as (ignored & st & c & sub & upd & mt & j1 & Hig & -> & _).
  rewrite events_ignored_outcome in Hig. simpl.
  assert (Hignored : on_trusted_miner (job w)
                     && match config db !! DISABLE_TRUSTED_KEY with
                        | Some v => truthy v
                        | None => false
                        end = ignored).
  { destruct (on_trusted_miner (job w)); simpl; [|congruence].
    destruct (config db !! DISABLE_TRUSTED_KEY); congruence. }
  rewrite Hignored. unfold events_of. destruct ignored; [apply app_nil_r|].
  eexists. split; [reflexivity|]. simpl. repeat split; auto.
  - destruct result; [reflexivity|discriminate].
  - destruct result; [reflexivity|discriminate].
Qed.

(** X23: a driver that returns has saved the job as it stands, and its
    last status update mirrors it: same uuid, comment, stdout, stderr and
    artifacts.  The uuid, miner, executor class and trusted-miner mark of
    the job are never changed.  After a finished run the job carries the
    output of the run; after JOB_FAILED with a V0JobFailedRequest it
    carries the stdout, stderr, error type and error detail of that
    message; after any other failure its output is as it was. *)
Theorem terminal_update_mirrors_the_saved_job (run : run_behaviour) (w w' : world)
    (result : bool) :
  drive_organic_job py_repr db miner_client total_job_timeout initial_response_timeout
    executor_ready_timeout run w = (Return result, w') ->
  saved_job w' = Some (job w')
  /\ job_uuid (job w') = job_uuid (job w)
  /\ miner_hotkey (job w') = miner_hotkey (job w)
  /\ executor_class (job w') = executor_class (job w)
  /\ on_trusted_miner (job w') = on_trusted_miner (job w)
  /\ (exists u,
        last (status_updates w') = Some u
        /\ uuid u = job_uuid (job w')
        /\ metadata_comment (metadata u) = comment (job w')
        /\ docker_process_stdout (miner_response (metadata u)) = stdout (job w')
        /\ docker_process_stderr (miner_response (metadata u)) = stderr (job w')
        /\ response_artifacts (miner_response (metadata u)) = artifacts (job w'))
  /\ match ending run with
     | Finished out err arts =>
         stdout (job w') = out /\ stderr (job w') = err /\ artifacts (job w') = arts
     | Failed exc =>
         artifacts (job w') = artifacts (job w)
         /\ match reason exc, received exc with
            | JOB_FAILED, Some (V0JobFailedRequest out err et ed) =>
                stdout (job w') = out /\ stderr (job w') = err
                /\ error_type (job w') = et /\ error_detail (job w') = ed
            | _, _ =>
                stdout (job w') = stdout (job w) /\ stderr (job w') = stderr (job w)
                /\ error_type (job w') = error_type (job w)
                /\ error_detail (job w') = error_detail (job w)
            end
     | Crashed _ => False
     end.
Proof.
  intros Hrun. pose proof (drive_organic_job_outcome run w) as Hout.
  rewrite Hrun in Hout. simpl in Hout.
  destruct Hout as (ignored & st & c & sub & upd & mt & j1 & _ & -> & Hend). simpl.
  assert (Hj1 : job_uuid j1 = job_uuid (job w)
                /\ miner_hotkey j1 = miner_hotkey (job w)
                /\ executor_class j1 = executor_class (job w)
                /\ on_trusted_miner j1 = on_trusted_miner (job w)).
  { destruct (ending run) as [out err arts|exc|e]; [| |contradiction].
    - destruct Hend as (_ & _ & _ & ->). repeat split.
    - destruct Hend as (_ & -> & _).
      destruct (reason exc); try (repeat split; fail).
      destruct (received exc) as [[dr receipts|out err et ed|m]|]; repeat split. }
  destruct Hj1 as (H1 & H2 & H3 & H4).
  split; [reflexivity|]. repeat (split; [assumption|]). split.
  - eexists. rewrite !app_assoc, last_snoc. split; [reflexivity|]. repeat split.
  - destruct (ending run) as [out err arts|exc|e]; [| |contradiction].
    + destruct Hend as (_ & _ & _ & ->). repeat split.
    + destruct Hend as (_ & -> & _).
      destruct (reason exc); try (repeat split; fail).
      destruct (received exc) as [[dr receipts|out err et ed|m]|]; repeat split.
Qed.

End DriverMore.

Section DriverMoreExamples.
Import JobExcuses MinerDriver Fixtures.

Lemma drive_organic_job_one_terminal_update_witness :
  exists u,
    update_status
      <$> status_updates (snd (drive_organic_job quoted demo_db demo_client 300 3 300
                                 finished_run demo_world))
    = [accepted; update_status u]
    /\ update_status u = completed.
Proof.
  destruct (drive_organic_job_one_terminal_update quoted demo_db demo_client 300 3 300
              finished_run demo_world
              (snd (drive_organic_job quoted demo_db demo_client 300 3 300
                      finished_run demo_world))
              true) as (u & Hup & _ & Hst & _).
  - vm_compute. reflexivity.
  - exists u. rewrite Hup. simpl in Hst. split; [reflexivity|exact Hst].
Defined.

(** C2 as stated fails: after a decline with reason BUSY for a job that
    has no JobStartedReceipt, and after a run that raises something other
    than OrganicJobError, the driver raises and no terminal update has
    been sent. *)
Lemma drive_organic_job_raises_counterexample :
  (fst (drive_organic_job quoted db_without_receipt demo_client 300 3 300
          (busy_decline []) demo_world) = Raise DoesNotExist
   /\ terminal_updates
        (status_updates (snd (drive_organic_job quoted db_without_receipt demo_client
                                300 3 300 (busy_decline []) demo_world))) = [])
  /\ (fst (drive_organic_job quoted demo_db demo_client 300 3 300 cancelled_run demo_world)
      = Raise (OtherError "CancelledError")
      /\ terminal_updates
           (status_updates (snd (drive_organic_job quoted demo_db demo_client 300 3 300
                                   cancelled_run demo_world))) = []).
Proof. repeat split; vm_compute; reflexivity. Qed.

Lemma driver_raises_before_it_concludes_witness :
  drive_organic_job quoted db_without_receipt demo_client 300 3 300
    (busy_decline []) demo_world
  = (Raise DoesNotExist, demo_world).
Proof.
  destruct (driver_raises_before_it_concludes quoted db_without_receipt demo_client
              300 3 300 (busy_decline []) demo_world) as (_ & Hreads & _).
  destruct (Hreads (or_introl eq_refl)) as (_ & Hbusy).
  destruct (Hbusy {| reason := JOB_DECLINED;
                     received := Some (V0DeclineJobRequest BUSY (Some []));
                     exc_text := "declined"; received_text := "busy" |}
              (Some []) eq_refl eq_refl eq_refl) as (Hnone & _).
  rewrite (Hnone eq_refl). reflexivity.
Defined.

Lemma rejected_update_iff_miner_declined_witness :
  exists u,
    last (status_updates
            (snd (drive_organic_job quoted demo_db demo_client 300 3 300
                    (busy_decline [excuse "job-7" "v1" 400]) demo_world))) = Some u
    /\ update_status u = rejected.
Proof.
  destruct (rejected_update_iff_miner_declined quoted demo_db demo_client 300 3 300
              (busy_decline [excuse "job-7" "v1" 400]) demo_world
              (snd (drive_organic_job quoted demo_db demo_client 300 3 300
                      (busy_decline [excuse "job-7" "v1" 400]) demo_world))
              {| reason := JOB_DECLINED;
                 received := Some (V0DeclineJobRequest BUSY
                                     (Some [excuse "job-7" "v1" 400]));
                 exc_text := "declined"; received_text := "busy" |}
              false) as (_ & _ & _ & u & Hlast & Hrejected & _).
  - vm_compute. reflexivity.
  - reflexivity.
  - exists u. split; [exact Hlast|]. apply Hrejected. reflexivity.
Defined.

Lemma driver_records_one_event_unless_ignored_witness :
  exists ev,
    system_events (snd (drive_organic_job quoted demo_db demo_client 300 3 300
                          finished_run demo_world)) = [ev]
    /\ event_type ev = MINER_ORGANIC_JOB_SUCCESS.
Proof.
  pose proof (driver_records_one_event_unless_ignored quoted demo_db demo_client 300 3 300
                finished_run demo_world
                (snd (drive_organic_job quoted demo_db demo_client 300 3 300
                        finished_run demo_world))
                true) as Hevent.
  simpl in Hevent. destruct Hevent as (ev & Hev & Htype & _).
  - vm_compute. reflexivity.
  - exists ev. split; [exact Hev|]. apply Htype. reflexivity.
Defined.

Lemma terminal_update_mirrors_the_saved_job_witness :
  stdout (job (snd (drive_organic_job quoted demo_db demo_client 300 3 300
                      finished_run demo_world))) = "out".
Proof.
  destruct (terminal_update_mirrors_the_saved_job quoted demo_db demo_client 300 3 300
              finished_run demo_world
              (snd (drive_organic_job quoted demo_db demo_client 300 3 300
                      finished_run demo_world))
              true) as (_ & _ & _ & _ & _ & _ & Hout & _).
  - vm_compute. reflexivity.
  - exact Hout.
Defined.

End DriverMoreExamples.
